(** * StratIQ dashboard: dependent-query orchestration

    A shallow embedding of the selection state ([DashboardPage],
    [MarketSearch]), of the five query-backed panels ([KPICards],
    [TrendChart], [SWOTMatrix], [AISummary], [StrategicRecommendations]) and
    of the query client configured in [Providers], of the bodies posted by
    the [api] object and of the drop-down of [MarketSearch], followed by the
    properties of the orchestration layer.

    Conventions.  JavaScript values of type [any] are terms of [JsVal].
    Numbers are exact rationals: the rounding of IEEE doubles and the digits
    produced by [Number.prototype.toFixed] are not modelled (a formatted
    number is kept as the symbolic piece [Fixed1]).  Strings are
    [String.string], read as UTF-8: the white space that [trim] and the
    conversion of a string to a number strip is the white space and the line
    terminators of ECMAScript, one to three bytes each.  An expression that
    would throw evaluates to [None]. *)

From Stdlib Require Import List String Ascii Bool Arith ZArith QArith Lia.
Import ListNotations.

Set Warnings "-register-all".

Local Close Scope Q_scope.
Local Open Scope string_scope.
Local Open Scope list_scope.

(* ===================================================================== *)
(** ** JavaScript values *)
(* ===================================================================== *)

Inductive JsVal : Type :=
| JUndefined
| JNull
| JBool (b : bool)
| JNum (q : Q)
| JStr (s : string)
| JArr (items : list JsVal)
| JObj (fields : list (string * JsVal)).

(** Induction principle that reaches inside arrays and objects. *)
Section JsVal_nested_ind.
Variable P : JsVal -> Prop.
Hypothesis Hundef : P JUndefined.
Hypothesis Hnull : P JNull.
Hypothesis Hbool : forall b, P (JBool b).
Hypothesis Hnum : forall q, P (JNum q).
Hypothesis Hstr : forall s, P (JStr s).
Hypothesis Harr : forall xs, Forall P xs -> P (JArr xs).
Hypothesis Hobj : forall fs, Forall (fun kv => P (snd kv)) fs -> P (JObj fs).

Fixpoint JsVal_nested_ind (v : JsVal) : P v :=
  match v with
  | JUndefined => Hundef
  | JNull => Hnull
  | JBool b => Hbool b
  | JNum q => Hnum q
  | JStr s => Hstr s
  | JArr xs =>
      Harr xs
        ((fix go (l : list JsVal) : Forall P l :=
            match l with
            | [] => Forall_nil P
            | x :: r => Forall_cons x (JsVal_nested_ind x) (go r)
            end) xs)
  | JObj fs =>
      Hobj fs
        ((fix go (l : list (string * JsVal))
            : Forall (fun kv => P (snd kv)) l :=
            match l with
            | [] => Forall_nil _
            | kv :: r =>
                Forall_cons kv (JsVal_nested_ind (snd kv)) (go r)
            end) fs)
  end.
End JsVal_nested_ind.

(** Structural equality test on values. *)
Fixpoint JsVal_eqb (a b : JsVal) {struct a} : bool :=
  match a, b with
  | JUndefined, JUndefined => true
  | JNull, JNull => true
  | JBool x, JBool y => Bool.eqb x y
  | JNum p, JNum q => Z.eqb (Qnum p) (Qnum q) && Pos.eqb (Qden p) (Qden q)
  | JStr s, JStr t => String.eqb s t
  | JArr xs, JArr ys =>
      (fix go (l m : list JsVal) {struct l} : bool :=
         match l, m with
         | [], [] => true
         | x :: l', y :: m' => JsVal_eqb x y && go l' m'
         | _, _ => false
         end) xs ys
  | JObj fs, JObj gs =>
      (fix go (l m : list (string * JsVal)) {struct l} : bool :=
         match l, m with
         | [], [] => true
         | kv :: l', kw :: m' =>
             String.eqb (fst kv) (fst kw)
             && JsVal_eqb (snd kv) (snd kw) && go l' m'
         | _, _ => false
         end) fs gs
  | _, _ => false
  end.

(** [ToBoolean]: what [!!v], [if (v)] and [v || w] test. *)
Definition truthy (v : JsVal) : bool :=
  match v with
  | JUndefined | JNull => false
  | JBool b => b
  | JNum q => negb (Qeq_bool q 0)
  | JStr s => negb (String.eqb s "")
  | JArr _ | JObj _ => true
  end.

(** [a || b] *)
Definition js_or (a b : JsVal) : JsVal := if truthy a then a else b.

(** Own property of an object literal: the first binding of [name]. *)
Fixpoint lookup_field (name : string) (fs : list (string * JsVal)) : JsVal :=
  match fs with
  | [] => JUndefined
  | (k, x) :: r => if String.eqb k name then x else lookup_field name r
  end.

(** [v.name]: throws ([None]) on [undefined] and [null]; the property names
    read by the panels are not properties of strings, numbers, booleans or
    arrays, so reading them there yields [undefined]. *)
Definition get (v : JsVal) (name : string) : option JsVal :=
  match v with
  | JUndefined | JNull => None
  | JObj fs => Some (lookup_field name fs)
  | _ => Some JUndefined
  end.

(** [v?.name] *)
Definition get_opt (v : JsVal) (name : string) : JsVal :=
  match get v name with
  | Some x => x
  | None => JUndefined
  end.

(** A [string | null] prop as a value. *)
Definition of_prop (p : option string) : JsVal :=
  match p with
  | Some s => JStr s
  | None => JNull
  end.

(** Template-literal conversion of a [string | null] prop. *)
Definition show_prop (p : option string) : string :=
  match p with
  | Some s => s
  | None => "null"
  end.

(** White space removed by [String.prototype.trim]: the characters
    [WhiteSpace] and [LineTerminator] of ECMAScript.  In UTF-8 they take one
    byte (TAB, LF, VT, FF, CR, SP), two (U+00A0) or three (U+1680,
    U+2000..U+200A, U+2028, U+2029, U+202F, U+205F, U+3000, U+FEFF). *)
Definition is_space (c : ascii) : bool :=
  let n := nat_of_ascii c in
  ((9 <=? n)%nat && (n <=? 13)%nat) || (n =? 32)%nat.

Definition is_space2 (c1 c2 : ascii) : bool :=
  ((nat_of_ascii c1 =? 194) && (nat_of_ascii c2 =? 160))%nat.

Definition is_space3 (c1 c2 c3 : ascii) : bool :=
  let a := nat_of_ascii c1 in
  let b := nat_of_ascii c2 in
  let c := nat_of_ascii c3 in
  (((a =? 225) && (b =? 154) && (c =? 128))
   || ((a =? 226) && (b =? 128)
       && (((128 <=? c) && (c <=? 138)) || (c =? 168) || (c =? 169)
           || (c =? 175)))
   || ((a =? 226) && (b =? 129) && (c =? 159))
   || ((a =? 227) && (b =? 128) && (c =? 128))
   || ((a =? 239) && (b =? 187) && (c =? 191)))%nat.

(** What follows one white space character at the head of [l]. *)
Definition space_token (l : list ascii) : option (list ascii) :=
  match l with
  | c1 :: r1 =>
      if is_space c1 then Some r1
      else
        match r1 with
        | c2 :: r2 =>
            if is_space2 c1 c2 then Some r2
            else
              match r2 with
              | c3 :: r3 => if is_space3 c1 c2 c3 then Some r3 else None
              | [] => None
              end
        | [] => None
        end
  | [] => None
  end.

(** The same for a string read from its end: [l] is the reversed string. *)
Definition space_token_end (l : list ascii) : option (list ascii) :=
  match l with
  | c1 :: r1 =>
      if is_space c1 then Some r1
      else
        match r1 with
        | c2 :: r2 =>
            if is_space2 c2 c1 then Some r2
            else
              match r2 with
              | c3 :: r3 => if is_space3 c3 c2 c1 then Some r3 else None
              | [] => None
              end
        | [] => None
        end
  | [] => None
  end.

(** Tokens are dropped while there are some; [n] bounds their number. *)
Fixpoint drop_tokens (token : list ascii -> option (list ascii)) (n : nat)
    (l : list ascii) : list ascii :=
  match n with
  | O => l
  | S m =>
      match token l with
      | Some r => drop_tokens token m r
      | None => l
      end
  end.

Definition drop_space (l : list ascii) : list ascii :=
  drop_tokens space_token (List.length l) l.

Definition drop_space_end (l : list ascii) : list ascii :=
  drop_tokens space_token_end (List.length l) l.

(** What [trim] does to the bytes of a string. *)
Definition strip (l : list ascii) : list ascii :=
  rev (drop_space_end (rev (drop_space l))).

Definition trim (s : string) : string :=
  string_of_list_ascii (strip (list_ascii_of_string s)).

(* ===================================================================== *)
(** ** Query keys *)
(* ===================================================================== *)

(** A query key is the array literal passed as [queryKey]. *)
Definition QueryKey := list JsVal.

(** Insertion into a list of properties sorted by name. *)
Fixpoint insert_field (kv : string * JsVal) (l : list (string * JsVal))
  : list (string * JsVal) :=
  match l with
  | [] => [kv]
  | kw :: r =>
      if String.leb (fst kv) (fst kw) then kv :: l
      else kw :: insert_field kv r
  end.

Definition sort_fields (l : list (string * JsVal)) : list (string * JsVal) :=
  fold_right insert_field [] l.

Definition is_undefined (v : JsVal) : bool :=
  match v with
  | JUndefined => true
  | _ => false
  end.

(** The query client identifies a key by its hash, the JSON serialisation
    of the array with the properties of every object sorted: [undefined]
    array items serialise as [null], [undefined] properties are left out,
    equal numbers serialise alike.  The hash is kept as the normalised
    value rather than as its text. *)
Fixpoint canon (v : JsVal) : JsVal :=
  match v with
  | JUndefined => JNull
  | JNull => JNull
  | JBool b => JBool b
  | JNum q => JNum (Qred q)
  | JStr s => JStr s
  | JArr xs => JArr (map canon xs)
  | JObj fs =>
      JObj (sort_fields
              ((fix go (l : list (string * JsVal)) : list (string * JsVal) :=
                  match l with
                  | [] => []
                  | kv :: r =>
                      if is_undefined (snd kv) then go r
                      else (fst kv, canon (snd kv)) :: go r
                  end) fs))
  end.

Definition QueryHash := JsVal.

Definition hashKey (k : QueryKey) : QueryHash := canon (JArr k).

(** Key equality as the cache store decides it. *)
Definition key_eqb (k1 k2 : QueryKey) : bool :=
  JsVal_eqb (hashKey k1) (hashKey k2).

Definition key_eq (k1 k2 : QueryKey) : Prop := hashKey k1 = hashKey k2.

(* ===================================================================== *)
(** ** Selection state: [DashboardPage] and [MarketSearch] *)
(* ===================================================================== *)

(** The two [useState] cells of [DashboardPage]. *)
Record Selection : Type := mkSelection {
  selectedIndustry : option string;
  selectedCompany : option string
}.

Definition noSelection : Selection := mkSelection None None.

Definition setSelectedIndustry (v : option string) (d : Selection) : Selection :=
  mkSelection v (selectedCompany d).

Definition setSelectedCompany (v : option string) (d : Selection) : Selection :=
  mkSelection (selectedIndustry d) v.

Definition option_string_eqb (a b : option string) : bool :=
  match a, b with
  | Some s, Some t => String.eqb s t
  | None, None => true
  | _, _ => false
  end.

Definition Selection_eqb (a b : Selection) : bool :=
  option_string_eqb (selectedIndustry a) (selectedIndustry b)
  && option_string_eqb (selectedCompany a) (selectedCompany b).

(** ['industry' | 'company'] *)
Inductive SearchType : Type := byIndustry | byCompany.

(** Local state of [MarketSearch]. *)
Record MarketSearch : Type := mkMarketSearch {
  searchType : SearchType;
  searchValue : string
}.

Definition setSearchType (t : SearchType) (m : MarketSearch) : MarketSearch :=
  mkMarketSearch t (searchValue m).

Definition setSearchValue (v : string) (m : MarketSearch) : MarketSearch :=
  mkMarketSearch (searchType m) v.

(** A string is truthy when it is not empty. *)
Definition nonempty (s : string) : bool := negb (String.eqb s "").

(** The page: [MarketSearch] with its two callbacks bound to the setters of
    [DashboardPage]. *)
Record Page : Type := mkPage {
  search : MarketSearch;
  selection : Selection
}.

Definition onSearch (f : MarketSearch -> MarketSearch) (p : Page) : Page :=
  mkPage (f (search p)) (selection p).

Definition onIndustrySelect (v : option string) (p : Page) : Page :=
  mkPage (search p) (setSelectedIndustry v (selection p)).

Definition onCompanySelect (v : option string) (p : Page) : Page :=
  mkPage (search p) (setSelectedCompany v (selection p)).

(** Sequencing of the statements of a handler. *)
Definition seq {A : Type} (f g : A -> A) : A -> A := fun a => g (f a).
Infix ";;" := seq (at level 61, left associativity).

Definition skip {A : Type} : A -> A := fun a => a.

(** [searchType] below is the value captured by the render that created the
    handler, so it is read from the page the handler starts from. *)
Definition handleIndustryChange (value : string) (p : Page) : Page :=
  (onSearch (setSearchValue value) ;;
   (if nonempty value
    then onIndustrySelect (Some value) ;; onCompanySelect None
    else onIndustrySelect None ;; onCompanySelect None) ;;
   (match searchType (search p) with
    | byCompany => onSearch (setSearchValue "")
    | byIndustry => skip
    end)) p.

Definition handleCompanyChange (value : string) (p : Page) : Page :=
  (onSearch (setSearchValue value) ;;
   (if nonempty (trim value)
    then onCompanySelect (Some (trim value)) ;; onIndustrySelect None
    else onCompanySelect None ;; onIndustrySelect None)) p.

(** The two mode buttons. *)
Definition clickIndustry : Page -> Page :=
  onSearch (setSearchType byIndustry) ;; onSearch (setSearchValue "") ;;
  onIndustrySelect None ;; onCompanySelect None.

Definition clickCompany : Page -> Page :=
  onSearch (setSearchType byCompany) ;; onSearch (setSearchValue "") ;;
  onIndustrySelect None ;; onCompanySelect None.

Inductive UserEvent : Type :=
| IndustryChange (value : string)
| CompanyChange (value : string)
| ClickIndustry
| ClickCompany.

Definition handle (e : UserEvent) : Page -> Page :=
  match e with
  | IndustryChange v => handleIndustryChange v
  | CompanyChange v => handleCompanyChange v
  | ClickIndustry => clickIndustry
  | ClickCompany => clickCompany
  end.

(** The panels observe the selection: they render again when a handler
    leaves the selection different from what it was, and not otherwise. *)
Definition notifies (e : UserEvent) (p : Page) : bool :=
  negb (Selection_eqb (selection p) (selection (handle e p))).


Definition initialPage : Page :=
  mkPage (mkMarketSearch byIndustry "") noSelection.

(** [!!(industry || company)] and its negation [!industry && !company]. *)
Definition prop_truthy (p : option string) : bool := truthy (of_prop p).

Definition hasSelection (d : Selection) : bool :=
  prop_truthy (selectedIndustry d) || prop_truthy (selectedCompany d).

(* ===================================================================== *)
(** ** Remote operations ([api]) and fetchers *)
(* ===================================================================== *)

(** The four calls of the [api] object, with the arguments the panels pass. *)
Inductive Request : Type :=
| GetMarketData (industry company : option string)
| GetInsights (industry company : option string) (data : JsVal)
| GetStrategy (industry company : option string) (analysis_type : string)
| GetForecast (metric : string) (periods : nat)
              (industry company : option string).

(** Why a request fails. *)
Inductive ErrorInfo : Type :=
| NetworkError
| HttpError (status : nat)
| DecodeError.

(** How a promise settles. *)
Inductive Outcome : Type :=
| Resolved (value : JsVal)
| Rejected (error : ErrorInfo).

(** [p || undefined] on a [string | null] prop. *)
Definition or_undefined (p : option string) : option string :=
  if prop_truthy p then p else None.

(** [v.map(f)] for a value [v] that is not nullish: only arrays have [map],
    calling it on anything else throws. *)
Definition as_array (v : JsVal) : option (list JsVal) :=
  match v with
  | JArr xs => Some xs
  | _ => None
  end.

Definition bind {A B : Type} (o : option A) (f : A -> option B) : option B :=
  match o with
  | Some a => f a
  | None => None
  end.

Notation "x <- e ; k" := (bind e (fun x => k))
  (at level 62, e at next level, right associativity).

(** [xs.map((item, index) => f item index)], stopping at the first throw. *)
Fixpoint mapi_from {A : Type} (f : JsVal -> nat -> option A)
    (i : nat) (xs : list JsVal) : option (list A) :=
  match xs with
  | [] => Some []
  | x :: r =>
      y <- f x i ;
      ys <- mapi_from f (S i) r ;
      Some (y :: ys)
  end.

Definition num_of_nat (n : nat) : JsVal := JNum (inject_Z (Z.of_nat n)).

(** One point of the chart:
    [{ month: index + 1, value: item.yhat || item.value || 0 }]. *)
Definition forecastPoint (item : JsVal) (index : nat) : option JsVal :=
  yhat <- get item "yhat" ;
  Some (JObj [("month", num_of_nat (index + 1));
              ("value",
                if truthy yhat then yhat
                else js_or (get_opt item "value") (num_of_nat 0))]).

(** [forecast.forecast?.slice(0, 12).map(...) || []], inside the [try]. *)
Definition transformForecast (forecast : JsVal) : option JsVal :=
  series <- get forecast "forecast" ;
  match series with
  | JUndefined | JNull => Some (JArr [])
  | JArr xs =>
      points <- mapi_from forecastPoint 0 (firstn 12 xs) ;
      Some (JArr points)
  | _ => None
  end.

(** The [queryFn] of [TrendChart]. *)
Definition trendQueryFn (industry company : option string)
    (response : Outcome) : Outcome :=
  if negb (prop_truthy industry) && negb (prop_truthy company)
  then Resolved (JArr [])
  else
    match response with
    | Resolved forecast =>
        match transformForecast forecast with
        | Some points => Resolved points
        | None => Resolved (JArr [])
        end
    | Rejected _ => Resolved (JArr [])
    end.

(** A [queryFn] is either a bare [api] call, whose promise is returned as it
    is, or the wrapper of [TrendChart]. *)
Inductive QueryFn : Type :=
| ApiCall (r : Request)
| TrendFn (industry company : option string).

(** The request a [queryFn] sends, if it sends one. *)
Definition request_of (f : QueryFn) : option Request :=
  match f with
  | ApiCall r => Some r
  | TrendFn i c =>
      if negb (prop_truthy i) && negb (prop_truthy c) then None
      else Some (GetForecast "growth" 12 (or_undefined i) (or_undefined c))
  end.

(** The promise of a [queryFn], given how its request settles. *)
Definition run_queryFn (f : QueryFn) (response : Outcome) : Outcome :=
  match f with
  | ApiCall _ => response
  | TrendFn i c => trendQueryFn i c response
  end.

(* ===================================================================== *)
(** ** The queries of the panels *)
(* ===================================================================== *)

(** The options object given to [useQuery]. *)
Record Query : Type := mkQuery {
  queryKey : QueryKey;
  queryFn : QueryFn;
  enabled : bool
}.

Section Panels.
Variables industry company : option string.

Definition sel : Selection := mkSelection industry company.

(** [KPICards] and the first query of [AISummary]. *)
Definition marketQuery : Query :=
  mkQuery [JStr "market"; of_prop industry; of_prop company]
          (ApiCall (GetMarketData industry company))
          (hasSelection sel).

(** The second query of [AISummary]; [marketData] is the data of the
    first. *)
Definition insightsQuery (marketData : JsVal) : Query :=
  mkQuery [JStr "insights"; of_prop industry; of_prop company;
           get_opt marketData "metrics"]
          (ApiCall (GetInsights industry company
                      (js_or (get_opt marketData "metrics") (JObj []))))
          (hasSelection sel && truthy marketData).

(** [TrendChart] *)
Definition forecastQuery : Query :=
  mkQuery [JStr "forecast"; of_prop industry; of_prop company]
          (TrendFn industry company)
          (hasSelection sel).

(** [SWOTMatrix] *)
Definition swotQuery : Query :=
  mkQuery [JStr "strategy"; JStr "swot"; of_prop industry; of_prop company]
          (ApiCall (GetStrategy industry company "swot"))
          (hasSelection sel).

(** [StrategicRecommendations] *)
Definition growthQuery : Query :=
  mkQuery [JStr "strategy"; JStr "growth"; of_prop industry; of_prop company]
          (ApiCall (GetStrategy industry company "growth"))
          (hasSelection sel).
End Panels.

(* ===================================================================== *)
(** ** The query client *)
(* ===================================================================== *)

(** The panels hand their queries to [useQuery] and [Providers] configures
    the [QueryClient]; both come from the query library
    ([@tanstack/react-query]), whose behaviour is written out here as far as
    the dashboard exercises it: one cache entry per key hash, a fetcher
    started when an enabled observer mounts or changes key and the data is
    stale, requests for a key shared while one is under way, retries after a
    rejection, refetching on reconnect and on window focus as the options
    say.  Not modelled: the clock (with [staleTime] 0 data is stale at once,
    which is all [Providers] needs) and the removal of entries that stay
    unobserved for minutes.  The browser is taken to be online whenever a
    fetcher is started: while it is offline the library leaves a new
    request paused, its entry pending with no request under way, until the
    connection is back.  An entry below can be in that state but no
    transition leads to it, so what is stated about the panels allows for
    it instead of excluding it, and [Reconnect] stands for a connection
    that was lost and regained with nothing happening in between. *)

(** Default options of the client.  [retry] is the number of further
    attempts the client makes by itself after a rejection. *)
Record QueryOptions : Type := mkQueryOptions {
  staleTime : nat;
  refetchOnWindowFocus : bool;
  refetchOnMount : bool;
  refetchOnReconnect : bool;
  retry : nat
}.

(** [Providers] sets four options and leaves [retry] to the query library,
    whose default is three further attempts. *)
Definition libraryRetry : nat := 3.

Definition Providers : QueryOptions :=
  {| staleTime := 0;
     refetchOnWindowFocus := false;
     refetchOnMount := true;
     refetchOnReconnect := true;
     retry := libraryRetry |}.

Inductive Status : Type := Pending | Success | Failure.

(** An entry of the cache.  [data] is [undefined] until a fetch resolves and
    is kept when a later fetch fails; [inflight] holds the fetcher of the
    request under way. *)
Record QueryEntry : Type := mkEntry {
  status : Status;
  data : JsVal;
  error : option ErrorInfo;
  inflight : option QueryFn;
  failureCount : nat
}.

Definition idleEntry : QueryEntry := mkEntry Pending JUndefined None None 0.

Definition isFetching (e : QueryEntry) : bool :=
  match inflight e with
  | Some _ => true
  | None => false
  end.

(** [isLoading]: no data yet and a request under way (a disabled query
    that never fetched is not loading). *)
Definition isLoading (e : QueryEntry) : bool :=
  match status e with
  | Pending => isFetching e
  | _ => false
  end.

(** The cache, keyed by hash; a later binding supersedes an earlier one. *)
Definition Cache := list (QueryHash * QueryEntry).

Fixpoint find_entry (h : QueryHash) (c : Cache) : option QueryEntry :=
  match c with
  | [] => None
  | (h', e) :: r => if JsVal_eqb h' h then Some e else find_entry h r
  end.

Definition entry (k : QueryKey) (c : Cache) : QueryEntry :=
  match find_entry (hashKey k) c with
  | Some e => e
  | None => idleEntry
  end.

Definition store (k : QueryKey) (e : QueryEntry) (c : Cache) : Cache :=
  (hashKey k, e) :: c.

(** A fetcher invocation: the key it was started for and the fetcher. *)
Definition Call := (QueryKey * QueryFn)%type.

(** Local state of [KPICards]. *)
Record KPIs : Type := mkKPIs {
  growthRate : JsVal;
  fundingVolume : JsVal;
  marketSize : JsVal
}.

Definition zero : JsVal := JNum 0%Q.

Definition initialKPIs : KPIs := mkKPIs zero zero zero.

(** The whole client side: page state, the local state of [KPICards], the
    cache and the log of fetcher invocations (latest first). *)
Record World : Type := mkWorld {
  page : Page;
  kpis : KPIs;
  cache : Cache;
  calls : list Call
}.

Definition current (w : World) : Selection := selection (page w).

(** The body of the effect of [KPICards]. *)
Definition kpiEffect (marketData : JsVal) (d : Selection) (k : KPIs)
  : option KPIs :=
  if truthy (get_opt marketData "metrics") then
    metrics <- get marketData "metrics" ;
    growth_rate <- get metrics "growth_rate" ;
    funding_volume <- get metrics "funding_volume" ;
    market_size <- get metrics "market_size" ;
    Some (mkKPIs (js_or growth_rate zero)
                 (js_or funding_volume zero)
                 (js_or market_size zero))
  else if negb (prop_truthy (selectedIndustry d))
          && negb (prop_truthy (selectedCompany d))
  then Some initialKPIs
  else Some k.

(** The state of [KPICards] after its effect ran (the effect never throws,
    see [kpiEffect_total]). *)
Definition run_effect (md : JsVal) (d : Selection) (k : KPIs) : KPIs :=
  match kpiEffect md d k with
  | Some k' => k'
  | None => k
  end.

(** The React key shared by the five panels, up to its prefix:
    [`kpi-${selectedIndustry}-${selectedCompany}`]. *)
Definition reactKey (d : Selection) : string :=
  show_prop (selectedIndustry d) ++ "-" ++ show_prop (selectedCompany d).

(** [data] of the market query as the panels of selection [d] see it. *)
Definition marketData (d : Selection) (c : Cache) : JsVal :=
  data (entry (queryKey (marketQuery (selectedIndustry d) (selectedCompany d)))
              c).

(** The six [useQuery] calls of the dashboard, in the order of the panels in
    [DashboardPage]. *)
Definition queries (d : Selection) (c : Cache) : list Query :=
  let i := selectedIndustry d in
  let co := selectedCompany d in
  [ marketQuery i co;                         (* KPICards *)
    forecastQuery i co;                       (* TrendChart *)
    swotQuery i co;                           (* SWOTMatrix *)
    marketQuery i co;                         (* AISummary *)
    insightsQuery i co (marketData d c);      (* AISummary *)
    growthQuery i co ].                       (* StrategicRecommendations *)

(** The entry once fetcher [f] has been started: an entry without data
    shows as pending again, one with data keeps its status. *)
Definition started (f : QueryFn) (e : QueryEntry) : QueryEntry :=
  if is_undefined (data e)
  then mkEntry Pending (data e) None (Some f) 0
  else mkEntry (status e) (data e) (error e) (Some f) 0.

(** The entry after a further attempt was started, after it failed for good
    and after it resolved. *)
Definition retried (f : QueryFn) (e : QueryEntry) : QueryEntry :=
  mkEntry (status e) (data e) (error e) (Some f) (S (failureCount e)).

Definition failed (err : ErrorInfo) (e : QueryEntry) : QueryEntry :=
  mkEntry Failure (data e) (Some err) None (S (failureCount e)).

Definition succeeded (v : JsVal) : QueryEntry :=
  mkEntry Success v None None 0.

Section Client.
Variable opts : QueryOptions.

(** With [staleTime] zero data is stale as soon as it arrives; otherwise
    only missing data counts as stale (the clock is not modelled). *)
Definition isStale (e : QueryEntry) : bool :=
  (staleTime opts =? 0)%nat || is_undefined (data e).

Definition shouldFetchOnMount (q : Query) (e : QueryEntry) : bool :=
  enabled q && (is_undefined (data e) || (refetchOnMount opts && isStale e)).

Definition shouldFetchOn (flag : bool) (q : Query) (e : QueryEntry) : bool :=
  enabled q && flag && isStale e.

(** An observer whose options change on a re-render. *)
Definition shouldFetchOptionally (prev next : Query) (e : QueryEntry)
  : bool :=
  (negb (key_eqb (queryKey prev) (queryKey next)) || negb (enabled prev))
  && enabled next && isStale e.

(** Start the fetcher of [q] unless a request for its key is under way
    (the browser being online, see above). *)
Definition fetch (q : Query) (w : World) : World :=
  let e := entry (queryKey q) (cache w) in
  if isFetching e then w
  else
    mkWorld (page w) (kpis w)
            (store (queryKey q) (started (queryFn q) e) (cache w))
            ((queryKey q, queryFn q) :: calls w).

Definition fetch_if (b : bool) (q : Query) (w : World) : World :=
  if b then fetch q w else w.

(** A panel mounts: its observer subscribes. *)
Definition subscribe (q : Query) (w : World) : World :=
  fetch_if (shouldFetchOnMount q (entry (queryKey q) (cache w))) q w.

(** [observer.setOptions] after the key or [enabled] changed. *)
Definition setOptions (prev next : Query) (w : World) : World :=
  fetch_if (shouldFetchOptionally prev next
              (entry (queryKey next) (cache w))) next w.

Definition refetchOn (flag : bool) (q : Query) (w : World) : World :=
  fetch_if (shouldFetchOn flag q (entry (queryKey q) (cache w))) q w.

End Client.

(* ===================================================================== *)
(** ** Events and the transition function *)
(* ===================================================================== *)

Inductive Event : Type :=
| User (e : UserEvent)                       (* a handler of MarketSearch runs *)
| Settle (k : QueryKey) (response : Outcome) (* the request under way for k settles *)
| Reconnect                                  (* the browser is online again *)
| WindowFocus.                               (* the window regains focus *)

(** [k] is the key of an observer mounted for the current selection. *)
Definition observed (k : QueryKey) (w : World) : bool :=
  existsb (fun q => key_eqb (queryKey q) k) (queries (current w) (cache w)).

Section Machine.
Variable opts : QueryOptions.

Definition mountAll (qs : list Query) (w : World) : World :=
  fold_left (fun w q => subscribe opts q w) qs w.

Definition updateAll (prevs nexts : list Query) (w : World) : World :=
  fold_left (fun w pq => setOptions opts (fst pq) (snd pq) w)
            (combine prevs nexts) w.

Definition refetchAll (flag : bool) (qs : list Query) (w : World) : World :=
  fold_left (fun w q => refetchOn opts flag q w) qs w.

(** A handler runs.  The two setters are applied in one batch; when the
    selection is left as it was no panel renders again.  Otherwise the
    panels are mounted afresh when their React key changed and keep their
    state when it did not. *)
Definition onUser (e : UserEvent) (w : World) : World :=
  let p' := handle e (page w) in
  let d := current w in
  let d' := selection p' in
  if negb (notifies e (page w)) then mkWorld p' (kpis w) (cache w) (calls w)
  else
    let remount := negb (String.eqb (reactKey d) (reactKey d')) in
    let k0 := if remount then initialKPIs else kpis w in
    let w1 := mkWorld p' (run_effect (marketData d' (cache w)) d' k0)
                      (cache w) (calls w) in
    if remount then mountAll (queries d' (cache w)) w1
    else updateAll (queries d (cache w)) (queries d' (cache w)) w1.

(** The request under way for [k] settles with [response]. *)
Definition onSettle (k : QueryKey) (response : Outcome) (w : World)
  : World :=
  let e := entry k (cache w) in
  match inflight e with
  | None => w
  | Some f =>
      match run_queryFn f response with
      | Rejected err =>
          if (failureCount e <? retry opts)%nat && observed k w
          then
            mkWorld (page w) (kpis w) (store k (retried f e) (cache w))
                    ((k, f) :: calls w)
          else
            mkWorld (page w) (kpis w) (store k (failed err e) (cache w))
                    (calls w)
      | Resolved v =>
          let d := current w in
          let i := selectedIndustry d in
          let co := selectedCompany d in
          let c' := store k (succeeded v) (cache w) in
          let md := marketData d (cache w) in
          let md' := marketData d c' in
          let k' := if JsVal_eqb md md' then kpis w
                    else run_effect md' d (kpis w) in
          setOptions opts (insightsQuery i co md) (insightsQuery i co md')
                     (mkWorld (page w) k' c' (calls w))
      end
  end.

Definition step (w : World) (ev : Event) : World :=
  match ev with
  | User e => onUser e w
  | Settle k response => onSettle k response w
  | Reconnect =>
      refetchAll (refetchOnReconnect opts) (queries (current w) (cache w)) w
  | WindowFocus =>
      refetchAll (refetchOnWindowFocus opts) (queries (current w) (cache w)) w
  end.

Definition run (w : World) (evs : list Event) : World :=
  fold_left step evs w.
End Machine.

(** The page as first rendered: nothing selected, nothing cached. *)
Definition initialWorld : World := mkWorld initialPage initialKPIs [] [].

(** Number of times the fetcher of key [k] was invoked. *)
Definition invocations (k : QueryKey) (w : World) : nat :=
  List.length (filter (fun c => key_eqb (fst c) k) (calls w)).

(** The requests sent to the remote side, latest first. *)
Definition requests (w : World) : list Request :=
  flat_map (fun c => match request_of (snd c) with
                     | Some r => [r]
                     | None => []
                     end) (calls w).

(* ===================================================================== *)
(** ** What the panels render *)
(* ===================================================================== *)

(** An object or array that the conversion to a primitive accepts.  An
    object parsed from JSON inherits [valueOf], which returns the object
    itself, and [toString], which returns a string, unless it has a property
    [toString] of its own: no JSON value can be called, so the conversion
    then finds no primitive and throws.  An array is converted by joining
    its items, [null] and [undefined] as the empty string and every other
    item converted in turn. *)
Definition has_field (name : string) (fs : list (string * JsVal)) : bool :=
  existsb (fun kv => String.eqb (fst kv) name) fs.

Fixpoint coercible (v : JsVal) : bool :=
  match v with
  | JObj fs => negb (has_field "toString" fs)
  | JArr xs => forallb coercible xs
  | _ => true
  end.

(** A number to be formatted: exact, or the conversion of a value that is
    not a number divided by [d] (a number, not computed here). *)
Inductive Number : Type :=
| Num (q : Q)
| Coerced (v : JsVal) (d : Q).

(** A piece of a template literal. *)
Inductive Piece : Type :=
| Text (s : string)
| Fixed1 (n : Number).          (* n.toFixed(1) *)

(** [v.toFixed(1)]: only numbers have [toFixed]. *)
Definition toFixed1 (v : JsVal) : option Piece :=
  match v with
  | JNum q => Some (Fixed1 (Num q))
  | _ => None
  end.

(** [(v / d).toFixed(1)]: the division converts [v] to a number first,
    which throws for an object or array that has no primitive. *)
Definition div_toFixed1 (v : JsVal) (d : Q) : option Piece :=
  match v with
  | JNum q => Some (Fixed1 (Num (q / d)))
  | _ => if coercible v then Some (Fixed1 (Coerced v d)) else None
  end.

(** *** Strings read as numbers *)

Definition is_digit (c : ascii) : bool :=
  let n := nat_of_ascii c in ((48 <=? n) && (n <=? 57))%nat.

Definition is_hex_digit (c : ascii) : bool :=
  let n := nat_of_ascii c in
  (is_digit c || ((97 <=? n) && (n <=? 102)) || ((65 <=? n) && (n <=? 70)))%nat.

Definition is_octal_digit (c : ascii) : bool :=
  let n := nat_of_ascii c in ((48 <=? n) && (n <=? 55))%nat.

Definition is_binary_digit (c : ascii) : bool :=
  let n := nat_of_ascii c in ((48 <=? n) && (n <=? 49))%nat.

Definition digit_value (c : ascii) : Z := Z.of_nat (nat_of_ascii c - 48).

(** The decimal digits at the head of [l], and what follows them. *)
Fixpoint span_digits (l : list ascii) : list ascii * list ascii :=
  match l with
  | c :: r =>
      if is_digit c
      then let (ds, t) := span_digits r in (c :: ds, t)
      else ([], l)
  | [] => ([], [])
  end.

Definition decimal (ds : list ascii) : Z :=
  fold_left (fun a c => (10 * a + digit_value c)%Z) ds 0%Z.

(** [m * 10 ^ e] is read as a number above zero: the nearest double is not
    zero, that is, the value exceeds [2 ^ -1075], half the least positive
    double. *)
Definition rounds_positive (m e : Z) : bool :=
  ((0 <? m) && ((0 <=? e) || (10 ^ (- e) <? m * 2 ^ 1075)))%Z.

(** [ExponentPart], optional and up to the end of the string. *)
Definition exponent (l : list ascii) : option Z :=
  match l with
  | [] => Some 0%Z
  | c :: r =>
      if Ascii.eqb c "e" || Ascii.eqb c "E" then
        let signed :=
          match r with
          | s :: t =>
              if Ascii.eqb s "-" then (true, t)
              else if Ascii.eqb s "+" then (false, t)
              else (false, r)
          | [] => (false, r)
          end in
        let (ds, rest) := span_digits (snd signed) in
        match ds, rest with
        | _ :: _, [] =>
            Some (if fst signed then (- decimal ds)%Z else decimal ds)
        | _, _ => None
        end
      else None
  end.

(** [StrUnsignedDecimalLiteral] above zero: [Infinity], or digits with an
    optional fraction and exponent, at least one digit before or after the
    point. *)
Definition unsigned_positive (l : list ascii) : bool :=
  if String.eqb (string_of_list_ascii l) "Infinity" then true
  else
    let (int, r1) := span_digits l in
    let fraction :=
      match r1 with
      | c :: t => if Ascii.eqb c "." then span_digits t else ([], r1)
      | [] => ([], r1)
      end in
    match (int ++ fst fraction)%list with
    | [] => false
    | digits =>
        match exponent (snd fraction) with
        | Some e =>
            rounds_positive (decimal digits)
                            (e - Z.of_nat (List.length (fst fraction)))
        | None => false
        end
    end.

(** Digits in base 2, 8 or 16, at least one, not all zero. *)
Definition radix_positive (digit_ok : ascii -> bool) (l : list ascii)
  : bool :=
  match l with
  | [] => false
  | _ :: _ =>
      forallb digit_ok l && existsb (fun c => negb (Ascii.eqb c "0")) l
  end.

(** [StringToNumber(s) > 0], on the bytes of [s] without the white space
    around them.  Anything that is not a numeric literal is [NaN], which is
    not above zero; a sign is allowed before a decimal literal only. *)
Definition number_positive (l : list ascii) : bool :=
  match l with
  | [] => false
  | c :: r =>
      if Ascii.eqb c "-" then false
      else if Ascii.eqb c "+" then unsigned_positive r
      else if Ascii.eqb c "0" then
        match r with
        | x :: t =>
            if Ascii.eqb x "x" || Ascii.eqb x "X"
            then radix_positive is_hex_digit t
            else if Ascii.eqb x "o" || Ascii.eqb x "O"
            then radix_positive is_octal_digit t
            else if Ascii.eqb x "b" || Ascii.eqb x "B"
            then radix_positive is_binary_digit t
            else unsigned_positive l
        | [] => unsigned_positive l
        end
      else unsigned_positive l
  end.

Definition string_positive (s : string) : bool :=
  number_positive (strip (list_ascii_of_string s)).

(** [Number(String(v)) > 0] for an item [v] of an array that is joined into
    a string: a number reads back as itself, an array of one item as that
    item, and [true], [false], an object and a string with a comma (two
    items or more) are not numbers. *)
Fixpoint joined_positive (v : JsVal) : bool :=
  match v with
  | JNum q => (0 <? Qnum q)%Z
  | JStr s => string_positive s
  | JArr (x :: nil) => joined_positive x
  | _ => false
  end.

(** [v > 0]; throws when [v] has no primitive. *)
Definition greater_than_zero (v : JsVal) : option bool :=
  if coercible v then
    Some match v with
         | JBool b => b
         | _ => joined_positive v
         end
  else None.

(** *** What the panels return *)

(** What a panel returns: its "Select an industry or company" state, its
    loading state, or its content.  The content is recorded as the values
    the markup is built from; how the rendering library lays them out is not
    modelled. *)
Inductive View : Type :=
| Prompt (title message : string)
| Busy (title message : string)
| Cards (cards : list (string * list Piece))
| Chart (yAxisLabel : string) (forecastData : JsVal)
| Quadrants (strengths weaknesses opportunities threats : list JsVal)
| Insights (summary takeaways : JsVal)
| Recommendations (items : list JsVal).

(** [KPICards] *)
Definition renderKPICards (k : KPIs) : option View :=
  growth <- toFixed1 (growthRate k) ;
  funding <- div_toFixed1 (fundingVolume k) 1000000 ;
  size <- div_toFixed1 (marketSize k) 1000000000 ;
  Some (Cards [ ("Growth Rate", [growth; Text "%"]);
                ("Funding Volume", [Text "$"; funding; Text "M"]);
                ("Market Size", [Text "$"; size; Text "B"]) ]).

(** A value placed between tags, [<li>{item}</li>]: the rendering library
    shows strings and numbers, shows nothing for [null], [undefined] and
    booleans, goes through the items of an array, and throws on any other
    object. *)
Fixpoint renderable (v : JsVal) : bool :=
  match v with
  | JObj _ => false
  | JArr xs => forallb renderable xs
  | _ => true
  end.

(** [(v || []).map(...)] *)
Definition items_of (v : JsVal) : option (list JsVal) :=
  as_array (js_or v (JArr [])).

(** [(v || []).map(item => <li>{item}</li>)] *)
Definition children_of (v : JsVal) : option (list JsVal) :=
  items <- items_of v ;
  if forallb renderable items then Some items else None.

(** The quadrants of [SWOTMatrix], [strategy] being the data of its query. *)
Definition swotContent (strategy : JsVal) : option View :=
  let swotData := js_or (get_opt strategy "content") (JObj []) in
  strengths <- children_of (get_opt swotData "strengths") ;
  weaknesses <- children_of (get_opt swotData "weaknesses") ;
  opportunities <- children_of (get_opt swotData "opportunities") ;
  threats <- children_of (get_opt swotData "threats") ;
  Some (Quadrants strengths weaknesses opportunities threats).

(** The list of [StrategicRecommendations]. *)
Definition recommendationsContent (strategy : JsVal) : option View :=
  items <- children_of (get_opt strategy "recommendations") ;
  Some (Recommendations items).

(** What [AISummary] places after the summary:
    [insights?.key_takeaways && insights.key_takeaways.length > 0 && (...)].
    A falsy [key_takeaways] is the value itself, a length that is not above
    zero gives [false], and otherwise the items are mapped into the list,
    which only an array can do.  A string has a length above zero and no
    [map]; a number or [true] has no length; an object has the length and
    the [map] it was given as properties, neither of which can be called. *)
Definition takeaways (insights : JsVal) : option JsVal :=
  let key_takeaways := get_opt insights "key_takeaways" in
  if truthy key_takeaways then
    match key_takeaways with
    | JArr [] => Some (JBool false)
    | JArr items =>
        if forallb renderable items then Some key_takeaways else None
    | JStr _ => None
    | JObj fs =>
        above <- greater_than_zero (lookup_field "length" fs) ;
        if (above : bool) then None else Some (JBool false)
    | _ => Some (JBool false)
    end
  else Some key_takeaways.

(** The content of [AISummary], [insights] being the data of its second
    query. *)
Definition insightsContent (insights : JsVal) : option View :=
  let summary :=
    js_or (get_opt insights "summary") (JStr "No insights available") in
  list <- takeaways insights ;
  if renderable summary then Some (Insights summary list) else None.

Section Render.
Variable d : Selection.
Variable c : Cache.

Let i := selectedIndustry d.
Let co := selectedCompany d.
Let none := negb (prop_truthy i) && negb (prop_truthy co).

(** [TrendChart] *)
Definition renderTrendChart : option View :=
  let q := entry (queryKey (forecastQuery i co)) c in
  if none then
    Some (Prompt "Trend Analysis"
                 "Select an industry or company to view trends")
  else if isLoading q then Some (Busy "Trend Analysis" "Loading chart...")
  else Some (Chart (if prop_truthy co then "Stock Price ($)"
                    else "Growth Index") (data q)).

(** [SWOTMatrix] *)
Definition renderSWOTMatrix : option View :=
  let q := entry (queryKey (swotQuery i co)) c in
  if none then
    Some (Prompt "SWOT Analysis"
                 "Select an industry or company to generate SWOT analysis")
  else if isLoading q then Some (Busy "SWOT Analysis" "Generating SWOT...")
  else swotContent (data q).

(** [AISummary] *)
Definition renderAISummary : option View :=
  let q := entry (queryKey (insightsQuery i co (marketData d c))) c in
  if none then
    Some (Prompt "Key Insights"
                 "Select an industry or company to generate insights")
  else if isLoading q then
    Some (Busy "Key Insights" "Generating insights...")
  else insightsContent (data q).

(** [StrategicRecommendations] *)
Definition renderStrategicRecommendations : option View :=
  let q := entry (queryKey (growthQuery i co)) c in
  if none then
    Some (Prompt "Strategic Recommendations"
                 "Select an industry or company to view recommendations")
  else if isLoading q then
    Some (Busy "Strategic Recommendations" "Generating recommendations...")
  else recommendationsContent (data q).
End Render.

(** The five panels as the user sees them. *)
Record Screen : Type := mkScreen {
  kpiPanel : option View;
  trendPanel : option View;
  swotPanel : option View;
  insightsPanel : option View;
  recommendationsPanel : option View
}.

Definition screen (w : World) : Screen :=
  let d := current w in
  mkScreen (renderKPICards (kpis w))
           (renderTrendChart d (cache w))
           (renderSWOTMatrix d (cache w))
           (renderAISummary d (cache w))
           (renderStrategicRecommendations d (cache w)).

(* ===================================================================== *)
(** ** Vocabulary of the properties and of their invariants *)
(* ===================================================================== *)

(** The selection a handler leaves behind; it does not depend on the page
    the handler started from. *)
Definition target (e : UserEvent) : Selection :=
  match e with
  | IndustryChange v =>
      if nonempty v then mkSelection (Some v) None else noSelection
  | CompanyChange v =>
      if nonempty (trim v) then mkSelection None (Some (trim v))
      else noSelection
  | ClickIndustry | ClickCompany => noSelection
  end.

(** A selection as the handlers produce it: at most one side set, and a set
    side is not the empty string. *)
Definition exclusive (d : Selection) : Prop :=
  selectedIndustry d = None \/ selectedCompany d = None.

Definition wellformed (d : Selection) : Prop :=
  d = noSelection
  \/ (exists s, nonempty s = true /\ d = mkSelection (Some s) None)
  \/ (exists s, nonempty s = true /\ d = mkSelection None (Some s)).

(** [undefined] or [null]: what a missing field reads as. *)
Definition absent (v : JsVal) : bool :=
  match v with
  | JUndefined | JNull => true
  | _ => false
  end.

(** The value plotted for an item: [item.yhat || item.value || 0]. *)
Definition pointValue (item : JsVal) : JsVal :=
  js_or (js_or (get_opt item "yhat") (get_opt item "value")) zero.

Definition chartPoint (index : nat) (item : JsVal) : JsVal :=
  JObj [("month", num_of_nat (index + 1)); ("value", pointValue item)].

(** The five data products of the dashboard. *)
Inductive Product : Type :=
| MarketMetrics | InsightsOf | ForecastOf | StrategySwot | StrategyGrowth.

(** The queries a panel can hand to [useQuery] when the cache is [c], with
    the product and the selection they were built from. *)
Inductive panelQuery (c : Cache)
  : Product -> option string -> option string -> Query -> Prop :=
| pq_market i co : panelQuery c MarketMetrics i co (marketQuery i co)
| pq_insights i co :
    panelQuery c InsightsOf i co
      (insightsQuery i co (marketData (mkSelection i co) c))
| pq_forecast i co : panelQuery c ForecastOf i co (forecastQuery i co)
| pq_swot i co : panelQuery c StrategySwot i co (swotQuery i co)
| pq_growth i co : panelQuery c StrategyGrowth i co (growthQuery i co).

Definition isPanelQuery (c : Cache) (q : Query) : Prop :=
  exists P i co, panelQuery c P i co q.

(** The fetcher each product is given. *)
Definition fetcherOf (c : Cache) (P : Product) (i co : option string)
  : QueryFn :=
  match P with
  | MarketMetrics => ApiCall (GetMarketData i co)
  | InsightsOf =>
      ApiCall (GetInsights i co
                 (js_or (get_opt (marketData (mkSelection i co) c) "metrics")
                        (JObj [])))
  | ForecastOf => TrendFn i co
  | StrategySwot => ApiCall (GetStrategy i co "swot")
  | StrategyGrowth => ApiCall (GetStrategy i co "growth")
  end.

(** Two caches whose entries hold the same data. *)
Definition same_data (c c' : Cache) : Prop :=
  forall k, data (entry k c) = data (entry k c').

(** The elementary changes a transition is made of: a fetcher starts, a
    request resolves, is attempted again or fails, or the page and the local
    state change.  [ok] says which responses the remote side may send. *)
Inductive micro (ok : QueryKey -> Outcome -> Prop)
  : World -> World -> Prop :=
| micro_fetch w q :
    isPanelQuery (cache w) q -> enabled q = true ->
    inflight (entry (queryKey q) (cache w)) = None ->
    micro ok w
      (mkWorld (page w) (kpis w)
         (store (queryKey q)
            (started (queryFn q) (entry (queryKey q) (cache w))) (cache w))
         ((queryKey q, queryFn q) :: calls w))
| micro_resolve w k f response v :
    inflight (entry k (cache w)) = Some f -> ok k response ->
    run_queryFn f response = Resolved v ->
    micro ok w
      (mkWorld (page w) (kpis w) (store k (succeeded v) (cache w)) (calls w))
| micro_retry w k f :
    inflight (entry k (cache w)) = Some f ->
    micro ok w
      (mkWorld (page w) (kpis w)
         (store k (retried f (entry k (cache w))) (cache w))
         ((k, f) :: calls w))
| micro_fail w k f response err :
    inflight (entry k (cache w)) = Some f ->
    run_queryFn f response = Rejected err ->
    micro ok w
      (mkWorld (page w) (kpis w)
         (store k (failed err (entry k (cache w))) (cache w)) (calls w))
| micro_local w p ks :
    micro ok w (mkWorld p ks (cache w) (calls w)).

(** Any number of elementary changes. *)
Inductive micros (ok : QueryKey -> Outcome -> Prop)
  : World -> World -> Prop :=
| micros_refl w : micros ok w w
| micros_step w w1 w2 :
    micros ok w w1 -> micro ok w1 w2 -> micros ok w w2.

(** The response carried by an event is one the remote side may send. *)
Definition ok_event (ok : QueryKey -> Outcome -> Prop) (ev : Event)
  : Prop :=
  match ev with
  | Settle k response => ok k response
  | _ => True
  end.

(** [k] is the key of a panel query that was enabled. *)
Definition liveKey (k : QueryKey) : Prop :=
  exists c P i co q,
    panelQuery c P i co q /\ enabled q = true
    /\ key_eqb (queryKey q) k = true.

(** [f] is the fetcher of an enabled panel query with key [k]. *)
Definition fetcherFor (k : QueryKey) (f : QueryFn) : Prop :=
  exists c P i co q,
    panelQuery c P i co q /\ enabled q = true
    /\ key_eqb (queryKey q) k = true /\ queryFn q = f.

(** Only enabled panel queries ever get an entry, and the fetcher under way
    for a key is the fetcher of such a query. *)
Definition cacheInv (w : World) : Prop :=
  (forall k, entry k (cache w) = idleEntry \/ liveKey k)
  /\ (forall k f, inflight (entry k (cache w)) = Some f -> fetcherFor k f).

(** No restriction on the responses. *)
Definition anyResponse : QueryKey -> Outcome -> Prop := fun _ _ => True.

(** A forecast entry never holds an error. *)
Definition forecastInv (w : World) : Prop :=
  forall k i co,
    key_eqb (queryKey (forecastQuery i co)) k = true ->
    status (entry k (cache w)) <> Failure /\ error (entry k (cache w)) = None.

(** The local state of [KPICards] is the initial one whenever nothing is
    selected. *)
Definition kpisInv (w : World) : Prop :=
  current w = noSelection -> kpis w = initialKPIs.

(** The panel shows its "Select an industry or company" state. *)
Definition isPrompt (v : option View) : Prop :=
  exists title message, v = Some (Prompt title message).

Definition panels (s : Screen) : list (option View) :=
  [kpiPanel s; trendPanel s; swotPanel s; insightsPanel s;
   recommendationsPanel s].

(** The three cards of [KPICards] when its state is all zeros. *)
Definition zeroCards : View :=
  Cards [ ("Growth Rate", [Fixed1 (Num 0); Text "%"]);
          ("Funding Volume", [Text "$"; Fixed1 (Num (0 / 1000000)); Text "M"]);
          ("Market Size",
            [Text "$"; Fixed1 (Num (0 / 1000000000)); Text "B"]) ].

(** What is left before a fetcher for [k] may be started. *)
Definition slack (k : QueryKey) (w : World) : nat :=
  if isFetching (entry k (cache w)) then 0 else 1.

(** The event is the settlement of the request for [k]. *)
Definition settles (k : QueryKey) (ev : Event) : bool :=
  match ev with
  | Settle k0 _ => key_eqb k0 k
  | _ => false
  end.

Definition is_object (v : JsVal) : bool :=
  match v with
  | JObj _ => true
  | _ => false
  end.

Definition is_market_key (k : QueryKey) : bool :=
  match k with
  | JStr p :: _ => String.eqb p "market"
  | _ => false
  end.

(** The market endpoint answers a successful request with a JSON object. *)
Definition marketObject (k : QueryKey) (response : Outcome) : Prop :=
  match response with
  | Resolved v => is_market_key k = true -> is_object v = true
  | Rejected _ => True
  end.

Definition marketRespondsWithObject : Event -> Prop := ok_event marketObject.

(** No insights call for the selection [(i, co)] was made or is under
    way. *)
Definition noInsights (i co : option string) (w : World) : Prop :=
  (forall k dat, ~ In (k, ApiCall (GetInsights i co dat)) (calls w))
  /\ (forall k dat,
        inflight (entry k (cache w)) <> Some (ApiCall (GetInsights i co dat))).

(** For every market key: either nothing was delivered and the entry is not
    in the Success status, or an object was delivered and the entry is not
    pending.  And an insights call, logged or under way, has its market data
    in the cache. *)
Definition marketInv (w : World) : Prop :=
  (forall i co,
      let e := entry (queryKey (marketQuery i co)) (cache w) in
      (data e = JUndefined /\ status e <> Success)
      \/ (is_object (data e) = true /\ status e <> Pending))
  /\ (forall k i co dat,
         In (k, ApiCall (GetInsights i co dat)) (calls w) ->
         is_object (marketData (mkSelection i co) (cache w)) = true)
  /\ (forall k i co dat,
         inflight (entry k (cache w)) = Some (ApiCall (GetInsights i co dat)) ->
         is_object (marketData (mkSelection i co) (cache w)) = true).

(** The market key of the selection that was left. *)
Definition staleKey (S1 : Selection) : QueryKey :=
  queryKey (marketQuery (selectedIndustry S1) (selectedCompany S1)).

(** Two worlds that differ at most in the entry of the stale key. *)
Definition agree (S1 : Selection) (wl wr : World) : Prop :=
  page wl = page wr /\ kpis wl = kpis wr /\ calls wl = calls wr
  /\ forall k, key_eqb (staleKey S1) k = false ->
               entry k (cache wl) = entry k (cache wr).

(** An event that does not select the stale selection again. *)
Definition avoids (S1 : Selection) (ev : Event) : Prop :=
  match ev with
  | User e => target e <> S1
  | _ => True
  end.

(* ===================================================================== *)
(** ** The [api] object: what is posted *)
(* ===================================================================== *)

(** A POST of the [apiClient]: the path and the object given as its body.
    The body travels as JSON, which leaves out every property whose value is
    [undefined]. *)
Record Post : Type := mkPost {
  path : string;
  body : JsVal
}.

(** [p || undefined] as the value of a property. *)
Definition selector (p : option string) : JsVal :=
  if prop_truthy p then of_prop p else JUndefined.

Module api.
Definition getMarketData (industry company : option string) : Post :=
  mkPost "/api/market/"
         (JObj [("industry", selector industry);
                ("company", selector company);
                ("timeframe", JStr "1y")]).

Definition getInsights (industry company : option string) (data : JsVal)
  : Post :=
  mkPost "/api/insights/"
         (JObj [("industry", selector industry);
                ("company", selector company);
                ("data", js_or data (JObj []))]).

Definition getStrategy (industry company : option string)
    (analysis_type : string) : Post :=
  mkPost "/api/strategy/"
         (JObj [("industry", selector industry);
                ("company", selector company);
                ("analysis_type", JStr analysis_type)]).

Definition getForecast (metric : string) (data periods : JsVal)
    (industry company : option string) : Post :=
  mkPost "/api/forecast/"
         (JObj [("metric", JStr metric);
                ("data", js_or data (JArr []));
                ("periods", js_or periods (num_of_nat 12));
                ("industry", selector industry);
                ("company", selector company)]).
End api.

(** The POST behind each request of the panels; [TrendChart] passes
    [data: []] along with its request. *)
Definition post_of (r : Request) : Post :=
  match r with
  | GetMarketData i c => api.getMarketData i c
  | GetInsights i c dat => api.getInsights i c dat
  | GetStrategy i c t => api.getStrategy i c t
  | GetForecast m n i c => api.getForecast m (JArr []) (num_of_nat n) i c
  end.

(** The property [name] of the body; [undefined] when the body has no such
    property or when the property is left out on the way. *)
Definition sent (r : Request) (name : string) : JsVal :=
  get_opt (body (post_of r)) name.

(* ===================================================================== *)
(** ** The drop-down of [MarketSearch] *)
(* ===================================================================== *)

Definition industries : list string :=
  [ "Technology"; "Healthcare"; "Finance"; "Retail"; "Manufacturing";
    "Energy"; "Education"; "Real Estate"; "Fashion" ].

Record Company : Type := mkCompany {
  name : string;
  symbol : string
}.

Definition companies : list Company :=
  [ mkCompany "Apple" "AAPL"; mkCompany "Microsoft" "MSFT";
    mkCompany "Google" "GOOGL"; mkCompany "Amazon" "AMZN";
    mkCompany "Meta" "META"; mkCompany "Tesla" "TSLA";
    mkCompany "NVIDIA" "NVDA"; mkCompany "Netflix" "NFLX";
    mkCompany "Salesforce" "CRM"; mkCompany "Oracle" "ORCL";
    mkCompany "IBM" "IBM"; mkCompany "Intel" "INTC";
    mkCompany "Adobe" "ADBE"; mkCompany "PayPal" "PYPL";
    mkCompany "Visa" "V"; mkCompany "Mastercard" "MA";
    mkCompany "JPMorgan" "JPM"; mkCompany "Bank of America" "BAC";
    mkCompany "Walmart" "WMT"; mkCompany "Target" "TGT";
    mkCompany "Nike" "NKE"; mkCompany "Starbucks" "SBUX" ].

(** The [value] of every [<option>] of the [<select>] that is rendered: the
    placeholder, then the industries or the company names. *)
Definition optionValues (m : MarketSearch) : list string :=
  "" :: match searchType m with
        | byIndustry => industries
        | byCompany => map name companies
        end.

Definition mem (s : string) (l : list string) : bool :=
  existsb (String.eqb s) l.

(** The events the rendered [MarketSearch] can raise: both buttons, and a
    change of the one [<select>] that is shown, to one of its options. *)
Definition offers (p : Page) (e : UserEvent) : bool :=
  match e, searchType (search p) with
  | ClickIndustry, _ | ClickCompany, _ => true
  | IndustryChange v, byIndustry => mem v (optionValues (search p))
  | CompanyChange v, byCompany => mem v (optionValues (search p))
  | _, _ => false
  end.

(** A sequence of handlers, each raised by the page as it then is. *)
Fixpoint offered (p : Page) (es : list UserEvent) : bool :=
  match es with
  | [] => true
  | e :: r => offers p e && offered (handle e p) r
  end.

Definition handles (es : list UserEvent) (p : Page) : Page :=
  fold_left (fun p e => handle e p) es p.

(** The selection the drop-down stands for. *)
Definition shown (m : MarketSearch) : Selection :=
  if nonempty (searchValue m) then
    match searchType m with
    | byIndustry => mkSelection (Some (searchValue m)) None
    | byCompany => mkSelection None (Some (searchValue m))
    end
  else noSelection.

(* ===================================================================== *)
(** ** Further vocabulary: strings *)
(* ===================================================================== *)


(** Neither the first nor the last character is white space. *)
Definition clear_ends (l : list ascii) : bool :=
  match l with
  | [] => true
  | c :: _ => negb (is_space c) && negb (is_space (last l c))
  end.

Definition trimmed (s : string) : bool :=
  clear_ends (list_ascii_of_string s).

(** Exactly one of [industry] and [company] travels with the request, and
    it is not the empty string. *)
Definition oneSelector (r : Request) : Prop :=
  exists s, nonempty s = true
    /\ ((sent r "industry" = JStr s /\ sent r "company" = JUndefined)
        \/ (sent r "industry" = JUndefined /\ sent r "company" = JStr s)).

(** The other properties of the body, by end point. *)
Definition fixedFields (r : Request) : Prop :=
  match r with
  | GetMarketData _ _ =>
      path (post_of r) = "/api/market/" /\ sent r "timeframe" = JStr "1y"
  | GetInsights _ _ _ =>
      path (post_of r) = "/api/insights/" /\ truthy (sent r "data") = true
  | GetStrategy _ _ _ =>
      path (post_of r) = "/api/strategy/"
      /\ (sent r "analysis_type" = JStr "swot"
          \/ sent r "analysis_type" = JStr "growth")
  | GetForecast _ _ _ _ =>
      path (post_of r) = "/api/forecast/"
      /\ sent r "metric" = JStr "growth"
      /\ sent r "data" = JArr []
      /\ sent r "periods" = num_of_nat 12
  end.

(** The request of a fetcher, if it sends one, is of that shape. *)
Definition goodFn (f : QueryFn) : Prop :=
  forall r, request_of f = Some r -> oneSelector r /\ fixedFields r.

(** Every fetcher that was invoked or is under way satisfies [good]. *)
Definition fetchersInv (good : QueryFn -> Prop) (w : World) : Prop :=
  (forall k f, In (k, f) (calls w) -> good f)
  /\ (forall k f, inflight (entry k (cache w)) = Some f -> good f).

(** The points of the chart for the items [xs], the first one plotted at
    month [i + 1]. *)
Fixpoint chartPoints (i : nat) (xs : list JsVal) : list JsVal :=
  match xs with
  | [] => []
  | x :: r => chartPoint i x :: chartPoints (S i) r
  end.

(** The keys of the four queries that are enabled as soon as something is
    selected: market data, forecast, SWOT and growth strategy. *)
Definition panelKeys (d : Selection) : list QueryKey :=
  let i := selectedIndustry d in
  let co := selectedCompany d in
  [ queryKey (marketQuery i co); queryKey (forecastQuery i co);
    queryKey (swotQuery i co); queryKey (growthQuery i co) ].

(** A pending entry has no data. *)
Definition pendingInv (w : World) : Prop :=
  forall k, status (entry k (cache w)) = Pending ->
            data (entry k (cache w)) = JUndefined.

(** The data of a forecast entry is a chart of at most twelve points, once
    the entry is not pending any more. *)
Definition chartInv (w : World) : Prop :=
  forall k i co,
    key_eqb (queryKey (forecastQuery i co)) k = true ->
    status (entry k (cache w)) <> Pending ->
    exists items,
      data (entry k (cache w)) = JArr (chartPoints 0 items)
      /\ List.length items <= 12.

Definition is_number (v : JsVal) : bool :=
  match v with
  | JNum _ => true
  | _ => false
  end.

(** [(v || []).map(item => <li>{item}</li>)] renders: [v] is falsy, or an
    array whose items can be placed between tags. *)
Definition listable (v : JsVal) : bool :=
  negb (truthy v)
  || match v with
     | JArr xs => forallb renderable xs
     | _ => false
     end.

(** The items [(v || []).map(...)] goes through when it does not throw. *)
Definition elements (v : JsVal) : list JsVal :=
  match v with
  | JArr xs => xs
  | _ => []
  end.

Definition quadrantNames : list string :=
  ["strengths"; "weaknesses"; "opportunities"; "threats"].

(** The shape of a response that the panel of product [P] renders without
    throwing: a [growth_rate] that is a number or falsy, a [funding_volume]
    and a [market_size] that have a primitive; quadrants and
    recommendations that are falsy or arrays of items that can be placed
    between tags; a [summary] that can be placed between tags and
    [key_takeaways] that are falsy or such an array. *)
Definition shapeOf (P : Product) (v : JsVal) : bool :=
  match P with
  | MarketMetrics =>
      let metrics := get_opt v "metrics" in
      let g := get_opt metrics "growth_rate" in
      (negb (truthy g) || is_number g)
      && coercible (get_opt metrics "funding_volume")
      && coercible (get_opt metrics "market_size")
  | StrategySwot =>
      let content := js_or (get_opt v "content") (JObj []) in
      forallb (fun n => listable (get_opt content n)) quadrantNames
  | StrategyGrowth => listable (get_opt v "recommendations")
  | InsightsOf =>
      renderable (get_opt v "summary")
      && listable (get_opt v "key_takeaways")
  | ForecastOf => true
  end.

(** A successful response for the key of a panel query has the shape of
    its product. *)
Definition shapedResponse (k : QueryKey) (response : Outcome) : Prop :=
  forall c P i co q v,
    panelQuery c P i co q -> key_eqb (queryKey q) k = true ->
    response = Resolved v -> shapeOf P v = true.

Definition shapeInv (w : World) : Prop :=
  forall c P i co q,
    panelQuery c P i co q ->
    P <> ForecastOf ->
    shapeOf P (data (entry (queryKey q) (cache w))) = true.

(** The state of [KPICards] can be formatted. *)
Definition cardsInv (w : World) : Prop :=
  is_number (growthRate (kpis w)) = true
  /\ coercible (fundingVolume (kpis w)) = true
  /\ coercible (marketSize (kpis w)) = true.

(** Every fetcher invocation in the log is that of an enabled panel query,
    under the key of that query. *)
Definition callsInv (w : World) : Prop :=
  forall k f, In (k, f) (calls w) -> fetcherFor k f.

(** The handlers among the events, in order. *)
Definition users (evs : list Event) : list UserEvent :=
  flat_map (fun ev => match ev with
                      | User e => [e]
                      | _ => []
                      end) evs.

(** No hyphen, the separator of the React keys. *)
Definition dashless (s : string) : bool :=
  forallb (fun c => negb (Ascii.eqb c "-"%char)) (list_ascii_of_string s).

(** A prop that cannot be mistaken for another inside a React key: it has
    no hyphen and does not print as a missing prop does. *)
Definition plain_prop (p : option string) : bool :=
  match p with
  | Some s => dashless s && negb (String.eqb s "null")
  | None => true
  end.

Definition plain (d : Selection) : bool :=
  plain_prop (selectedIndustry d) && plain_prop (selectedCompany d).

(* ===================================================================== *)
(** ** Basic facts: equality of values, keys, the cache *)
(* ===================================================================== *)

Lemma option_string_eqb_eq (a b : option string) :
  option_string_eqb a b = true <-> a = b.
Proof.
  destruct a as [s|], b as [t|]; simpl; try (split; congruence).
  rewrite String.eqb_eq. split; congruence.
Qed.

Lemma Selection_eqb_eq (a b : Selection) : Selection_eqb a b = true <-> a = b.
Proof.
  destruct a as [i c], b as [i' c']; unfold Selection_eqb; simpl.
  rewrite andb_true_iff, !option_string_eqb_eq. split.
  - intros [-> ->]; reflexivity.
  - intros H; inversion H; auto.
Qed.

Lemma Selection_eqb_refl (a : Selection) : Selection_eqb a a = true.
Proof. apply Selection_eqb_eq; reflexivity. Qed.

Lemma Selection_eqb_neq (a b : Selection) :
  Selection_eqb a b = false <-> a <> b.
Proof.
  rewrite <- Selection_eqb_eq. destruct (Selection_eqb a b); split; congruence.
Qed.

Lemma JsVal_eqb_eq (a b : JsVal) : JsVal_eqb a b = true <-> a = b.
Proof.
  revert b. induction a using JsVal_nested_ind; intros v; destruct v; simpl;
    try (split; congruence).
  - rewrite Bool.eqb_true_iff. split; congruence.
  - destruct q as [n d], q0 as [n' d']; simpl.
    rewrite andb_true_iff, Z.eqb_eq, Pos.eqb_eq. split.
    + intros [-> ->]; reflexivity.
    + intros E; inversion E; auto.
  - rewrite String.eqb_eq. split; congruence.
  - revert items. induction H as [|x l Hx Hl IH]; intros [|y m];
      try (split; congruence).
    rewrite andb_true_iff, Hx, IH. split.
    + intros [-> E]; inversion E; reflexivity.
    + intros E; inversion E; auto.
  - revert fields. induction H as [|[k x] l Hx Hl IH]; intros [|[k' y] m];
      try (split; congruence).
    simpl in *. rewrite !andb_true_iff, String.eqb_eq, Hx, IH. split.
    + intros [[-> ->] E]; inversion E; reflexivity.
    + intros E; inversion E; auto.
Qed.

Lemma JsVal_eqb_refl (a : JsVal) : JsVal_eqb a a = true.
Proof. apply JsVal_eqb_eq; reflexivity. Qed.

Lemma JsVal_eqb_neq (a b : JsVal) : JsVal_eqb a b = false <-> a <> b.
Proof.
  rewrite <- JsVal_eqb_eq. destruct (JsVal_eqb a b); split; congruence.
Qed.

Lemma JsVal_eqb_sym (a b : JsVal) : JsVal_eqb a b = JsVal_eqb b a.
Proof.
  destruct (JsVal_eqb a b) eqn:E.
  - apply JsVal_eqb_eq in E. subst. symmetry. apply JsVal_eqb_refl.
  - symmetry. apply JsVal_eqb_neq. apply JsVal_eqb_neq in E. congruence.
Qed.

Lemma key_eqb_eq (k1 k2 : QueryKey) : key_eqb k1 k2 = true <-> key_eq k1 k2.
Proof. apply JsVal_eqb_eq. Qed.

Lemma key_eqb_refl (k : QueryKey) : key_eqb k k = true.
Proof. apply JsVal_eqb_refl. Qed.

Lemma key_eqb_sym (k1 k2 : QueryKey) : key_eqb k1 k2 = key_eqb k2 k1.
Proof. apply JsVal_eqb_sym. Qed.

Lemma key_eqb_trans (k1 k2 k3 : QueryKey) :
  key_eqb k1 k2 = true -> key_eqb k2 k3 = true -> key_eqb k1 k3 = true.
Proof. rewrite !key_eqb_eq. unfold key_eq. congruence. Qed.

(** Keys with the same hash address the same entry. *)
Lemma entry_key_eq (k1 k2 : QueryKey) (c : Cache) :
  key_eqb k1 k2 = true -> entry k1 c = entry k2 c.
Proof.
  intros E. apply key_eqb_eq in E. unfold entry. rewrite E. reflexivity.
Qed.

Lemma entry_store (k k' : QueryKey) (e : QueryEntry) (c : Cache) :
  entry k (store k' e c) = if key_eqb k' k then e else entry k c.
Proof.
  unfold entry, store, key_eqb. cbn [find_entry].
  destruct (JsVal_eqb (hashKey k') (hashKey k)); reflexivity.
Qed.

Lemma entry_store_same (k : QueryKey) (e : QueryEntry) (c : Cache) :
  entry k (store k e c) = e.
Proof. rewrite entry_store, key_eqb_refl. reflexivity. Qed.

Lemma entry_store_other (k k' : QueryKey) (e : QueryEntry) (c : Cache) :
  key_eqb k' k = false -> entry k (store k' e c) = entry k c.
Proof. intros E. rewrite entry_store, E. reflexivity. Qed.

(* ===================================================================== *)
(** ** The selection after a handler *)
(* ===================================================================== *)

Lemma selection_handleIndustryChange (v : string) (p : Page) :
  selection (handleIndustryChange v p)
  = if nonempty v then mkSelection (Some v) None else noSelection.
Proof.
  unfold handleIndustryChange, seq.
  destruct (searchType (search p)); destruct (nonempty v); reflexivity.
Qed.

Lemma selection_handleCompanyChange (v : string) (p : Page) :
  selection (handleCompanyChange v p)
  = if nonempty (trim v) then mkSelection None (Some (trim v))
    else noSelection.
Proof.
  unfold handleCompanyChange, seq. destruct (nonempty (trim v)); reflexivity.
Qed.

Lemma selection_handle (e : UserEvent) (p : Page) :
  selection (handle e p) = target e.
Proof.
  destruct e; simpl.
  - apply selection_handleIndustryChange.
  - apply selection_handleCompanyChange.
  - reflexivity.
  - reflexivity.
Qed.

Lemma wellformed_exclusive (d : Selection) : wellformed d -> exclusive d.
Proof.
  intros [-> | [(s & _ & ->) | (s & _ & ->)]]; unfold exclusive; simpl; auto.
Qed.

Lemma wellformed_target (e : UserEvent) : wellformed (target e).
Proof.
  destruct e as [v | v | |]; simpl.
  - destruct (nonempty v) eqn:E; [right; left; eauto | left; reflexivity].
  - destruct (nonempty (trim v)) eqn:E;
      [right; right; eauto | left; reflexivity].
  - left; reflexivity.
  - left; reflexivity.
Qed.

(* ===================================================================== *)
(** ** Fetching leaves the page and the local state alone *)
(* ===================================================================== *)

Section Frames.
Variable opts : QueryOptions.

Lemma fetch_page q w : page (fetch q w) = page w.
Proof. unfold fetch. destruct (isFetching _); reflexivity. Qed.

Lemma fetch_kpis q w : kpis (fetch q w) = kpis w.
Proof. unfold fetch. destruct (isFetching _); reflexivity. Qed.

Lemma fetch_if_page b q w : page (fetch_if b q w) = page w.
Proof. destruct b; simpl; auto using fetch_page. Qed.

Lemma fetch_if_kpis b q w : kpis (fetch_if b q w) = kpis w.
Proof. destruct b; simpl; auto using fetch_kpis. Qed.

Lemma mountAll_page qs w : page (mountAll opts qs w) = page w.
Proof.
  unfold mountAll. revert w. induction qs as [|q r IH]; intros w; simpl.
  - reflexivity.
  - rewrite IH. apply fetch_if_page.
Qed.

Lemma mountAll_kpis qs w : kpis (mountAll opts qs w) = kpis w.
Proof.
  unfold mountAll. revert w. induction qs as [|q r IH]; intros w; simpl.
  - reflexivity.
  - rewrite IH. apply fetch_if_kpis.
Qed.

Lemma updateAll_page ps qs w : page (updateAll opts ps qs w) = page w.
Proof.
  unfold updateAll. generalize (combine ps qs) as l. intros l. revert w.
  induction l as [|q r IH]; intros w; simpl.
  - reflexivity.
  - rewrite IH. apply fetch_if_page.
Qed.

Lemma updateAll_kpis ps qs w : kpis (updateAll opts ps qs w) = kpis w.
Proof.
  unfold updateAll. generalize (combine ps qs) as l. intros l. revert w.
  induction l as [|q r IH]; intros w; simpl.
  - reflexivity.
  - rewrite IH. apply fetch_if_kpis.
Qed.

Lemma refetchAll_page b qs w : page (refetchAll opts b qs w) = page w.
Proof.
  unfold refetchAll. revert w. induction qs as [|q r IH]; intros w; simpl.
  - reflexivity.
  - rewrite IH. apply fetch_if_page.
Qed.

Lemma refetchAll_kpis b qs w : kpis (refetchAll opts b qs w) = kpis w.
Proof.
  unfold refetchAll. revert w. induction qs as [|q r IH]; intros w; simpl.
  - reflexivity.
  - rewrite IH. apply fetch_if_kpis.
Qed.

Lemma onSettle_page k o w : page (onSettle opts k o w) = page w.
Proof.
  unfold onSettle. destruct (inflight _); [|reflexivity].
  destruct (run_queryFn _ _).
  - unfold setOptions. rewrite fetch_if_page. reflexivity.
  - destruct (_ && _); reflexivity.
Qed.

Lemma onUser_page e w : page (onUser opts e w) = handle e (page w).
Proof.
  unfold onUser. destruct (negb (notifies e (page w))); [reflexivity|].
  destruct (negb (String.eqb _ _)).
  - apply mountAll_page.
  - apply updateAll_page.
Qed.

Lemma step_current w ev :
  current (step opts w ev)
  = match ev with
    | User e => target e
    | _ => current w
    end.
Proof.
  unfold current. destruct ev; cbn [step].
  - rewrite onUser_page. apply selection_handle.
  - rewrite onSettle_page. reflexivity.
  - rewrite refetchAll_page. reflexivity.
  - rewrite refetchAll_page. reflexivity.
Qed.

Lemma run_app w evs evs' :
  run opts w (evs ++ evs') = run opts (run opts w evs) evs'.
Proof. unfold run. apply fold_left_app. Qed.

Lemma run_snoc w evs ev :
  run opts w (evs ++ [ev]) = step opts (run opts w evs) ev.
Proof. rewrite run_app. reflexivity. Qed.

(** Induction over the states the dashboard goes through. *)
Lemma run_invariant (P : World -> Prop) (w : World) :
  P w -> (forall w' ev, P w' -> P (step opts w' ev)) ->
  forall evs, P (run opts w evs).
Proof.
  intros H0 Hstep evs. revert w H0.
  induction evs as [|ev r IH]; intros w H0; simpl; auto.
Qed.

Lemma wellformed_current evs :
  wellformed (current (run opts initialWorld evs)).
Proof.
  apply run_invariant.
  - left; reflexivity.
  - intros w ev Hw. rewrite step_current. destruct ev; auto.
    apply wellformed_target.
Qed.
End Frames.

(* ===================================================================== *)
(** ** Selection state: mutual exclusion *)
(* ===================================================================== *)

(** C4.  Selecting an industry sets the industry and clears the company,
    selecting a company sets the (trimmed) company and clears the industry,
    an empty value and the two mode buttons clear both, and in every state
    the dashboard reaches at most one of the two is set. *)
Theorem selection_mutual_exclusion :
  (forall v p, selection (handleIndustryChange v p)
               = if nonempty v then mkSelection (Some v) None
                 else mkSelection None None)
  /\ (forall v p, selection (handleCompanyChange v p)
                  = if nonempty (trim v) then mkSelection None (Some (trim v))
                    else mkSelection None None)
  /\ (forall p, selection (clickIndustry p) = mkSelection None None
                /\ selection (clickCompany p) = mkSelection None None)
  /\ (forall opts evs,
        let d := current (run opts initialWorld evs) in
        selectedIndustry d = None \/ selectedCompany d = None).
Proof.
  split; [|split; [|split]].
  - apply selection_handleIndustryChange.
  - apply selection_handleCompanyChange.
  - intros p; split; reflexivity.
  - intros opts evs d. apply wellformed_exclusive, wellformed_current.
Qed.


Lemma notifies_changed (e : UserEvent) (p : Page) :
  selection p <> target e -> notifies e p = true.
Proof.
  intros H. unfold notifies. rewrite selection_handle.
  apply Selection_eqb_neq in H. rewrite H. reflexivity.
Qed.

(* ===================================================================== *)
(** ** Reading properties without throwing *)
(* ===================================================================== *)

Lemma absent_not_truthy (v : JsVal) : absent v = true -> truthy v = false.
Proof. destruct v; simpl; congruence. Qed.

Lemma get_present (v : JsVal) (name : string) :
  absent v = false -> get v name = Some (get_opt v name).
Proof. destruct v; simpl; intros H; try discriminate; reflexivity. Qed.

Lemma truthy_present (v : JsVal) : truthy v = true -> absent v = false.
Proof. destruct v; simpl; congruence. Qed.

Lemma get_opt_truthy_present (v : JsVal) (name : string) :
  truthy (get_opt v name) = true -> absent v = false.
Proof. destruct v; simpl; congruence. Qed.

Lemma js_or_absent (v w : JsVal) : absent v = true -> js_or v w = w.
Proof. intros H. unfold js_or. rewrite (absent_not_truthy _ H). reflexivity. Qed.

(** Dividing first converts to a number: this formatting throws only for
    an object or array that has no primitive. *)
Lemma div_toFixed1_throws (v : JsVal) (d : Q) :
  div_toFixed1 v d = None <-> coercible v = false.
Proof.
  destruct v; cbn [div_toFixed1];
    try (split; intros H; discriminate H);
    destruct (coercible _); split; intros H;
    try discriminate H; reflexivity.
Qed.

(** The effect of [KPICards] never throws. *)
Lemma kpiEffect_total (md : JsVal) (d : Selection) (k : KPIs) :
  exists k', kpiEffect md d k = Some k'.
Proof.
  unfold kpiEffect. destruct (truthy (get_opt md "metrics")) eqn:E.
  - rewrite (get_present md) by (eapply get_opt_truthy_present; eauto).
    cbn [bind].
    rewrite !(get_present (get_opt md "metrics"))
      by (apply truthy_present; auto).
    cbn [bind]. eauto.
  - destruct (_ && _); eauto.
Qed.

Lemma kpiEffect_metrics (md : JsVal) (d : Selection) (k : KPIs) :
  truthy (get_opt md "metrics") = true ->
  kpiEffect md d k
  = let metrics := get_opt md "metrics" in
    Some (mkKPIs (js_or (get_opt metrics "growth_rate") zero)
                 (js_or (get_opt metrics "funding_volume") zero)
                 (js_or (get_opt metrics "market_size") zero)).
Proof.
  intros E. unfold kpiEffect. rewrite E.
  rewrite (get_present md) by (eapply get_opt_truthy_present; eauto).
  cbn [bind].
  rewrite !(get_present (get_opt md "metrics"))
    by (apply truthy_present; auto).
  reflexivity.
Qed.

Lemma none_hasSelection (d : Selection) :
  negb (prop_truthy (selectedIndustry d))
  && negb (prop_truthy (selectedCompany d))
  = negb (hasSelection d).
Proof. unfold hasSelection. rewrite negb_orb. reflexivity. Qed.

(* ===================================================================== *)
(** ** KPI values default to zero *)
(* ===================================================================== *)

(** C7, as stated, fails.  A market result without a [metrics] object has
    none of the three fields, and the effect of [KPICards] then stores
    nothing: after "Technology" was shown with a growth rate of 5, a refetch
    that answers without metrics leaves the card at 5, not at 0. *)
Lemma missing_metrics_keep_the_card :
  let K := [JStr "market"; JStr "Technology"; JNull] in
  let first := JObj [("metrics", JObj [("growth_rate", JNum 5)])] in
  let second := JObj [("industry", JStr "Technology")] in
  let w := run Providers initialWorld
             [User (IndustryChange "Technology"); Settle K (Resolved first);
              Reconnect; Settle K (Resolved second)] in
  absent (get_opt (get_opt second "metrics") "growth_rate") = true
  /\ absent (get_opt (get_opt second "metrics") "funding_volume") = true
  /\ absent (get_opt (get_opt second "metrics") "market_size") = true
  /\ marketData (current w) (cache w) = second
  /\ status (entry K (cache w)) = Success
  /\ growthRate (kpis w) = JNum 5
  /\ kpiPanel (screen w)
     = Some (Cards [ ("Growth Rate", [Fixed1 (Num 5); Text "%"]);
                     ("Funding Volume",
                       [Text "$"; Fixed1 (Num (0 / 1000000)); Text "M"]);
                     ("Market Size",
                       [Text "$"; Fixed1 (Num (0 / 1000000000)); Text "B"]) ]).
Proof. repeat split; reflexivity. Qed.

(** C7, amended.  The effect of [KPICards] never throws.  When the market
    data carries a truthy [metrics], a metric that is missing ([undefined]
    or [null]) is stored as the number 0 and the formatting of that card is
    defined (formatting the missing value itself would throw); when all
    three are missing the three cards render from zeros.  When the market
    data carries no [metrics], nothing is stored: with something selected
    the state is kept as it was, with nothing selected it is reset to
    zeros. *)
Theorem kpi_zero_defaults (marketData : JsVal) (d : Selection) (k : KPIs) :
  let metrics := get_opt marketData "metrics" in
  exists k',
    kpiEffect marketData d k = Some k'
    /\ (truthy metrics = true ->
        (absent (get_opt metrics "growth_rate") = true ->
         growthRate k' = JNum 0
         /\ toFixed1 (growthRate k') = Some (Fixed1 (Num 0)))
        /\ (absent (get_opt metrics "funding_volume") = true ->
            fundingVolume k' = JNum 0
            /\ div_toFixed1 (fundingVolume k') 1000000
               = Some (Fixed1 (Num (0 / 1000000))))
        /\ (absent (get_opt metrics "market_size") = true ->
            marketSize k' = JNum 0
            /\ div_toFixed1 (marketSize k') 1000000000
               = Some (Fixed1 (Num (0 / 1000000000))))
        /\ (absent (get_opt metrics "growth_rate") = true ->
            absent (get_opt metrics "funding_volume") = true ->
            absent (get_opt metrics "market_size") = true ->
            renderKPICards k' = Some zeroCards))
    /\ (truthy metrics = false -> hasSelection d = true -> k' = k)
    /\ (truthy metrics = false -> hasSelection d = false ->
        k' = initialKPIs /\ renderKPICards k' = Some zeroCards)
    /\ toFixed1 JUndefined = None /\ toFixed1 JNull = None.
Proof.
  intros metrics. destruct (truthy metrics) eqn:E.
  - eexists. split; [apply kpiEffect_metrics, E|].
    fold metrics. cbn [growthRate fundingVolume marketSize].
    split; [intros _|split; [discriminate|split; [discriminate|]]].
    + split; [|split; [|split]].
      * intros H. rewrite (js_or_absent _ _ H). split; reflexivity.
      * intros H. rewrite (js_or_absent _ _ H). split; reflexivity.
      * intros H. rewrite (js_or_absent _ _ H). split; reflexivity.
      * intros H1 H2 H3. unfold renderKPICards.
        cbn [growthRate fundingVolume marketSize].
        rewrite (js_or_absent _ _ H1), (js_or_absent _ _ H2),
          (js_or_absent _ _ H3).
        reflexivity.
    + split; reflexivity.
  - unfold kpiEffect. fold metrics. rewrite E.
    rewrite none_hasSelection. destruct (hasSelection d); cbn [negb].
    + exists k. split; [reflexivity|].
      split; [discriminate|]. split; [reflexivity|].
      split; [discriminate|]. split; reflexivity.
    + exists initialKPIs. split; [reflexivity|].
      split; [discriminate|]. split; [discriminate|].
      split; [intros _ _; split; reflexivity|]. split; reflexivity.
Qed.

(* ===================================================================== *)
(** ** The forecast fetcher *)
(* ===================================================================== *)

Lemma forecastPoint_spec (item : JsVal) (index : nat) (p : JsVal) :
  forecastPoint item index = Some p -> p = chartPoint index item.
Proof.
  unfold forecastPoint, chartPoint, pointValue. intros H.
  destruct (get item "yhat") as [yhat|] eqn:E; [|discriminate].
  cbn [bind] in H. injection H as <-.
  assert (Hy : get_opt item "yhat" = yhat)
    by (unfold get_opt; rewrite E; reflexivity).
  rewrite Hy. unfold js_or, zero.
  destruct (truthy yhat) eqn:T.
  - rewrite T. reflexivity.
  - reflexivity.
Qed.

Lemma mapi_from_spec {A : Type} (f : JsVal -> nat -> option A)
    (xs : list JsVal) :
  forall (i : nat) (ys : list A),
    mapi_from f i xs = Some ys ->
    List.length ys = List.length xs
    /\ forall n y, nth_error ys n = Some y ->
         exists x, nth_error xs n = Some x /\ f x (i + n) = Some y.
Proof.
  induction xs as [|x r IH]; intros i ys H; simpl in H.
  - injection H as <-. split; [reflexivity|].
    intros [|n] y Hn; discriminate.
  - destruct (f x i) as [y0|] eqn:E0; [|discriminate]. cbn [bind] in H.
    destruct (mapi_from f (S i) r) as [ys0|] eqn:E1; [|discriminate].
    cbn [bind] in H. injection H as <-.
    destruct (IH _ _ E1) as [Hlen Hnth]. split; [simpl; congruence|].
    intros [|n] y Hn; simpl in Hn.
    + injection Hn as <-. exists x. rewrite Nat.add_0_r. auto.
    + destruct (Hnth n y Hn) as (x' & Hx & Hf). exists x'. split; [exact Hx|].
      rewrite <- Hf. f_equal. lia.
Qed.

Lemma nth_error_firstn {A : Type} (n m : nat) (l : list A) (x : A) :
  nth_error (firstn n l) m = Some x -> nth_error l m = Some x /\ m < n.
Proof.
  revert m l. induction n as [|n IH]; intros m l H.
  - destruct m; discriminate.
  - destruct l as [|a l]; [destruct m; discriminate|].
    destruct m as [|m]; simpl in *.
    + split; [assumption|lia].
    + destruct (IH _ _ H). split; [assumption|lia].
Qed.

(** What the [try] block of [TrendChart] evaluates to when it does not
    throw: an array of at most twelve chart points, taken in order from
    the [forecast] array of the response. *)
Lemma transformForecast_spec (forecast v : JsVal) :
  transformForecast forecast = Some v ->
  exists points,
    v = JArr points
    /\ List.length points <= 12
    /\ forall n p, nth_error points n = Some p ->
         exists xs item,
           get forecast "forecast" = Some (JArr xs)
           /\ nth_error xs n = Some item
           /\ p = chartPoint n item.
Proof.
  unfold transformForecast. intros H.
  destruct (get forecast "forecast") as [series|] eqn:E; [|discriminate].
  cbn [bind] in H.
  destruct series; try discriminate;
    try (injection H as <-; exists []; split; [reflexivity|];
         split; [simpl; lia|]; intros [|n] p Hn; discriminate).
  destruct (mapi_from forecastPoint 0 (firstn 12 items)) as [points|] eqn:M;
    [|discriminate].
  cbn [bind] in H. injection H as <-.
  destruct (mapi_from_spec _ _ _ _ M) as [Hlen Hnth].
  exists points. split; [reflexivity|]. split.
  - rewrite Hlen, length_firstn. lia.
  - intros n p Hn. destruct (Hnth n p Hn) as (item & Hi & Hp).
    apply nth_error_firstn in Hi. destruct Hi as [Hi _].
    exists items, item. repeat split; auto.
    apply forecastPoint_spec in Hp. exact Hp.
Qed.

Ltac no_points :=
  exists (@nil JsVal); split; [reflexivity|]; split; [reflexivity|];
  split; [simpl; lia|]; intros [|?] ? ?; discriminate.

(** The fetcher of [TrendChart] resolves whatever the request does. *)
Lemma trendQueryFn_resolves (i c : option string) (response : Outcome) :
  exists points,
    trendQueryFn i c response = Resolved (JArr points)
    /\ (forall err, response = Rejected err -> points = [])
    /\ List.length points <= 12
    /\ forall n p, nth_error points n = Some p ->
         exists forecast xs item,
           response = Resolved forecast
           /\ get forecast "forecast" = Some (JArr xs)
           /\ nth_error xs n = Some item
           /\ p = chartPoint n item.
Proof.
  unfold trendQueryFn. destruct (_ && _); [no_points|].
  destruct response as [forecast|err].
  - destruct (transformForecast forecast) as [v|] eqn:T; [|no_points].
    destruct (transformForecast_spec _ _ T) as (points & -> & Hlen & Hnth).
    exists points. split; [reflexivity|]. split; [discriminate|].
    split; [exact Hlen|]. intros n p Hn.
    destruct (Hnth n p Hn) as (xs & item & H1 & H2 & H3).
    exists forecast, xs, item. auto.
  - no_points.
Qed.

Lemma run_queryFn_trend_resolves (i c : option string) (response : Outcome)
    (err : ErrorInfo) :
  run_queryFn (TrendFn i c) response <> Rejected err.
Proof.
  simpl. destruct (trendQueryFn_resolves i c response) as (ps & -> & _).
  discriminate.
Qed.

(* ===================================================================== *)
(** ** The keys of the panels *)
(* ===================================================================== *)

Lemma queries_panel (d : Selection) (c : Cache) :
  Forall (isPanelQuery c) (queries d c).
Proof.
  destruct d as [i co]. unfold queries, isPanelQuery. cbn [selectedIndustry selectedCompany].
  repeat constructor; do 3 eexists; constructor.
Qed.

Lemma canon_of_prop (p : option string) : canon (of_prop p) = of_prop p.
Proof. destruct p; reflexivity. Qed.

Lemma of_prop_eqb (p p' : option string) :
  JsVal_eqb (of_prop p) (of_prop p') = true -> p = p'.
Proof.
  intros H. apply JsVal_eqb_eq in H. destruct p, p'; simpl in H; congruence.
Qed.

Ltac key_compute :=
  unfold key_eqb, hashKey; cbn [queryKey marketQuery insightsQuery
    forecastQuery swotQuery growthQuery canon map];
  rewrite ?canon_of_prop; cbn [JsVal_eqb String.eqb Ascii.eqb Bool.eqb andb].

(** Two panel queries whose keys hash alike are for the same product and
    were built from the same selection. *)
Lemma panel_key_eq c c' P P' i i' co co' q q' :
  panelQuery c P i co q -> panelQuery c' P' i' co' q' ->
  key_eqb (queryKey q) (queryKey q') = true ->
  P = P' /\ i = i' /\ co = co'.
Proof.
  intros [] [] H; revert H; key_compute; intros H; try discriminate;
    repeat (apply andb_true_iff in H; destruct H as [? H]);
    repeat match goal with
           | E : JsVal_eqb (of_prop _) (of_prop _) = true |- _ =>
               apply of_prop_eqb in E
           | E : (JsVal_eqb (of_prop _) (of_prop _) && _)%bool = true |- _ =>
               apply andb_true_iff in E; destruct E
           end; subst; auto.
Qed.

Lemma panel_enabled c P i co q :
  panelQuery c P i co q -> enabled q = true ->
  hasSelection (mkSelection i co) = true.
Proof.
  intros [] H; cbn [enabled marketQuery insightsQuery forecastQuery swotQuery
                      growthQuery] in H; unfold sel in H; auto.
  apply andb_true_iff in H. tauto.
Qed.

Lemma panel_queryFn c P i co q :
  panelQuery c P i co q -> queryFn q = fetcherOf c P i co.
Proof. intros []; reflexivity. Qed.

Lemma same_data_refl c : same_data c c.
Proof. intros k; reflexivity. Qed.

Lemma same_data_trans c1 c2 c3 :
  same_data c1 c2 -> same_data c2 c3 -> same_data c1 c3.
Proof. intros H1 H2 k. rewrite H1. apply H2. Qed.

Lemma started_data f e : data (started f e) = data e.
Proof. unfold started. destruct (is_undefined (data e)); reflexivity. Qed.

Lemma same_data_store k e c :
  data e = data (entry k c) -> same_data c (store k e c).
Proof.
  intros H k'. rewrite entry_store. destruct (key_eqb k k') eqn:E; auto.
  rewrite H. f_equal. apply entry_key_eq. rewrite key_eqb_sym. exact E.
Qed.

Lemma fetch_same_data q w : same_data (cache w) (cache (fetch q w)).
Proof.
  unfold fetch. destruct (isFetching _); [apply same_data_refl|].
  cbn [cache]. apply same_data_store. apply started_data.
Qed.

Lemma fetch_if_same_data b q w : same_data (cache w) (cache (fetch_if b q w)).
Proof. destruct b; [apply fetch_same_data | apply same_data_refl]. Qed.

Lemma marketData_same_data d c c' :
  same_data c c' -> marketData d c = marketData d c'.
Proof. intros H. unfold marketData. apply H. Qed.

Lemma panelQuery_same_data c c' P i co q :
  same_data c c' -> panelQuery c P i co q -> panelQuery c' P i co q.
Proof.
  intros H []; try constructor.
  rewrite (marketData_same_data _ _ _ H). constructor.
Qed.

Lemma isPanelQuery_same_data c c' q :
  same_data c c' -> isPanelQuery c q -> isPanelQuery c' q.
Proof.
  intros H (P & i & co & Hq). exists P, i, co.
  eapply panelQuery_same_data; eauto.
Qed.

(* ===================================================================== *)
(** ** How the cache evolves *)
(* ===================================================================== *)

(** Every transition is a sequence of elementary changes. *)
Section Evolution.
Variable ok : QueryKey -> Outcome -> Prop.

Lemma micros_one w w' : micro ok w w' -> micros ok w w'.
Proof. intros H. eapply micros_step; [apply micros_refl | exact H]. Qed.

Lemma micros_trans x y z : micros ok x y -> micros ok y z -> micros ok x z.
Proof.
  intros H1 H2. induction H2 as [|wa wb wc H IH Hm]; [exact H1|].
  eapply micros_step; [apply IH, H1 | exact Hm].
Qed.

Variable opts : QueryOptions.

Lemma isFetching_false e : isFetching e = false -> inflight e = None.
Proof. unfold isFetching. destruct (inflight e); congruence. Qed.

Lemma fetch_micros q w :
  isPanelQuery (cache w) q -> enabled q = true -> micros ok w (fetch q w).
Proof.
  intros Hq He. unfold fetch.
  destruct (isFetching _) eqn:E; [apply micros_refl|].
  apply micros_one, micro_fetch; auto using isFetching_false.
Qed.

Lemma shouldFetchOnMount_enabled q e :
  shouldFetchOnMount opts q e = true -> enabled q = true.
Proof. unfold shouldFetchOnMount. intros H. apply andb_true_iff in H. tauto. Qed.

Lemma shouldFetchOn_enabled b q e :
  shouldFetchOn opts b q e = true -> enabled q = true.
Proof.
  unfold shouldFetchOn. intros H.
  apply andb_true_iff in H. destruct H as [H _].
  apply andb_true_iff in H. tauto.
Qed.

Lemma shouldFetchOptionally_enabled p q e :
  shouldFetchOptionally opts p q e = true -> enabled q = true.
Proof.
  unfold shouldFetchOptionally. intros H.
  apply andb_true_iff in H. destruct H as [H _].
  apply andb_true_iff in H. tauto.
Qed.

Lemma fetch_if_micros b q w :
  isPanelQuery (cache w) q -> (b = true -> enabled q = true) ->
  micros ok w (fetch_if b q w).
Proof.
  intros Hq Hb. destruct b; simpl; [|apply micros_refl].
  apply fetch_micros; auto.
Qed.

(** A run of guarded fetches over a list. *)
Lemma fold_fetch_micros {X : Type} (g : World -> X -> bool) (h : X -> Query)
    (c0 : Cache) (xs : list X) :
  (forall w x, g w x = true -> enabled (h x) = true) ->
  Forall (fun x => isPanelQuery c0 (h x)) xs ->
  forall w, same_data c0 (cache w) ->
    micros ok w (fold_left (fun w x => fetch_if (g w x) (h x) w) xs w)
    /\ same_data c0
         (cache (fold_left (fun w x => fetch_if (g w x) (h x) w) xs w)).
Proof.
  intros Hg Hall. induction Hall as [|x r Hx Hr IH]; intros w Hw; simpl.
  - split; [apply micros_refl | exact Hw].
  - assert (Hw' : same_data c0 (cache (fetch_if (g w x) (h x) w)))
      by (eapply same_data_trans; [exact Hw | apply fetch_if_same_data]).
    destruct (IH _ Hw') as [IH1 IH2]. split; [|exact IH2].
    eapply micros_trans; [|exact IH1].
    apply fetch_if_micros; [|apply Hg].
    eapply isPanelQuery_same_data; eauto.
Qed.

Lemma mountAll_micros c0 qs w :
  Forall (isPanelQuery c0) qs -> same_data c0 (cache w) ->
  micros ok w (mountAll opts qs w).
Proof.
  intros Hq Hw. unfold mountAll, subscribe.
  apply (fold_fetch_micros
           (fun w q => shouldFetchOnMount opts q (entry (queryKey q) (cache w)))
           (fun q => q) c0 qs); auto.
  intros w' x. apply shouldFetchOnMount_enabled.
Qed.

Lemma refetchAll_micros b c0 qs w :
  Forall (isPanelQuery c0) qs -> same_data c0 (cache w) ->
  micros ok w (refetchAll opts b qs w).
Proof.
  intros Hq Hw. unfold refetchAll, refetchOn.
  apply (fold_fetch_micros
           (fun w q => shouldFetchOn opts b q (entry (queryKey q) (cache w)))
           (fun q => q) c0 qs); auto.
  intros w' x. apply shouldFetchOn_enabled.
Qed.

Lemma Forall_combine_snd {A B : Type} (P : B -> Prop) (l : list A)
    (m : list B) :
  Forall P m -> Forall (fun ab => P (snd ab)) (combine l m).
Proof.
  intros H. revert l. induction H as [|b m Hb Hm IH]; intros [|a l]; simpl;
    constructor; auto.
Qed.

Lemma updateAll_micros c0 ps qs w :
  Forall (isPanelQuery c0) qs -> same_data c0 (cache w) ->
  micros ok w (updateAll opts ps qs w).
Proof.
  intros Hq Hw. unfold updateAll, setOptions.
  apply (fold_fetch_micros
           (fun w pq => shouldFetchOptionally opts (fst pq) (snd pq)
                          (entry (queryKey (snd pq)) (cache w)))
           (fun pq => snd pq) c0 (combine ps qs)); auto.
  - intros w' x. apply shouldFetchOptionally_enabled.
  - apply Forall_combine_snd. exact Hq.
Qed.

Lemma onUser_micros e w : micros ok w (onUser opts e w).
Proof.
  unfold onUser. destruct (negb (notifies e (page w))).
  { apply micros_one. apply (micro_local ok w). }
  set (w1 := mkWorld _ _ (cache w) (calls w)).
  assert (H1 : micros ok w w1) by (apply micros_one, (micro_local ok w)).
  destruct (negb (String.eqb _ _)); eapply micros_trans; try exact H1.
  - apply (mountAll_micros (cache w));
      [apply queries_panel | apply same_data_refl].
  - apply (updateAll_micros (cache w));
      [apply queries_panel | apply same_data_refl].
Qed.

Lemma onSettle_micros k response w :
  ok k response -> micros ok w (onSettle opts k response w).
Proof.
  intros Hok. unfold onSettle.
  destruct (inflight (entry k (cache w))) as [f|] eqn:Ef;
    [|apply micros_refl].
  destruct (run_queryFn f response) as [v|err] eqn:Er.
  - set (c' := store k (succeeded v) (cache w)).
    set (ks := if JsVal_eqb _ _ then _ else _).
    assert (H1 : micros ok w (mkWorld (page w) (kpis w) c' (calls w)))
      by (apply micros_one; eapply micro_resolve; eauto).
    assert (H2 : micros ok w (mkWorld (page w) ks c' (calls w))).
    { eapply micros_step; [exact H1|].
      apply (micro_local ok (mkWorld (page w) (kpis w) c' (calls w))). }
    eapply micros_trans; [exact H2|].
    unfold setOptions. apply fetch_if_micros.
    + cbn [cache].
      exists InsightsOf, (selectedIndustry (current w)),
        (selectedCompany (current w)).
      destruct (current w) as [i co]. apply pq_insights.
    + apply shouldFetchOptionally_enabled.
  - destruct (_ && _).
    + apply micros_one. eapply micro_retry; eauto.
    + apply micros_one. eapply micro_fail; eauto.
Qed.

Lemma step_micros w ev : ok_event ok ev -> micros ok w (step opts w ev).
Proof.
  destruct ev as [e | k response | |]; cbn [step ok_event]; intros Hok.
  - apply onUser_micros.
  - apply onSettle_micros, Hok.
  - apply (refetchAll_micros _ (cache w));
      [apply queries_panel | apply same_data_refl].
  - apply (refetchAll_micros _ (cache w));
      [apply queries_panel | apply same_data_refl].
Qed.

(** A property kept by every elementary change holds all along a run. *)
Lemma micros_invariant (P : World -> Prop) :
  (forall w w', micro ok w w' -> P w -> P w') ->
  forall w w', micros ok w w' -> P w -> P w'.
Proof. intros Hm w w' H. induction H; eauto. Qed.

Lemma run_micros w evs :
  Forall (ok_event ok) evs -> micros ok w (run opts w evs).
Proof.
  intros H. revert w. induction H as [|ev r Hev Hr IH]; intros w; simpl.
  - apply micros_refl.
  - eapply micros_trans; [apply step_micros, Hev | apply IH].
Qed.
End Evolution.

(* ===================================================================== *)
(** ** Invariants of the cache *)
(* ===================================================================== *)

Lemma fetcherFor_liveKey k f : fetcherFor k f -> liveKey k.
Proof. intros (c & P & i & co & q & H1 & H2 & H3 & _). exists c, P, i, co, q. auto. Qed.

Lemma liveKey_eq k k' : key_eqb k k' = true -> liveKey k -> liveKey k'.
Proof.
  intros E (c & P & i & co & q & H1 & H2 & H3).
  exists c, P, i, co, q. repeat split; auto. eapply key_eqb_trans; eauto.
Qed.

Lemma fetcherFor_eq k k' f :
  key_eqb k k' = true -> fetcherFor k f -> fetcherFor k' f.
Proof.
  intros E (c & P & i & co & q & H1 & H2 & H3 & H4).
  exists c, P, i, co, q. repeat split; auto. eapply key_eqb_trans; eauto.
Qed.

Lemma started_inflight f e : inflight (started f e) = Some f.
Proof. unfold started. destruct (is_undefined (data e)); reflexivity. Qed.

Lemma cacheInv_initial : cacheInv initialWorld.
Proof. split; [left; reflexivity | intros k f H; discriminate]. Qed.

Lemma cacheInv_micro ok w w' : micro ok w w' -> cacheInv w -> cacheInv w'.
Proof.
  intros Hm [A1 A2].
  destruct Hm as [w q Hq He Hi | w k0 f response v Hf Hok Hr | w k0 f Hf
                 | w k0 f response err Hf Hr | w p ks];
    unfold cacheInv; cbn [cache]; [| | | |split; auto].
  - assert (Hlive : fetcherFor (queryKey q) (queryFn q)).
    { destruct Hq as (P & i & co & Hq).
      exists (cache w), P, i, co, q. auto using key_eqb_refl. }
    split; intros k; [|intros f']; rewrite entry_store;
      destruct (key_eqb (queryKey q) k) eqn:E; auto.
    + right. eapply liveKey_eq; [exact E|]. eapply fetcherFor_liveKey; eauto.
    + rewrite started_inflight. intros [= <-].
      eapply fetcherFor_eq; eauto.
  - pose proof (A2 _ _ Hf) as Hlive.
    split; intros k; [|intros f']; rewrite entry_store;
      destruct (key_eqb k0 k) eqn:E; auto.
    + right. eapply liveKey_eq; [exact E|]. eapply fetcherFor_liveKey; eauto.
    + discriminate.
  - pose proof (A2 _ _ Hf) as Hlive.
    split; intros k; [|intros f']; rewrite entry_store;
      destruct (key_eqb k0 k) eqn:E; auto.
    + right. eapply liveKey_eq; [exact E|]. eapply fetcherFor_liveKey; eauto.
    + cbn [retried inflight]. intros [= <-]. eapply fetcherFor_eq; eauto.
  - pose proof (A2 _ _ Hf) as Hlive.
    split; intros k; [|intros f']; rewrite entry_store;
      destruct (key_eqb k0 k) eqn:E; auto.
    + right. eapply liveKey_eq; [exact E|]. eapply fetcherFor_liveKey; eauto.
    + discriminate.
Qed.

Lemma ok_event_any evs : Forall (ok_event anyResponse) evs.
Proof.
  induction evs as [|ev r IH]; constructor; auto. destruct ev; exact I.
Qed.

(** The key of a panel query built from a selection that is not truthy has
    an idle entry: nothing was ever fetched or stored for it. *)
Lemma disabled_idle w c P i co q :
  cacheInv w -> panelQuery c P i co q ->
  hasSelection (mkSelection i co) = false ->
  entry (queryKey q) (cache w) = idleEntry.
Proof.
  intros [A1 _] Hq Hs. destruct (A1 (queryKey q)) as [|Hlive]; auto.
  destruct Hlive as (c' & P' & i' & co' & q' & H1 & H2 & H3).
  destruct (panel_key_eq _ _ _ _ _ _ _ _ _ _ H1 Hq H3) as (_ & -> & ->).
  apply panel_enabled in H1; auto. congruence.
Qed.

Lemma fetcherFor_forecast k i co f :
  key_eqb (queryKey (forecastQuery i co)) k = true ->
  fetcherFor k f -> f = TrendFn i co.
Proof.
  intros E (c & P & i' & co' & q & H1 & H2 & H3 & <-).
  assert (E' : key_eqb (queryKey q) (queryKey (forecastQuery i co)) = true).
  { eapply key_eqb_trans; [exact H3|]. rewrite key_eqb_sym. exact E. }
  destruct (panel_key_eq _ _ _ _ _ _ _ _ _ _ H1 (pq_forecast c i co) E')
    as (-> & -> & ->).
  apply (panel_queryFn _ _ _ _ _ H1).
Qed.

Lemma forecastInv_micro ok w w' :
  micro ok w w' -> cacheInv w -> forecastInv w -> forecastInv w'.
Proof.
  intros Hm [A1 A2] F.
  destruct Hm as [w q Hq He Hi | w k0 f response v Hf Hok Hr | w k0 f Hf
                 | w k0 f response err Hf Hr | w p ks];
    unfold forecastInv; cbn [cache]; auto; intros k i co Hk;
    rewrite entry_store;
    match goal with
    | |- context [if key_eqb ?a k then _ else _] =>
        destruct (key_eqb a k) eqn:E
    end; try (apply (F _ _ _ Hk)).
  - assert (Hk' : key_eqb (queryKey (forecastQuery i co)) (queryKey q) = true).
    { eapply key_eqb_trans; [exact Hk|]. rewrite key_eqb_sym. exact E. }
    destruct (F _ _ _ Hk') as [F1 F2]. unfold started.
    destruct (is_undefined _); cbn [status error]; split; auto; discriminate.
  - cbn [succeeded status error]. split; [discriminate | reflexivity].
  - assert (Hk' : key_eqb (queryKey (forecastQuery i co)) k0 = true).
    { eapply key_eqb_trans; [exact Hk|]. rewrite key_eqb_sym. exact E. }
    destruct (F _ _ _ Hk') as [F1 F2]. cbn [retried status error]. auto.
  - assert (Hk' : key_eqb (queryKey (forecastQuery i co)) k0 = true).
    { eapply key_eqb_trans; [exact Hk|]. rewrite key_eqb_sym. exact E. }
    rewrite (fetcherFor_forecast _ _ _ _ Hk' (A2 _ _ Hf)) in Hr.
    exfalso. eapply run_queryFn_trend_resolves; eauto.
Qed.

Lemma forecastInv_run opts evs : forecastInv (run opts initialWorld evs).
Proof.
  assert (H : cacheInv (run opts initialWorld evs)
              /\ forecastInv (run opts initialWorld evs)).
  { eapply (micros_invariant anyResponse
              (fun w => cacheInv w /\ forecastInv w)).
    - intros w w' Hm [H1 H2]. split.
      + eapply cacheInv_micro; eauto.
      + eapply forecastInv_micro; eauto.
    - apply run_micros. apply ok_event_any.
    - split; [apply cacheInv_initial|].
      intros k i co _. split; [discriminate | reflexivity]. }
  apply H.
Qed.

(* ===================================================================== *)
(** ** The forecast query never fails *)
(* ===================================================================== *)

(** C10.  The fetcher of [TrendChart] resolves for every outcome of the
    request: to the empty list when the request is rejected (or when the
    response cannot be transformed), and otherwise to at most twelve points,
    point [n] being built from item [n] of the [forecast] array with
    [month = n + 1] and [value = item.yhat || item.value || 0], which is 0
    when both are missing.  Hence no forecast entry of the cache is ever in
    the Failure status or holds an error. *)
Theorem forecast_never_rejects :
  (forall i co response,
      exists points,
        run_queryFn (queryFn (forecastQuery i co)) response
        = Resolved (JArr points)
        /\ (forall err, response = Rejected err -> points = [])
        /\ List.length points <= 12
        /\ forall n p, nth_error points n = Some p ->
             exists forecast xs item,
               response = Resolved forecast
               /\ get forecast "forecast" = Some (JArr xs)
               /\ nth_error xs n = Some item
               /\ p = JObj [("month", num_of_nat (n + 1));
                            ("value", pointValue item)])
  /\ (forall item,
         absent (get_opt item "yhat") = true ->
         absent (get_opt item "value") = true ->
         pointValue item = JNum 0)
  /\ (forall opts evs i co,
         let e := entry (queryKey (forecastQuery i co))
                        (cache (run opts initialWorld evs)) in
         status e <> Failure /\ error e = None).
Proof.
  split; [|split].
  - intros i co response. apply trendQueryFn_resolves.
  - intros item H1 H2. unfold pointValue.
    rewrite (js_or_absent _ _ H1). rewrite (js_or_absent _ _ H2). reflexivity.
  - intros opts evs i co e. apply (forecastInv_run opts evs _ i co).
    apply key_eqb_refl.
Qed.

(* ===================================================================== *)
(** ** Nothing selected *)
(* ===================================================================== *)

Lemma queries_disabled (d : Selection) (c : Cache) :
  hasSelection d = false ->
  Forall (fun q => enabled q = false) (queries d c).
Proof.
  intros H. destruct d as [i co]. unfold queries.
  cbn [selectedIndustry selectedCompany].
  repeat constructor;
    cbn [enabled marketQuery insightsQuery forecastQuery swotQuery
           growthQuery]; unfold sel; rewrite H; reflexivity.
Qed.

Section Disabled.
Variable opts : QueryOptions.

Lemma subscribe_disabled q w : enabled q = false -> subscribe opts q w = w.
Proof.
  intros H. unfold subscribe, shouldFetchOnMount. rewrite H. reflexivity.
Qed.

Lemma refetchOn_disabled b q w :
  enabled q = false -> refetchOn opts b q w = w.
Proof.
  intros H. unfold refetchOn, shouldFetchOn. rewrite H. reflexivity.
Qed.

Lemma setOptions_disabled p q w :
  enabled q = false -> setOptions opts p q w = w.
Proof.
  intros H. unfold setOptions, shouldFetchOptionally. rewrite H.
  rewrite andb_false_r. reflexivity.
Qed.

Lemma mountAll_disabled qs w :
  Forall (fun q => enabled q = false) qs -> mountAll opts qs w = w.
Proof.
  unfold mountAll. intros H. induction H as [|q r Hq Hr IH]; simpl; auto.
  rewrite subscribe_disabled; auto.
Qed.

Lemma refetchAll_disabled b qs w :
  Forall (fun q => enabled q = false) qs -> refetchAll opts b qs w = w.
Proof.
  unfold refetchAll. intros H. induction H as [|q r Hq Hr IH]; simpl; auto.
  rewrite refetchOn_disabled; auto.
Qed.

Lemma updateAll_disabled ps qs w :
  Forall (fun q => enabled q = false) qs -> updateAll opts ps qs w = w.
Proof.
  unfold updateAll. intros H.
  pose proof (Forall_combine_snd _ ps qs H) as H'.
  induction H' as [|pq r Hq Hr IH]; simpl; auto.
  rewrite setOptions_disabled; auto.
Qed.

Lemma cacheInv_step w ev : cacheInv w -> cacheInv (step opts w ev).
Proof.
  intros H. eapply (micros_invariant anyResponse).
  - intros a b. apply cacheInv_micro.
  - apply step_micros. destruct ev; exact I.
  - exact H.
Qed.

(** With nothing selected the market data read by the panels is
    [undefined]. *)
Lemma marketData_none w :
  cacheInv w -> marketData noSelection (cache w) = JUndefined.
Proof.
  intros H. unfold marketData. cbn [selectedIndustry selectedCompany noSelection].
  rewrite (disabled_idle w (cache w) MarketMetrics None None); auto.
  constructor.
Qed.

(** A key under way is not observed when nothing is selected. *)
Lemma observed_none w k f :
  cacheInv w -> current w = noSelection ->
  inflight (entry k (cache w)) = Some f -> observed k w = false.
Proof.
  intros Hinv Hd Hf. unfold observed. rewrite Hd.
  destruct (existsb _ _) eqn:E; [|reflexivity].
  apply existsb_exists in E. destruct E as (q & Hq & Hk).
  pose proof (queries_panel noSelection (cache w)) as Hp.
  rewrite Forall_forall in Hp. destruct (Hp q Hq) as (P & i & co & Hpq).
  assert (Hs : hasSelection (mkSelection i co) = false).
  { revert Hq Hpq. unfold queries. cbn [noSelection selectedIndustry selectedCompany In].
    intros [<-|[<-|[<-|[<-|[<-|[<-|[]]]]]]] Hpq; inversion Hpq; reflexivity. }
  rewrite <- (entry_key_eq _ _ _ Hk) in Hf.
  rewrite (disabled_idle w _ _ _ _ _ Hinv Hpq Hs) in Hf. discriminate.
Qed.

Lemma kpisInv_step w ev :
  cacheInv w -> kpisInv w -> kpisInv (step opts w ev).
Proof.
  intros Hinv K Hd. rewrite step_current in Hd.
  destruct ev as [e | k response | |]; cbn [step].
  - unfold onUser. destruct (notifies e (page w)) eqn:N; cbn [negb].
    + rewrite selection_handle, Hd.
      assert (Hk : forall k0,
                 run_effect (marketData noSelection (cache w)) noSelection k0
                 = initialKPIs).
      { intros k0. rewrite marketData_none by assumption. reflexivity. }
      destruct (negb (String.eqb _ _)).
      * rewrite mountAll_kpis. cbn [kpis]. apply Hk.
      * rewrite updateAll_kpis. cbn [kpis]. apply Hk.
    + cbn [kpis]. apply K. unfold notifies in N.
      apply negb_false_iff in N. apply Selection_eqb_eq in N.
      rewrite selection_handle in N. unfold current. congruence.
  - unfold onSettle.
    destruct (inflight (entry k (cache w))) as [f|] eqn:Ef; [|auto].
    destruct (run_queryFn f response) as [v|err].
    + unfold setOptions. rewrite fetch_if_kpis. cbn [kpis].
      rewrite Hd.
      assert (E : marketData noSelection (store k (succeeded v) (cache w))
                  = marketData noSelection (cache w)).
      { unfold marketData. rewrite entry_store.
        destruct (key_eqb k _) eqn:Ek; [|reflexivity].
        exfalso. rewrite (entry_key_eq _ _ _ Ek) in Ef.
        cbn [noSelection selectedIndustry selectedCompany] in Ef.
        rewrite (disabled_idle w (cache w) MarketMetrics None None) in Ef;
          [discriminate | assumption | constructor | reflexivity]. }
      rewrite E, JsVal_eqb_refl. auto.
    + destruct (_ && _); cbn [kpis]; auto.
  - rewrite refetchAll_kpis. auto.
  - rewrite refetchAll_kpis. auto.
Qed.

Lemma kpisInv_run evs :
  cacheInv (run opts initialWorld evs) /\ kpisInv (run opts initialWorld evs).
Proof.
  apply (run_invariant opts (fun w => cacheInv w /\ kpisInv w)).
  - split; [apply cacheInv_initial | intros _; reflexivity].
  - intros w ev [H1 H2]. split.
    + apply cacheInv_step, H1.
    + apply kpisInv_step; assumption.
Qed.

(** An event that leaves nothing selected starts no fetcher. *)
Lemma no_fetch_without_selection w ev :
  cacheInv w -> current (step opts w ev) = noSelection ->
  calls (step opts w ev) = calls w.
Proof.
  intros Hinv Hd. rewrite step_current in Hd.
  destruct ev as [e | k response | |]; cbn [step].
  - unfold onUser. destruct (negb (notifies e (page w))); [reflexivity|].
    rewrite selection_handle, Hd.
    destruct (negb (String.eqb _ _)).
    + rewrite mountAll_disabled; [reflexivity|].
      apply queries_disabled. reflexivity.
    + rewrite updateAll_disabled; [reflexivity|].
      apply queries_disabled. reflexivity.
  - unfold onSettle.
    destruct (inflight (entry k (cache w))) as [f|] eqn:Ef; [|auto].
    destruct (run_queryFn f response) as [v|err].
    + rewrite setOptions_disabled; [reflexivity|].
      rewrite Hd. reflexivity.
    + rewrite (observed_none w k f), andb_false_r by assumption.
      reflexivity.
  - rewrite refetchAll_disabled; [reflexivity|].
    apply queries_disabled. rewrite Hd. reflexivity.
  - rewrite refetchAll_disabled; [reflexivity|].
    apply queries_disabled. rewrite Hd. reflexivity.
Qed.
End Disabled.

(** C5, as stated, fails for one panel: with nothing selected [KPICards]
    has no "select an industry or company" state, it renders its three
    cards. *)
Lemma kpi_cards_have_no_prompt :
  current initialWorld = mkSelection None None
  /\ kpiPanel (screen initialWorld) = Some zeroCards
  /\ ~ Forall isPrompt (panels (screen initialWorld)).
Proof.
  split; [reflexivity|]. split; [reflexivity|].
  intros H. inversion H as [|v l Hk _]; subst.
  destruct Hk as (t & m & Hk). discriminate Hk.
Qed.

(** C5, amended.  In every state the dashboard reaches with nothing
    selected, the six queries are disabled, the event that led there started
    no fetcher, the panels [TrendChart], [SWOTMatrix], [AISummary] and
    [StrategicRecommendations] show their "Select an industry or company"
    state rather than a loading state, and [KPICards] shows its three cards
    with zero values. *)
Theorem disabled_without_selection
    (opts : QueryOptions) (evs : list Event) :
  let w := run opts initialWorld evs in
  current w = mkSelection None None ->
  Forall (fun q => enabled q = false) (queries (current w) (cache w))
  /\ (forall pre ev,
        evs = pre ++ [ev] -> calls w = calls (run opts initialWorld pre))
  /\ trendPanel (screen w)
     = Some (Prompt "Trend Analysis"
                    "Select an industry or company to view trends")
  /\ swotPanel (screen w)
     = Some (Prompt "SWOT Analysis"
                    "Select an industry or company to generate SWOT analysis")
  /\ insightsPanel (screen w)
     = Some (Prompt "Key Insights"
                    "Select an industry or company to generate insights")
  /\ recommendationsPanel (screen w)
     = Some (Prompt "Strategic Recommendations"
                    "Select an industry or company to view recommendations")
  /\ kpiPanel (screen w) = Some zeroCards.
Proof.
  intros w Hd.
  destruct (kpisInv_run opts evs) as [_ HK]. fold w in HK.
  split; [apply queries_disabled; rewrite Hd; reflexivity|].
  split.
  - intros pre ev ->. unfold w in *. rewrite run_snoc in *.
    apply no_fetch_without_selection; [|exact Hd].
    apply (kpisInv_run opts pre).
  - unfold screen. cbn [trendPanel swotPanel insightsPanel
                          recommendationsPanel kpiPanel].
    rewrite (HK Hd), Hd. repeat split; reflexivity.
Qed.

Lemma disabled_without_selection_witness :
  let before := run Providers initialWorld
                  [User (IndustryChange "Technology")] in
  let w := run Providers initialWorld
             [User (IndustryChange "Technology"); User ClickIndustry] in
  current w = mkSelection None None
  /\ calls w = calls before
  /\ kpiPanel (screen w) = Some zeroCards.
Proof.
  assert (H : current (run Providers initialWorld
                         [User (IndustryChange "Technology");
                          User ClickIndustry]) = mkSelection None None)
    by reflexivity.
  pose proof (disabled_without_selection Providers
                [User (IndustryChange "Technology"); User ClickIndustry] H)
    as (_ & Hc & _ & _ & _ & _ & Hk).
  split; [exact H|]. split; [|exact Hk].
  apply (Hc [User (IndustryChange "Technology")] (User ClickIndustry)).
  reflexivity.
Defined.

(* ===================================================================== *)
(** ** A failed strategy fetch stays local *)
(* ===================================================================== *)

(** The keys of the other products differ from the SWOT key. *)
Lemma swot_key_apart (i co : option string) :
  (forall md, key_eqb (queryKey (swotQuery i co))
                      (queryKey (insightsQuery i co md)) = false)
  /\ key_eqb (queryKey (swotQuery i co)) (queryKey (marketQuery i co)) = false
  /\ key_eqb (queryKey (swotQuery i co)) (queryKey (forecastQuery i co)) = false
  /\ key_eqb (queryKey (swotQuery i co)) (queryKey (growthQuery i co)) = false.
Proof. repeat split; intros; key_compute; reflexivity. Qed.

(** C9, as stated, fails: the quadrants of a failed SWOT query are not
    always empty.  "Technology" is selected and its SWOT analysis arrives;
    the connection comes back and the analysis is fetched again; that
    request and the three further attempts answer 500.  The entry is in the
    Failure status and [SWOTMatrix] still shows the strength it had. *)
Lemma failed_refetch_keeps_the_quadrants :
  let K := [JStr "strategy"; JStr "swot"; JStr "Technology"; JNull] in
  let body := JObj [("content", JObj [("strengths", JArr [JStr "brand"])])] in
  let rejected := Settle K (Rejected (HttpError 500)) in
  let w := run Providers initialWorld
             [User (IndustryChange "Technology"); Settle K (Resolved body);
              Reconnect; rejected; rejected; rejected; rejected] in
  K = queryKey (swotQuery (selectedIndustry (current w))
                          (selectedCompany (current w)))
  /\ status (entry K (cache w)) = Failure
  /\ error (entry K (cache w)) = Some (HttpError 500)
  /\ isFetching (entry K (cache w)) = false
  /\ invocations K w = 5
  /\ swotPanel (screen w) = Some (Quadrants [JStr "brand"] [] [] []).
Proof. repeat split; reflexivity. Qed.

(** C9, amended.  The SWOT fetch of the current selection fails for good
    (its attempts are used up): the entry goes to Failure with the error
    and keeps the data it had; [SWOTMatrix] renders the analysis that was
    cached for the key, so its four quadrants are empty when nothing was
    cached (the first fetch failed) and show the earlier analysis when the
    failed request was a refetch; the entry of every insights key is
    untouched, the other four panels render as before and no fetcher is
    started. *)
Theorem swot_failure_is_local
    (opts : QueryOptions) (w : World) (err : ErrorInfo) :
  let d := current w in
  let i := selectedIndustry d in
  let co := selectedCompany d in
  let K := queryKey (swotQuery i co) in
  hasSelection d = true ->
  inflight (entry K (cache w)) = Some (queryFn (swotQuery i co)) ->
  retry opts <= failureCount (entry K (cache w)) ->
  let w' := step opts w (Settle K (Rejected err)) in
  status (entry K (cache w')) = Failure
  /\ error (entry K (cache w')) = Some err
  /\ isFetching (entry K (cache w')) = false
  /\ data (entry K (cache w')) = data (entry K (cache w))
  /\ swotPanel (screen w') = swotContent (data (entry K (cache w)))
  /\ (data (entry K (cache w)) = JUndefined ->
      swotPanel (screen w') = Some (Quadrants [] [] [] []))
  /\ (forall md,
        entry (queryKey (insightsQuery i co md)) (cache w')
        = entry (queryKey (insightsQuery i co md)) (cache w))
  /\ insightsPanel (screen w') = insightsPanel (screen w)
  /\ kpiPanel (screen w') = kpiPanel (screen w)
  /\ trendPanel (screen w') = trendPanel (screen w)
  /\ recommendationsPanel (screen w') = recommendationsPanel (screen w)
  /\ calls w' = calls w.
Proof.
  intros d i co K Hs Hf Hr w'.
  destruct (swot_key_apart i co) as (Ki & Km & Kf & Kg).
  assert (Hw' : w' = mkWorld (page w) (kpis w)
                       (store K (failed err (entry K (cache w))) (cache w))
                       (calls w)).
  { unfold w'. cbn [step]. unfold onSettle. fold d i co K. rewrite Hf.
    cbn [run_queryFn queryFn swotQuery].
    replace (failureCount (entry K (cache w)) <? retry opts)%nat with false
      by (symmetry; apply Nat.ltb_ge; exact Hr).
    reflexivity. }
  assert (Hcur : current w' = d) by (rewrite Hw'; reflexivity).
  assert (Hmd : marketData d (cache w') = marketData d (cache w)).
  { rewrite Hw'. cbn [cache]. unfold marketData.
    fold i co. rewrite entry_store_other; auto. }
  assert (Hp : swotPanel (screen w') = swotContent (data (entry K (cache w)))).
  { rewrite Hw'. unfold screen. cbn [cache swotPanel].
    change (current (mkWorld (page w) (kpis w)
                       (store K (failed err (entry K (cache w))) (cache w))
                       (calls w))) with d.
    unfold renderSWOTMatrix. rewrite none_hasSelection, Hs. cbn [negb].
    fold i co K. rewrite entry_store_same. reflexivity. }
  split; [rewrite Hw'; cbn [cache]; rewrite entry_store_same; reflexivity|].
  split; [rewrite Hw'; cbn [cache]; rewrite entry_store_same; reflexivity|].
  split; [rewrite Hw'; cbn [cache]; rewrite entry_store_same; reflexivity|].
  split; [rewrite Hw'; cbn [cache]; rewrite entry_store_same; reflexivity|].
  split; [exact Hp|].
  split; [intros Hd; rewrite Hp, Hd; reflexivity|].
  rewrite Hw'. cbn [cache calls].
  unfold screen. cbn [cache kpis kpiPanel trendPanel swotPanel insightsPanel
                        recommendationsPanel].
  change (current (mkWorld (page w) (kpis w)
                     (store K (failed err (entry K (cache w))) (cache w))
                     (calls w))) with d.
  split; [|split; [|split; [|split; [|split]]]].
  - intros md. apply entry_store_other. apply Ki.
  - unfold renderAISummary. fold i co.
    rewrite Hw' in Hmd. cbn [cache] in Hmd. rewrite Hmd.
    rewrite entry_store_other by apply Ki. reflexivity.
  - reflexivity.
  - unfold renderTrendChart. fold i co.
    rewrite entry_store_other by apply Kf. reflexivity.
  - unfold renderStrategicRecommendations. fold i co.
    rewrite entry_store_other by apply Kg. reflexivity.
  - reflexivity.
Qed.

(** The scenario of the specification: "Technology" is selected and the
    strategy request keeps answering 500. *)
Lemma swot_failure_is_local_witness :
  let K := [JStr "strategy"; JStr "swot"; JStr "Technology"; JNull] in
  let rejected := Settle K (Rejected (HttpError 500)) in
  let w := run Providers initialWorld
             [User (IndustryChange "Technology");
              rejected; rejected; rejected] in
  let w' := step Providers w rejected in
  status (entry K (cache w')) = Failure
  /\ error (entry K (cache w')) = Some (HttpError 500)
  /\ swotPanel (screen w') = Some (Quadrants [] [] [] [])
  /\ insightsPanel (screen w') = insightsPanel (screen w)
  /\ calls w' = calls w.
Proof.
  intros K rejected w w'.
  destruct (swot_failure_is_local Providers w (HttpError 500))
    as (H1 & H2 & _ & _ & _ & H3 & _ & H5 & _ & _ & _ & H6).
  - reflexivity.
  - reflexivity.
  - vm_compute. lia.
  - split; [exact H1|]. split; [exact H2|].
    split; [apply H3; reflexivity|]. split; [exact H5 | exact H6].
Defined.

(* ===================================================================== *)
(** ** One request per key *)
(* ===================================================================== *)

Section Counting.
Variable k : QueryKey.

Lemma invocations_cons k' f w p ks c :
  invocations k (mkWorld p ks c ((k', f) :: calls w))
  = (if key_eqb k' k then 1 else 0) + invocations k w.
Proof.
  unfold invocations. cbn [calls filter fst].
  destruct (key_eqb k' k); reflexivity.
Qed.

Lemma fetch_count q w :
  invocations k w <= invocations k (fetch q w)
  /\ invocations k (fetch q w) + slack k (fetch q w)
     <= invocations k w + slack k w.
Proof.
  unfold fetch. destruct (isFetching (entry (queryKey q) (cache w))) eqn:E;
    [lia|].
  rewrite invocations_cons. unfold slack. cbn [cache].
  rewrite entry_store. destruct (key_eqb (queryKey q) k) eqn:Ek.
  - rewrite <- (entry_key_eq _ _ _ Ek), E.
    unfold isFetching. rewrite started_inflight. lia.
  - lia.
Qed.

Lemma fetch_if_count b q w :
  invocations k w <= invocations k (fetch_if b q w)
  /\ invocations k (fetch_if b q w) + slack k (fetch_if b q w)
     <= invocations k w + slack k w.
Proof. destruct b; simpl; [apply fetch_count | lia]. Qed.

Lemma fold_fetch_count {X : Type} (g : World -> X -> bool) (h : X -> Query)
    (xs : list X) (w : World) :
  let w' := fold_left (fun w x => fetch_if (g w x) (h x) w) xs w in
  invocations k w <= invocations k w'
  /\ invocations k w' + slack k w' <= invocations k w + slack k w.
Proof.
  revert w. induction xs as [|x r IH]; intros w; simpl; [lia|].
  pose proof (fetch_if_count (g w x) (h x) w) as H.
  pose proof (IH (fetch_if (g w x) (h x) w)) as H'. simpl in H'. lia.
Qed.

Lemma slack_le w : slack k w <= 1.
Proof. unfold slack. destruct (isFetching _); lia. Qed.

Variable opts : QueryOptions.

Lemma mountAll_count qs w :
  invocations k w <= invocations k (mountAll opts qs w)
  /\ invocations k (mountAll opts qs w) + slack k (mountAll opts qs w)
     <= invocations k w + slack k w.
Proof.
  apply (fold_fetch_count
           (fun w q => shouldFetchOnMount opts q (entry (queryKey q) (cache w)))
           (fun q => q)).
Qed.

Lemma updateAll_count ps qs w :
  invocations k w <= invocations k (updateAll opts ps qs w)
  /\ invocations k (updateAll opts ps qs w) + slack k (updateAll opts ps qs w)
     <= invocations k w + slack k w.
Proof.
  apply (fold_fetch_count
           (fun w pq => shouldFetchOptionally opts (fst pq) (snd pq)
                          (entry (queryKey (snd pq)) (cache w)))
           (fun pq => snd pq)).
Qed.

Lemma refetchAll_count b qs w :
  invocations k w <= invocations k (refetchAll opts b qs w)
  /\ invocations k (refetchAll opts b qs w) + slack k (refetchAll opts b qs w)
     <= invocations k w + slack k w.
Proof.
  apply (fold_fetch_count
           (fun w q => shouldFetchOn opts b q (entry (queryKey q) (cache w)))
           (fun q => q)).
Qed.

Lemma onUser_count e w :
  invocations k w <= invocations k (onUser opts e w)
  /\ invocations k (onUser opts e w) + slack k (onUser opts e w)
     <= invocations k w + slack k w.
Proof.
  unfold onUser. destruct (negb (notifies e (page w))).
  { unfold invocations, slack. cbn [calls cache]. lia. }
  set (w1 := mkWorld _ _ (cache w) (calls w)).
  change (invocations k w) with (invocations k w1).
  change (slack k w) with (slack k w1).
  destruct (negb (String.eqb _ _)).
  - apply mountAll_count.
  - apply updateAll_count.
Qed.

(** An event starts the fetcher of a key at most once. *)
Lemma step_count w ev :
  invocations k w <= invocations k (step opts w ev) <= invocations k w + 1.
Proof.
  pose proof (slack_le w) as Hs.
  destruct ev as [e | k0 response | |]; cbn [step].
  - pose proof (onUser_count e w). lia.
  - unfold onSettle.
    destruct (inflight (entry k0 (cache w))) as [f|]; [|lia].
    destruct (run_queryFn f response) as [v|err].
    + set (w2 := mkWorld _ _ _ (calls w)).
      unfold setOptions.
      pose proof (fetch_if_count
                    (shouldFetchOptionally opts
                       (insightsQuery (selectedIndustry (current w))
                          (selectedCompany (current w))
                          (marketData (current w) (cache w)))
                       (insightsQuery (selectedIndustry (current w))
                          (selectedCompany (current w))
                          (marketData (current w) (cache w2)))
                       (entry (queryKey
                                 (insightsQuery (selectedIndustry (current w))
                                    (selectedCompany (current w))
                                    (marketData (current w) (cache w2))))
                              (cache w2)))
                    (insightsQuery (selectedIndustry (current w))
                       (selectedCompany (current w))
                       (marketData (current w) (cache w2))) w2) as H.
      pose proof (slack_le w2).
      change (invocations k w2) with (invocations k w) in H.
      unfold w2 in *. cbn [cache] in *. lia.
    + destruct (_ && _).
      * rewrite invocations_cons. destruct (key_eqb k0 k); lia.
      * unfold invocations. cbn [calls]. lia.
  - pose proof (refetchAll_count (refetchOnReconnect opts)
                  (queries (current w) (cache w)) w). lia.
  - pose proof (refetchAll_count (refetchOnWindowFocus opts)
                  (queries (current w) (cache w)) w). lia.
Qed.
End Counting.

Lemma fetch_exact (k : QueryKey) (q : Query) (w : World) :
  key_eqb (queryKey q) k = true ->
  slack k (fetch q w) = 0
  /\ invocations k (fetch q w) = invocations k w + slack k w.
Proof.
  intros Ek. unfold fetch, slack.
  rewrite <- (entry_key_eq _ _ (cache w) Ek).
  destruct (isFetching (entry (queryKey q) (cache w))) eqn:E.
  - rewrite <- (entry_key_eq _ _ (cache w) Ek), E. lia.
  - rewrite invocations_cons, Ek. cbn [cache]. rewrite entry_store, Ek.
    unfold isFetching. rewrite started_inflight. lia.
Qed.

Lemma market_key_inj (d d' : Selection) :
  key_eqb (queryKey (marketQuery (selectedIndustry d) (selectedCompany d)))
          (queryKey (marketQuery (selectedIndustry d') (selectedCompany d')))
  = true ->
  d = d'.
Proof.
  intros H.
  destruct (panel_key_eq [] [] _ _ _ _ _ _ _ _
              (pq_market [] (selectedIndustry d) (selectedCompany d))
              (pq_market [] (selectedIndustry d') (selectedCompany d')) H)
    as (_ & Hi & Hc).
  destruct d, d'; simpl in *; congruence.
Qed.

(** With the options of [Providers] data is always stale, so an enabled
    query is fetched whenever its observer mounts, changes key or sees the
    connection come back. *)
Lemma Providers_mount q e : shouldFetchOnMount Providers q e = enabled q.
Proof.
  unfold shouldFetchOnMount, isStale. cbn. rewrite orb_true_r, andb_true_r.
  reflexivity.
Qed.

Lemma Providers_reconnect q e :
  shouldFetchOn Providers (refetchOnReconnect Providers) q e = enabled q.
Proof. unfold shouldFetchOn, isStale. cbn. rewrite !andb_true_r. reflexivity. Qed.

Lemma Providers_update p q e :
  shouldFetchOptionally Providers p q e
  = (negb (key_eqb (queryKey p) (queryKey q)) || negb (enabled p))
    && enabled q.
Proof. unfold shouldFetchOptionally, isStale. cbn. rewrite andb_true_r. reflexivity. Qed.

Lemma mountAll_cons opts q qs w :
  mountAll opts (q :: qs) w = mountAll opts qs (subscribe opts q w).
Proof. reflexivity. Qed.

Lemma updateAll_cons opts p ps q qs w :
  updateAll opts (p :: ps) (q :: qs) w
  = updateAll opts ps qs (setOptions opts p q w).
Proof. reflexivity. Qed.

Lemma refetchAll_cons opts b q qs w :
  refetchAll opts b (q :: qs) w = refetchAll opts b qs (refetchOn opts b q w).
Proof. reflexivity. Qed.

(** Selecting something new starts the market fetcher once, although two
    panels subscribe to the market key, and not at all when a request for
    that key is already under way. *)
Lemma select_fetches_market_once (e : UserEvent) (w : World) :
  notifies e (page w) = true ->
  hasSelection (target e) = true ->
  let mk := queryKey (marketQuery (selectedIndustry (target e))
                                  (selectedCompany (target e))) in
  invocations mk (step Providers w (User e))
  = invocations mk w + slack mk w.
Proof.
  intros N Hs mk. cbn [step]. unfold onUser. rewrite N. cbn [negb].
  rewrite selection_handle.
  set (w1 := mkWorld _ _ (cache w) (calls w)).
  change (invocations mk w) with (invocations mk w1).
  change (slack mk w) with (slack mk w1).
  assert (Hen : enabled (marketQuery (selectedIndustry (target e))
                                     (selectedCompany (target e))) = true).
  { cbn [enabled marketQuery]. unfold sel. destruct (target e); exact Hs. }
  destruct (negb (String.eqb _ _)).
  - unfold queries. rewrite mountAll_cons. fold mk.
    unfold subscribe at 1. rewrite Providers_mount, Hen. cbn [fetch_if].
    destruct (fetch_exact mk _ w1 (key_eqb_refl mk)) as [H0 H1].
    match goal with
    | |- invocations mk (mountAll _ ?l ?a) = _ =>
        pose proof (mountAll_count mk Providers l a) as H
    end.
    lia.
  - unfold queries. rewrite updateAll_cons.
    unfold setOptions at 1. rewrite Providers_update, Hen. fold mk.
    assert (Hk : key_eqb
                   (queryKey (marketQuery (selectedIndustry (current w))
                                          (selectedCompany (current w))))
                   mk = false).
    { destruct (key_eqb _ mk) eqn:Ek; [|reflexivity].
      apply market_key_inj in Ek. unfold notifies in N.
      rewrite selection_handle in N. unfold current in Ek. rewrite Ek in N.
      rewrite Selection_eqb_refl in N. discriminate. }
    rewrite Hk. cbn [negb orb andb fetch_if].
    destruct (fetch_exact mk _ w1 (key_eqb_refl mk)) as [H0 H1].
    match goal with
    | |- invocations mk (updateAll _ ?l ?m ?a) = _ =>
        pose proof (updateAll_count mk Providers l m a) as H
    end.
    lia.
Qed.

(** While a request for [k] is under way nothing starts its fetcher again:
    there is at most one request in flight per key. *)
Lemma one_request_in_flight (opts : QueryOptions) (w : World) (ev : Event)
    (k : QueryKey) :
  isFetching (entry k (cache w)) = true -> settles k ev = false ->
  invocations k (step opts w ev) = invocations k w.
Proof.
  intros Hf Hev.
  assert (Hs : slack k w = 0) by (unfold slack; rewrite Hf; reflexivity).
  destruct ev as [e | k0 response | |]; cbn [step settles] in *.
  - pose proof (onUser_count k opts e w). lia.
  - unfold onSettle.
    destruct (inflight (entry k0 (cache w))) as [f|]; [|reflexivity].
    destruct (run_queryFn f response) as [v|err].
    + set (w2 := mkWorld _ _ _ (calls w)).
      assert (Hs2 : slack k w2 = 0).
      { unfold slack, w2. cbn [cache]. rewrite entry_store, Hev, Hf.
        reflexivity. }
      unfold setOptions.
      match goal with
      | |- invocations k (fetch_if ?b ?q w2) = _ =>
          pose proof (fetch_if_count k b q w2) as H
      end.
      change (invocations k w2) with (invocations k w) in H. lia.
    + destruct (_ && _).
      * rewrite invocations_cons, Hev. reflexivity.
      * reflexivity.
  - pose proof (refetchAll_count k opts (refetchOnReconnect opts)
                  (queries (current w) (cache w)) w). lia.
  - pose proof (refetchAll_count k opts (refetchOnWindowFocus opts)
                  (queries (current w) (cache w)) w). lia.
Qed.

(** The key of the insights query depends on the market data only through
    the hash of its metrics. *)
Lemma insights_key_eq (i co : option string) (md md' : JsVal) :
  canon (get_opt md "metrics") = canon (get_opt md' "metrics") ->
  key_eq (queryKey (insightsQuery i co md)) (queryKey (insightsQuery i co md')).
Proof.
  intros H. unfold key_eq, hashKey.
  cbn [queryKey insightsQuery canon map]. rewrite H. reflexivity.
Qed.

(** Two observers with equal keys that subscribe one after the other
    share one request. *)
Lemma subscribe_twice (opts : QueryOptions) (q q' : Query) (w : World) :
  let k := queryKey q in
  let w' := subscribe opts q' (subscribe opts q w) in
  invocations k w' <= invocations k w + 1
  /\ (shouldFetchOnMount opts q (entry k (cache w)) = true ->
      invocations k w'
      = invocations k w + (if isFetching (entry k (cache w)) then 0 else 1)).
Proof.
  intros k w'. unfold w', subscribe. fold k.
  pose proof (fetch_if_count k
                (shouldFetchOnMount opts q (entry k (cache w))) q w) as H1.
  pose proof (slack_le k w) as L.
  destruct (shouldFetchOnMount opts q (entry k (cache w))) eqn:B;
    cbn [fetch_if] in *.
  - pose proof (fetch_if_count k
                  (shouldFetchOnMount opts q'
                     (entry (queryKey q') (cache (fetch q w)))) q'
                  (fetch q w)) as H2.
    split; [lia|]. intros _.
    destruct (fetch_exact k q w (key_eqb_refl _)) as [E0 E1].
    unfold slack in E1. unfold slack in L.
    destruct (isFetching (entry k (cache w))); lia.
  - pose proof (fetch_if_count k
                  (shouldFetchOnMount opts q' (entry (queryKey q') (cache w)))
                  q' w) as H2.
    split; [lia | discriminate].
Qed.

(** C3, as stated, fails: equal keys do not limit the fetches for a key to
    one.  "Finance" is selected and its market data arrive; "Retail" is
    selected; "Finance" is selected again.  The market query is built from
    the same selection as the first time and has the same key, the data are
    in the cache, and the fetcher of that key runs a second time: with
    [staleTime] 0 and [refetchOnMount] every mount fetches again. *)
Lemma equal_keys_fetched_again :
  let K := queryKey (marketQuery (Some "Finance") None) in
  let body := JObj [("metrics", JObj [("growth_rate", JNum 5)])] in
  let w := run Providers initialWorld
             [User (IndustryChange "Finance"); Settle K (Resolved body);
              User (IndustryChange "Retail")] in
  let w' := step Providers w (User (IndustryChange "Finance")) in
  key_eq (queryKey (marketQuery (selectedIndustry (current w'))
                                (selectedCompany (current w')))) K
  /\ nth_error (queries (current w') (cache w')) 0
     = Some (marketQuery (Some "Finance") None)
  /\ nth_error (queries (current w') (cache w')) 3
     = Some (marketQuery (Some "Finance") None)
  /\ status (entry K (cache w)) = Success
  /\ data (entry K (cache w)) = body
  /\ isFetching (entry K (cache w)) = false
  /\ invocations K w = 1
  /\ invocations K w' = 2
  /\ requests w' = GetMarketData (Some "Finance") None :: requests w.
Proof. repeat split; reflexivity. Qed.

(** C3, amended.  Key equality is an equivalence relation, decided by
    [key_eqb]; keys that are equal address one entry of the cache; the two
    market queries of the dashboard ([KPICards], [AISummary]) are built
    alike and two insights queries built from metrics with the same hash
    have equal keys.  Equal keys share a request, they do not limit the
    number of requests: two observers with equal keys that subscribe
    together start the fetcher at most once (exactly once with the options
    of [Providers] when the query is enabled and no request for the key is
    under way); an event starts the fetcher of a key at most once, and not
    at all while a request for the key is under way (unless the event is
    that request settling); and selecting something starts the market
    fetcher exactly once when no request for that key is under way and not
    at all when one is.  Once the request has settled, a later mount or
    reconnect fetches the key again. *)
Theorem dedup_by_key_equality :
  (forall k, key_eq k k)
  /\ (forall k1 k2, key_eq k1 k2 -> key_eq k2 k1)
  /\ (forall k1 k2 k3, key_eq k1 k2 -> key_eq k2 k3 -> key_eq k1 k3)
  /\ (forall k1 k2, key_eqb k1 k2 = true <-> key_eq k1 k2)
  /\ (forall k1 k2 c, key_eq k1 k2 -> entry k1 c = entry k2 c)
  /\ (forall d c,
        nth_error (queries d c) 0
        = Some (marketQuery (selectedIndustry d) (selectedCompany d))
        /\ nth_error (queries d c) 3
           = Some (marketQuery (selectedIndustry d) (selectedCompany d)))
  /\ (forall i co md md',
        canon (get_opt md "metrics") = canon (get_opt md' "metrics") ->
        key_eq (queryKey (insightsQuery i co md))
               (queryKey (insightsQuery i co md')))
  /\ (forall opts q q' w,
        key_eq (queryKey q) (queryKey q') ->
        invocations (queryKey q) (subscribe opts q' (subscribe opts q w))
        <= invocations (queryKey q) w + 1)
  /\ (forall q q' w,
        key_eq (queryKey q) (queryKey q') -> enabled q = true ->
        invocations (queryKey q)
                    (subscribe Providers q' (subscribe Providers q w))
        = invocations (queryKey q) w
          + (if isFetching (entry (queryKey q) (cache w)) then 0 else 1))
  /\ (forall opts w ev k,
        invocations k (step opts w ev) <= invocations k w + 1)
  /\ (forall opts w ev k,
        isFetching (entry k (cache w)) = true -> settles k ev = false ->
        invocations k (step opts w ev) = invocations k w)
  /\ (forall e w,
        notifies e (page w) = true ->
        hasSelection (target e) = true ->
        let mk := queryKey (marketQuery (selectedIndustry (target e))
                                        (selectedCompany (target e))) in
        invocations mk (step Providers w (User e))
        = invocations mk w
          + (if isFetching (entry mk (cache w)) then 0 else 1)).
Proof.
  split; [|split; [|split; [|split; [|split; [|split; [|split; [|split;
    [|split; [|split; [|split]]]]]]]]]].
  - intros k. reflexivity.
  - intros k1 k2 H. symmetry. exact H.
  - intros k1 k2 k3 H1 H2. unfold key_eq in *. congruence.
  - apply key_eqb_eq.
  - intros k1 k2 c H. apply entry_key_eq, key_eqb_eq, H.
  - intros d c. split; reflexivity.
  - apply insights_key_eq.
  - intros opts q q' w _. apply (subscribe_twice opts q q' w).
  - intros q q' w _ En. apply (subscribe_twice Providers q q' w).
    rewrite Providers_mount. exact En.
  - intros opts w ev k. apply step_count.
  - intros opts w ev k. apply one_request_in_flight.
  - intros e w N Hs mk. apply select_fetches_market_once; assumption.
Qed.

(** Two panels, one request: after "Technology" is selected on the fresh
    page the market fetcher has run once. *)
Example one_market_request :
  let w := step Providers initialWorld (User (IndustryChange "Technology")) in
  invocations [JStr "market"; JStr "Technology"; JNull] w = 1
  /\ List.length (filter (fun q => key_eqb (queryKey q)
                                     [JStr "market"; JStr "Technology"; JNull])
                         (queries (current w) (cache w))) = 2
  /\ requests w
     = [ GetStrategy (Some "Technology") None "growth";
         GetStrategy (Some "Technology") None "swot";
         GetForecast "growth" 12 (Some "Technology") None;
         GetMarketData (Some "Technology") None ].
Proof. repeat split; reflexivity. Qed.

(** Metrics that differ only in the order of their fields give one key. *)
Example insights_key_ignores_field_order :
  key_eqb
    (queryKey (insightsQuery (Some "Technology") None
                 (JObj [("metrics", JObj [("growth_rate", JNum 1);
                                          ("market_size", JNum 2)])])))
    (queryKey (insightsQuery (Some "Technology") None
                 (JObj [("metrics", JObj [("market_size", JNum 2);
                                          ("growth_rate", JNum 1)])])))
  = true.
Proof. reflexivity. Qed.

(* ===================================================================== *)
(** ** Selecting the same thing twice *)
(* ===================================================================== *)






(* ===================================================================== *)
(** ** What the client re-attempts by itself *)
(* ===================================================================== *)

Lemma refetchOn_off opts q w : refetchOn opts false q w = w.
Proof.
  unfold refetchOn, shouldFetchOn. rewrite andb_false_r. reflexivity.
Qed.

Lemma refetchAll_off opts qs w : refetchAll opts false qs w = w.
Proof.
  induction qs as [|q r IH]; [reflexivity|].
  rewrite refetchAll_cons, refetchOn_off. exact IH.
Qed.

Lemma fetch_other (k : QueryKey) (q : Query) (w : World) :
  key_eqb (queryKey q) k = false ->
  invocations k (fetch q w) = invocations k w
  /\ slack k (fetch q w) = slack k w.
Proof.
  intros Ek. unfold fetch. destruct (isFetching _); [auto|].
  rewrite invocations_cons, Ek. unfold slack. cbn [cache].
  rewrite entry_store, Ek. auto.
Qed.

(** On reconnect every enabled query of the current selection whose request
    is not already under way is fetched again, once per key. *)
Lemma reconnect_exact (k : QueryKey) (qs : list Query) (w : World) :
  existsb (fun q => enabled q && key_eqb (queryKey q) k) qs = true ->
  invocations k (refetchAll Providers (refetchOnReconnect Providers) qs w)
  = invocations k w + slack k w.
Proof.
  revert w. induction qs as [|q r IH]; intros w H; [discriminate|].
  cbn [existsb] in H. rewrite refetchAll_cons.
  unfold refetchOn at 1. rewrite Providers_reconnect.
  destruct (enabled q) eqn:En; cbn [andb fetch_if] in *.
  - destruct (key_eqb (queryKey q) k) eqn:Ek; cbn [orb] in H.
    + destruct (fetch_exact k q w Ek) as [H0 H1].
      pose proof (refetchAll_count k Providers (refetchOnReconnect Providers)
                    r (fetch q w)). lia.
    + destruct (fetch_other k q w Ek) as [H0 H1].
      rewrite (IH _ H). lia.
  - apply IH, H.
Qed.

(** C2, as stated, fails: with the options of [Providers] the client calls
    a rejected fetcher again by itself, and a request that failed for good is
    sent again when the browser comes back online, the selection being what
    it was. *)
Lemma failed_request_is_reattempted :
  let K := [JStr "strategy"; JStr "swot"; JStr "Technology"; JNull] in
  let select := User (IndustryChange "Technology") in
  let rejected := Settle K (Rejected (HttpError 500)) in
  let w0 := run Providers initialWorld [select] in
  let w1 := step Providers w0 rejected in
  let w4 := run Providers w0 [rejected; rejected; rejected; rejected] in
  let w5 := step Providers w4 Reconnect in
  invocations K w0 = 1
  /\ current w1 = current w0 /\ invocations K w1 = 2
  /\ status (entry K (cache w4)) = Failure
  /\ isFetching (entry K (cache w4)) = false
  /\ invocations K w4 = 4
  /\ current w5 = current w4 /\ invocations K w5 = 5.
Proof. repeat split; reflexivity. Qed.

(** C2, amended.  Regaining the window focus starts no fetcher.  A
    rejection is answered by the client itself: while the key is observed
    and fewer than [retry] attempts have failed (three, [Providers] setting
    none) the same fetcher is called once more and the entry keeps its
    status; otherwise the entry goes to Failure and nothing is called.  When
    the browser comes back online every enabled query of the current
    selection whose request is not under way, failed or not, is fetched
    again, once per key. *)
Theorem automatic_reattempts :
  (forall w, step Providers w WindowFocus = w)
  /\ (forall w k r err,
        let e := entry k (cache w) in
        let w' := step Providers w (Settle k (Rejected err)) in
        inflight e = Some (ApiCall r) ->
        if (failureCount e <? 3)%nat && observed k w
        then calls w' = (k, ApiCall r) :: calls w
             /\ invocations k w' = S (invocations k w)
             /\ status (entry k (cache w')) = status e
             /\ isFetching (entry k (cache w')) = true
        else calls w' = calls w
             /\ status (entry k (cache w')) = Failure
             /\ error (entry k (cache w')) = Some err
             /\ isFetching (entry k (cache w')) = false)
  /\ (forall w q,
        In q (queries (current w) (cache w)) -> enabled q = true ->
        invocations (queryKey q) (step Providers w Reconnect)
        = invocations (queryKey q) w
          + (if isFetching (entry (queryKey q) (cache w)) then 0 else 1)).
Proof.
  split; [|split].
  - intros w. cbn [step]. apply refetchAll_off.
  - intros w k r err e w' Hf. unfold w'. cbn [step]. unfold onSettle.
    fold e. rewrite Hf. cbn [run_queryFn].
    change (retry Providers) with 3.
    destruct ((failureCount e <? 3)%nat && observed k w).
    + cbn [calls cache]. rewrite invocations_cons, key_eqb_refl.
      rewrite entry_store_same. repeat split; reflexivity.
    + cbn [calls cache]. rewrite entry_store_same. repeat split; reflexivity.
  - intros w q Hq En. cbn [step]. apply reconnect_exact.
    apply existsb_exists. exists q. split; [exact Hq|].
    rewrite En, key_eqb_refl. reflexivity.
Qed.

(* ===================================================================== *)
(** ** A pending entry has no data *)
(* ===================================================================== *)

Section Pending.
Variable opts : QueryOptions.

Lemma fetch_pending q w : pendingInv w -> pendingInv (fetch q w).
Proof.
  intros H. unfold fetch. destruct (isFetching _); [exact H|].
  intros k. cbn [cache]. rewrite entry_store.
  destruct (key_eqb (queryKey q) k); [|apply H].
  unfold started.
  destruct (is_undefined (data (entry (queryKey q) (cache w)))) eqn:E;
    cbn [status data].
  - intros _. destruct (data (entry (queryKey q) (cache w)));
      try discriminate E; reflexivity.
  - apply H.
Qed.

Lemma fetch_if_pending b q w : pendingInv w -> pendingInv (fetch_if b q w).
Proof. destruct b; simpl; auto using fetch_pending. Qed.

Lemma fold_fetch_pending {X : Type} (g : World -> X -> bool) (h : X -> Query)
    (xs : list X) w :
  pendingInv w ->
  pendingInv (fold_left (fun w x => fetch_if (g w x) (h x) w) xs w).
Proof.
  revert w. induction xs as [|x r IH]; intros w H; simpl; [exact H|].
  apply IH, fetch_if_pending, H.
Qed.

Lemma mountAll_pending qs w : pendingInv w -> pendingInv (mountAll opts qs w).
Proof. apply (fold_fetch_pending _ (fun q => q)). Qed.

Lemma updateAll_pending ps qs w :
  pendingInv w -> pendingInv (updateAll opts ps qs w).
Proof. apply (fold_fetch_pending _ (fun pq => snd pq)). Qed.

Lemma refetchAll_pending b qs w :
  pendingInv w -> pendingInv (refetchAll opts b qs w).
Proof. apply (fold_fetch_pending _ (fun q => q)). Qed.

Lemma pending_store k e w ks cs :
  pendingInv w -> (status e = Pending -> data e = JUndefined) ->
  pendingInv (mkWorld (page w) ks (store k e (cache w)) cs).
Proof.
  intros H He k'. cbn [cache]. rewrite entry_store.
  destruct (key_eqb k k'); [exact He | apply H].
Qed.

Lemma onSettle_pending k response w :
  pendingInv w -> pendingInv (onSettle opts k response w).
Proof.
  intros H. unfold onSettle.
  destruct (inflight (entry k (cache w))) as [f|]; [|exact H].
  destruct (run_queryFn f response) as [v|err].
  - unfold setOptions. apply fetch_if_pending.
    apply pending_store; [exact H | discriminate].
  - destruct (_ && _); apply pending_store; try exact H.
    + cbn [retried status data]. apply H.
    + discriminate.
Qed.

Lemma onUser_pending e w : pendingInv w -> pendingInv (onUser opts e w).
Proof.
  intros H. unfold onUser. destruct (negb (notifies e (page w))); [exact H|].
  destruct (negb (String.eqb _ _)).
  - apply mountAll_pending. exact H.
  - apply updateAll_pending. exact H.
Qed.

Lemma step_pending w ev : pendingInv w -> pendingInv (step opts w ev).
Proof.
  intros H. destruct ev; cbn [step].
  - apply onUser_pending, H.
  - apply onSettle_pending, H.
  - apply refetchAll_pending, H.
  - apply refetchAll_pending, H.
Qed.

Lemma run_pending evs : pendingInv (run opts initialWorld evs).
Proof.
  apply (run_invariant opts pendingInv).
  - intros k _. reflexivity.
  - intros w ev. apply step_pending.
Qed.

End Pending.

(* ===================================================================== *)
(** ** Insights wait for the market metrics *)
(* ===================================================================== *)

Lemma canon_JStr (v : JsVal) (s : string) : canon v = JStr s -> v = JStr s.
Proof. destruct v; simpl; congruence. Qed.

Lemma market_key_head (i co : option string) (k : QueryKey) :
  key_eqb k (queryKey (marketQuery i co)) = true -> is_market_key k = true.
Proof.
  intros H. apply key_eqb_eq in H. unfold key_eq, hashKey in H.
  cbn [queryKey marketQuery canon map] in H.
  destruct k as [|v r]; [discriminate|].
  cbn [map] in H. injection H as H _. apply canon_JStr in H. subst.
  reflexivity.
Qed.

(** The fetcher under way for a market key is the bare market call. *)
Lemma fetcherFor_market k i co f :
  key_eqb k (queryKey (marketQuery i co)) = true ->
  fetcherFor k f -> f = ApiCall (GetMarketData i co).
Proof.
  intros E (c & P & i' & co' & q & H1 & H2 & H3 & <-).
  assert (E' : key_eqb (queryKey q) (queryKey (marketQuery i co)) = true)
    by (eapply key_eqb_trans; eauto).
  destruct (panel_key_eq _ _ _ _ _ _ _ _ _ _ H1 (pq_market c i co) E')
    as (-> & -> & ->).
  apply (panel_queryFn _ _ _ _ _ H1).
Qed.

(** A panel query whose fetcher is the insights call for [(i, co)] is the
    insights query of [(i, co)]; when it is enabled the market data it was
    built from is truthy. *)
Lemma panel_insights c q i co dat :
  isPanelQuery c q -> queryFn q = ApiCall (GetInsights i co dat) ->
  enabled q = true ->
  truthy (marketData (mkSelection i co) c) = true.
Proof.
  intros (P & i' & co' & Hq) Hf He. destruct Hq; try discriminate.
  cbn [queryFn insightsQuery] in Hf. injection Hf as -> -> _.
  cbn [enabled insightsQuery] in He. apply andb_true_iff in He. tauto.
Qed.

Lemma marketInv_initial : marketInv initialWorld.
Proof.
  split; [|split].
  - intros i co. left. split; [reflexivity | discriminate].
  - intros k i co dat [].
  - intros k i co dat H. discriminate.
Qed.

Lemma truthy_object_or_undefined (v : JsVal) :
  v = JUndefined \/ is_object v = true ->
  truthy v = true -> is_object v = true.
Proof. intros [-> | H] T; [discriminate | exact H]. Qed.

Lemma marketInv_micro w w' :
  micro marketObject w w' -> cacheInv w -> marketInv w -> marketInv w'.
Proof.
  intros Hm [A1 A2] (M1 & M2 & M3).
  assert (M1' : forall i co,
             marketData (mkSelection i co) (cache w) = JUndefined
             \/ is_object (marketData (mkSelection i co) (cache w)) = true).
  { intros i co. unfold marketData. cbn [selectedIndustry selectedCompany].
    destruct (M1 i co) as [[H _]|[H _]]; auto. }
  destruct Hm as [w q Hq He Hi | w k0 f response v Hf Hok Hr | w k0 f Hf
                 | w k0 f response err Hf Hr | w p ks];
    unfold marketInv; cbn [cache calls]; [| | | |auto].
  - (* a fetcher starts: no data changes *)
    assert (Hsame : forall d,
               marketData d (store (queryKey q)
                               (started (queryFn q)
                                  (entry (queryKey q) (cache w))) (cache w))
               = marketData d (cache w)).
    { intros d. symmetry. apply marketData_same_data, same_data_store.
      apply started_data. }
    split; [|split].
    + intros i co. rewrite entry_store.
      destruct (key_eqb (queryKey q) _) eqn:E; [|apply M1].
      specialize (M1 i co). cbv zeta in M1.
      rewrite <- (entry_key_eq _ _ _ E) in M1.
      unfold started. destruct M1 as [[H1 H2]|[H1 H2]].
      * rewrite H1. cbn. left. split; [reflexivity | discriminate].
      * destruct (data (entry (queryKey q) (cache w))); try discriminate.
        cbn. right. auto.
    + intros k i co dat [Hin | Hin]; rewrite Hsame.
      * injection Hin as _ Hfn.
        apply truthy_object_or_undefined; [apply M1'|].
        eapply panel_insights; eauto.
      * eapply M2; eauto.
    + intros k i co dat. rewrite entry_store, Hsame.
      destruct (key_eqb (queryKey q) k) eqn:E; [|apply M3].
      rewrite started_inflight. intros [= Hfn].
      apply truthy_object_or_undefined; [apply M1'|].
      eapply panel_insights; eauto.
  - (* a request resolves: only a market key gets new data, an object *)
    assert (Hobj : forall i co,
               is_object (marketData (mkSelection i co) (cache w)) = true ->
               is_object (marketData (mkSelection i co)
                            (store k0 (succeeded v) (cache w))) = true).
    { intros i co H. unfold marketData in *.
      cbn [selectedIndustry selectedCompany] in *. rewrite entry_store.
      destruct (key_eqb k0 _) eqn:E; [|exact H].
      rewrite (fetcherFor_market _ _ _ _ E (A2 _ _ Hf)) in Hr.
      cbn [run_queryFn] in Hr. subst response.
      apply Hok. eapply market_key_head; eauto. }
    split; [|split].
    + intros i co. rewrite entry_store.
      destruct (key_eqb k0 _) eqn:E; [|apply M1].
      right. split; [|discriminate].
      rewrite (fetcherFor_market _ _ _ _ E (A2 _ _ Hf)) in Hr.
      cbn [run_queryFn] in Hr. subst response.
      apply Hok. eapply market_key_head; eauto.
    + intros k i co dat Hin. apply Hobj. eapply M2; eauto.
    + intros k i co dat. rewrite entry_store.
      destruct (key_eqb k0 k) eqn:E; [discriminate|].
      intros H. apply Hobj. eapply M3; eauto.
  - (* a further attempt: no data changes *)
    assert (Hsame : forall d,
               marketData d (store k0 (retried f (entry k0 (cache w)))
                               (cache w))
               = marketData d (cache w)).
    { intros d. symmetry. apply marketData_same_data, same_data_store.
      reflexivity. }
    split; [|split].
    + intros i co. rewrite entry_store.
      destruct (key_eqb k0 _) eqn:E; [|apply M1].
      specialize (M1 i co). cbv zeta in M1.
      rewrite <- (entry_key_eq _ _ _ E) in M1. exact M1.
    + intros k i co dat [Hin | Hin]; rewrite Hsame.
      * injection Hin as _ Hfn. subst f. eapply M3; eauto.
      * eapply M2; eauto.
    + intros k i co dat. rewrite entry_store, Hsame.
      destruct (key_eqb k0 k) eqn:E; [|apply M3].
      cbn [retried inflight]. intros [= Hfn]. subst f. eapply M3; eauto.
  - (* the request fails: no data changes *)
    assert (Hsame : forall d,
               marketData d (store k0 (failed err (entry k0 (cache w)))
                               (cache w))
               = marketData d (cache w)).
    { intros d. symmetry. apply marketData_same_data, same_data_store.
      reflexivity. }
    split; [|split].
    + intros i co. rewrite entry_store.
      destruct (key_eqb k0 _) eqn:E; [|apply M1].
      specialize (M1 i co). cbv zeta in M1.
      rewrite <- (entry_key_eq _ _ _ E) in M1. cbn [failed data status].
      destruct M1 as [[H1 H2]|[H1 H2]]; [left | right]; split; auto;
        discriminate.
    + intros k i co dat Hin. rewrite Hsame. eapply M2; eauto.
    + intros k i co dat. rewrite entry_store, Hsame.
      destruct (key_eqb k0 k) eqn:E; [discriminate | apply M3].
Qed.

Lemma marketInv_run opts evs :
  Forall marketRespondsWithObject evs ->
  marketInv (run opts initialWorld evs).
Proof.
  intros H.
  assert (G : cacheInv (run opts initialWorld evs)
              /\ marketInv (run opts initialWorld evs)).
  { eapply (micros_invariant marketObject
              (fun w => cacheInv w /\ marketInv w)).
    - intros w w' Hm [H1 H2]. split.
      + eapply cacheInv_micro; eauto.
      + eapply marketInv_micro; eauto.
    - apply run_micros. exact H.
    - split; [apply cacheInv_initial | apply marketInv_initial]. }
  apply G.
Qed.

Lemma hasSelection_iff (d : Selection) :
  wellformed d -> (hasSelection d = true <-> d <> noSelection).
Proof.
  intros [-> | [(s & Hs & ->) | (s & Hs & ->)]];
    unfold hasSelection, prop_truthy, nonempty in *; simpl in *.
  - split; [discriminate | congruence].
  - rewrite Hs. split; [discriminate | reflexivity].
  - rewrite Hs. split; [discriminate | reflexivity].
Qed.

(** An enabled query of the dashboard is not the insights query of a
    selection whose market data are falsy. *)
Lemma queries_quiet (d : Selection) (c : Cache) (i co : option string)
    (q : Query) :
  truthy (marketData (mkSelection i co) c) = false ->
  In q (queries d c) -> enabled q = true ->
  forall dat, queryFn q <> ApiCall (GetInsights i co dat).
Proof.
  intros F Hin En dat. destruct d as [i' co'].
  unfold queries in Hin. cbn [selectedIndustry selectedCompany In] in Hin.
  destruct Hin as [<-|[<-|[<-|[<-|[<-|[<-|[]]]]]]];
    try (cbn [queryFn marketQuery forecastQuery swotQuery growthQuery];
         discriminate).
  cbn [queryFn insightsQuery]. intros [= -> -> _].
  cbn [enabled insightsQuery] in En. apply andb_true_iff in En.
  rewrite F in En. destruct En as [_ En]. discriminate En.
Qed.

Lemma fetch_noInsights (i co : option string) (q : Query) (w : World) :
  (forall dat, queryFn q <> ApiCall (GetInsights i co dat)) ->
  noInsights i co w -> noInsights i co (fetch q w).
Proof.
  intros Hq [H1 H2]. unfold fetch. destruct (isFetching _); [split; assumption|].
  split; cbn [calls cache].
  - intros k dat [E|Hin]; [|exact (H1 _ _ Hin)].
    injection E as _ E. exact (Hq _ E).
  - intros k dat. rewrite entry_store.
    destruct (key_eqb (queryKey q) k); [|apply H2].
    rewrite started_inflight. intros [= E]. exact (Hq _ E).
Qed.

Lemma fold_fetch_noInsights {X : Type} (i co : option string)
    (g : World -> X -> bool) (h : X -> Query) (xs : list X) (w : World) :
  (forall w x, g w x = true -> enabled (h x) = true) ->
  (forall x, In x xs -> enabled (h x) = true ->
             forall dat, queryFn (h x) <> ApiCall (GetInsights i co dat)) ->
  noInsights i co w ->
  noInsights i co (fold_left (fun w x => fetch_if (g w x) (h x) w) xs w).
Proof.
  intros Hg. revert w. induction xs as [|x r IH]; intros w Hq H; simpl;
    [exact H|].
  apply IH; [intros y Hy; apply Hq; right; exact Hy|].
  destruct (g w x) eqn:G; cbn [fetch_if]; [|exact H].
  apply fetch_noInsights; [|exact H].
  apply Hq; [left; reflexivity | exact (Hg _ _ G)].
Qed.

Lemma In_combine_snd {A B : Type} (l : list A) (l' : list B) (x : A * B) :
  In x (combine l l') -> In (snd x) l'.
Proof. destruct x as [a b]. apply in_combine_r. Qed.

(** As long as the market data of a selection are falsy before and after a
    transition, the transition makes no insights call for it. *)
Lemma step_noInsights (opts : QueryOptions) (i co : option string)
    (w : World) (ev : Event) :
  truthy (marketData (mkSelection i co) (cache w)) = false ->
  truthy (marketData (mkSelection i co) (cache (step opts w ev))) = false ->
  noInsights i co w -> noInsights i co (step opts w ev).
Proof.
  intros F F' H. destruct ev as [e | k0 response | |]; cbn [step] in *.
  - unfold onUser. destruct (negb (notifies e (page w))); [exact H|].
    destruct (negb (String.eqb _ _)).
    + apply (fold_fetch_noInsights i co
               (fun w q => shouldFetchOnMount opts q
                             (entry (queryKey q) (cache w)))
               (fun q => q)).
      * intros w0 q. apply shouldFetchOnMount_enabled.
      * intros q. apply queries_quiet. exact F.
      * exact H.
    + apply (fold_fetch_noInsights i co
               (fun w pq => shouldFetchOptionally opts (fst pq) (snd pq)
                              (entry (queryKey (snd pq)) (cache w)))
               (fun pq => snd pq)).
      * intros w0 pq. apply shouldFetchOptionally_enabled.
      * intros pq Hin.
        apply (queries_quiet (selection (handle e (page w))) _ _ _ _ F).
        eapply In_combine_snd. exact Hin.
      * exact H.
  - unfold onSettle in *.
    destruct (inflight (entry k0 (cache w))) as [f|] eqn:Ef; [|exact H].
    destruct H as [H1 H2].
    destruct (run_queryFn f response) as [v|err].
    + set (d := current w) in *.
      set (c' := store k0 (succeeded v) (cache w)) in *.
      set (w1 := mkWorld (page w) _ c' (calls w)) in *.
      assert (Hw1 : noInsights i co w1).
      { split; [exact H1|]. intros k dat. unfold w1, c'. cbn [cache].
        rewrite entry_store. destruct (key_eqb k0 k); [discriminate|apply H2]. }
      unfold setOptions in *.
      match goal with
      | |- noInsights i co (fetch_if ?b ?q w1) =>
          destruct b eqn:B; cbn [fetch_if] in *; [|exact Hw1]
      end.
      apply fetch_noInsights; [|exact Hw1].
      intros dat. cbn [queryFn insightsQuery]. intros [= Ei Eco _].
      apply shouldFetchOptionally_enabled in B.
      cbn [enabled insightsQuery] in B. apply andb_true_iff in B.
      destruct B as [_ B].
      rewrite <- (marketData_same_data _ _ _ (fetch_same_data _ w1)) in F'.
      unfold w1 in F'. cbn [cache] in F'.
      assert (Ed : d = mkSelection i co)
        by (destruct d; cbn [selectedIndustry selectedCompany] in *;
            congruence).
      rewrite Ed in B. rewrite B in F'. discriminate F'.
    + destruct (_ && _); split; cbn [calls cache].
      * intros k dat [E|Hin]; [|exact (H1 _ _ Hin)].
        injection E as _ E. subst f. exact (H2 _ _ Ef).
      * intros k dat. rewrite entry_store.
        destruct (key_eqb k0 k); [|apply H2].
        cbn [retried inflight]. intros [= E]. subst f. exact (H2 _ _ Ef).
      * exact H1.
      * intros k dat. rewrite entry_store.
        destruct (key_eqb k0 k); [discriminate | apply H2].
  - apply (fold_fetch_noInsights i co
             (fun w q => shouldFetchOn opts (refetchOnReconnect opts) q
                           (entry (queryKey q) (cache w)))
             (fun q => q)).
    + intros w0 q. apply shouldFetchOn_enabled.
    + intros q. apply queries_quiet. exact F.
    + exact H.
  - apply (fold_fetch_noInsights i co
             (fun w q => shouldFetchOn opts (refetchOnWindowFocus opts) q
                           (entry (queryKey q) (cache w)))
             (fun q => q)).
    + intros w0 q. apply shouldFetchOn_enabled.
    + intros q. apply queries_quiet. exact F.
    + exact H.
Qed.

(** No insights call is made for a selection whose market data were falsy
    in every state the dashboard went through. *)
Lemma run_noInsights (opts : QueryOptions) (i co : option string)
    (evs : list Event) :
  (forall evs1 evs2, evs = evs1 ++ evs2 ->
     truthy (marketData (mkSelection i co)
               (cache (run opts initialWorld evs1))) = false) ->
  noInsights i co (run opts initialWorld evs).
Proof.
  induction evs as [|ev evs IH] using rev_ind; intros H.
  - split; [intros k dat []|]. intros k dat. discriminate.
  - rewrite run_snoc. apply step_noInsights.
    + apply (H evs [ev]). reflexivity.
    + rewrite <- run_snoc. apply (H (evs ++ [ev]) []).
      symmetry. apply app_nil_r.
    + apply IH. intros evs1 evs2 E. apply (H evs1 (evs2 ++ [ev])).
      rewrite E. symmetry. apply app_assoc.
Qed.

(** C6, as stated, fails in both directions.  A failure of the market
    query does not disable the insights query once market data are cached:
    "Technology" is selected, its market data and insights arrive, the
    connection comes back, the insights are fetched again and the market
    request answers 500 until its attempts are used up; the market entry
    is in the Failure status, the insights query is enabled, and the next
    reconnect calls the insights fetcher a third time.  And a market
    request that has resolved does not enable the insights query when it
    resolved with [null]. *)
Lemma insights_fetched_after_market_failure :
  let K := [JStr "market"; JStr "Technology"; JNull] in
  let body := JObj [("metrics", JObj [("growth_rate", JNum 5)])] in
  let KI := queryKey (insightsQuery (Some "Technology") None body) in
  let summary := JObj [("summary", JStr "steady")] in
  let rejected := Settle K (Rejected (HttpError 500)) in
  let w := run Providers initialWorld
             [User (IndustryChange "Technology"); Settle K (Resolved body);
              Settle KI (Resolved summary); Reconnect;
              Settle KI (Resolved summary);
              rejected; rejected; rejected; rejected] in
  let w' := step Providers w Reconnect in
  let v := run Providers initialWorld
             [User (IndustryChange "Technology"); Settle K (Resolved JNull)] in
  (status (entry K (cache w)) = Failure
   /\ error (entry K (cache w)) = Some (HttpError 500)
   /\ enabled (insightsQuery (Some "Technology") None
                 (marketData (current w) (cache w))) = true
   /\ queryKey (insightsQuery (Some "Technology") None
                  (marketData (current w) (cache w))) = KI
   /\ isFetching (entry KI (cache w)) = false
   /\ invocations KI w = 2
   /\ invocations KI w' = 3
   /\ In (KI, ApiCall (GetInsights (Some "Technology") None
                         (JObj [("growth_rate", JNum 5)])))
         (firstn 2 (calls w')))
  /\ (hasSelection (current v) = true
      /\ status (entry K (cache v)) = Success
      /\ isFetching (entry K (cache v)) = false
      /\ enabled (insightsQuery (Some "Technology") None
                    (marketData (current v) (cache v))) = false).
Proof. vm_compute. repeat split; auto. Qed.

(** C6, amended.  In every state the dashboard reaches: the insights query
    is enabled exactly when something is selected and the data cached for
    the market key of the selection are truthy, whatever the status of the
    market entry; something is selected exactly when the two cells are not
    both null; while the market entry is pending, or holds no data, the
    insights query is disabled; and no insights call has been made or is
    under way for a selection whose market data were falsy in every state
    the dashboard went through (never fetched, the first fetch pending or
    failed).  When the market endpoint answers with JSON objects the last
    can be read off the present state: data arrive with the Success
    status, and no insights call has been made or is under way for a
    selection whose market data are falsy now. *)
Theorem insights_dependent_enablement
    (opts : QueryOptions) (evs : list Event) :
  let w := run opts initialWorld evs in
  let d := current w in
  let market := entry (queryKey (marketQuery (selectedIndustry d)
                                             (selectedCompany d))) (cache w) in
  let insights := insightsQuery (selectedIndustry d) (selectedCompany d)
                                (data market) in
  (enabled insights = true
   <-> hasSelection d = true /\ truthy (data market) = true)
  /\ (hasSelection d = true <-> d <> mkSelection None None)
  /\ (status market = Pending -> enabled insights = false)
  /\ (data market = JUndefined -> enabled insights = false)
  /\ (forall i co,
        (forall evs1 evs2, evs = evs1 ++ evs2 ->
           truthy (data (entry (queryKey (marketQuery i co))
                           (cache (run opts initialWorld evs1)))) = false) ->
        noInsights i co w)
  /\ (Forall marketRespondsWithObject evs ->
      (status market = Success -> truthy (data market) = true)
      /\ (forall i co,
            truthy (data (entry (queryKey (marketQuery i co)) (cache w)))
            = false ->
            noInsights i co w)).
Proof.
  intros w d market insights.
  assert (Hu : data market = JUndefined -> enabled insights = false).
  { intros E. unfold insights. cbn [enabled insightsQuery]. rewrite E.
    apply andb_false_r. }
  split; [|split; [|split; [|split; [|split]]]].
  - unfold insights. cbn [enabled insightsQuery]. unfold sel.
    replace (mkSelection (selectedIndustry d) (selectedCompany d)) with d
      by (destruct d; reflexivity).
    apply andb_true_iff.
  - apply hasSelection_iff, wellformed_current.
  - intros Hs. apply Hu. apply (run_pending opts evs). exact Hs.
  - exact Hu.
  - intros i co H. apply run_noInsights. exact H.
  - intros Hok.
    destruct (marketInv_run opts evs Hok) as (M1 & M2 & M3).
    fold w in M1, M2, M3. split.
    + pose proof (M1 (selectedIndustry d) (selectedCompany d)) as Hm.
      cbv zeta in Hm. fold market in Hm.
      intros Hs. destruct Hm as [[_ H]|[H _]]; [congruence|].
      destruct (data market); try discriminate. reflexivity.
    + intros i co Hr.
      assert (Hno : is_object (marketData (mkSelection i co) (cache w))
                    = false).
      { unfold marketData. cbn [selectedIndustry selectedCompany].
        destruct (data (entry (queryKey (marketQuery i co)) (cache w)));
          try discriminate; reflexivity. }
      split; intros k dat H.
      * rewrite (M2 _ _ _ _ H) in Hno. discriminate.
      * rewrite (M3 _ _ _ _ H) in Hno. discriminate.
Qed.

(** The scenario of the specification: "Technology" is selected and its
    market metrics arrive. *)
Example insights_after_metrics :
  let body := JObj [("metrics", JObj [("growth_rate", JNum (124 # 10));
                                      ("funding_volume", JNum 500000000);
                                      ("market_size", JNum 900000000000)])] in
  let K := [JStr "market"; JStr "Technology"; JNull] in
  let before := run Providers initialWorld
                  [User (IndustryChange "Technology")] in
  let after := run Providers initialWorld
                 [User (IndustryChange "Technology");
                  Settle K (Resolved body)] in
  enabled (insightsQuery (Some "Technology") None (data (entry K (cache before))))
  = false
  /\ noInsights (Some "Technology") None before
  /\ enabled (insightsQuery (Some "Technology") None
                (data (entry K (cache after)))) = true
  /\ requests after
     = GetInsights (Some "Technology") None
         (JObj [("growth_rate", JNum (124 # 10));
                ("funding_volume", JNum 500000000);
                ("market_size", JNum 900000000000)])
       :: requests before.
Proof.
  intros body K before after.
  split; [reflexivity|]. split; [|split; reflexivity].
  apply (run_noInsights Providers _ _ [User (IndustryChange "Technology")]).
  intros evs1 evs2 E. destruct evs1 as [|a [|b r]].
  - reflexivity.
  - injection E as <- _. reflexivity.
  - discriminate E.
Qed.

(* ===================================================================== *)
(** ** The stale-key guard *)
(* ===================================================================== *)

Section StaleKey.
Variable opts : QueryOptions.
Variable S1 : Selection.

Lemma agree_refl w : agree S1 w w.
Proof. repeat split. Qed.

Lemma agree_sym wl wr : agree S1 wl wr -> agree S1 wr wl.
Proof.
  intros (H1 & H2 & H3 & H4). repeat split; auto.
  intros k Hk. symmetry. auto.
Qed.

Lemma agree_trans w1 w2 w3 : agree S1 w1 w2 -> agree S1 w2 w3 -> agree S1 w1 w3.
Proof.
  intros (H1 & H2 & H3 & H4) (G1 & G2 & G3 & G4).
  repeat split; try congruence.
  intros k Hk. rewrite H4, G4; auto.
Qed.

(** The keys of the panels of another selection are not the stale key. *)
Lemma panel_not_stale c P i co q :
  panelQuery c P i co q -> mkSelection i co <> S1 ->
  key_eqb (staleKey S1) (queryKey q) = false.
Proof.
  intros Hq Hd. destruct (key_eqb (staleKey S1) (queryKey q)) eqn:E; auto.
  destruct (panel_key_eq _ _ _ _ _ _ _ _ _ _
              (pq_market c (selectedIndustry S1) (selectedCompany S1)) Hq E)
    as (_ & Hi & Hc).
  exfalso. apply Hd. destruct S1; simpl in *; congruence.
Qed.

Lemma queries_not_stale d c :
  d <> S1 ->
  Forall (fun q => key_eqb (staleKey S1) (queryKey q) = false) (queries d c).
Proof.
  intros Hd. destruct d as [i co]. unfold queries.
  cbn [selectedIndustry selectedCompany].
  repeat constructor;
    apply (panel_not_stale c _ _ _ _ (pq_market c i co) Hd).
Qed.

Lemma market_not_stale d :
  d <> S1 ->
  key_eqb (staleKey S1)
    (queryKey (marketQuery (selectedIndustry d) (selectedCompany d)))
  = false.
Proof.
  intros Hd. eapply (panel_not_stale []); [constructor|].
  destruct d; exact Hd.
Qed.

Lemma insights_not_stale i co md :
  key_eqb (staleKey S1) (queryKey (insightsQuery i co md)) = false.
Proof. unfold staleKey. key_compute. reflexivity. Qed.

Lemma agree_marketData wl wr d :
  agree S1 wl wr -> d <> S1 ->
  marketData d (cache wl) = marketData d (cache wr).
Proof.
  intros (_ & _ & _ & H) Hd. unfold marketData. f_equal.
  apply H, market_not_stale, Hd.
Qed.

Lemma agree_queries wl wr d :
  agree S1 wl wr -> d <> S1 ->
  queries d (cache wl) = queries d (cache wr).
Proof.
  intros H Hd. unfold queries. rewrite (agree_marketData _ _ _ H Hd).
  reflexivity.
Qed.

Lemma agree_current wl wr : agree S1 wl wr -> current wl = current wr.
Proof. intros (H & _). unfold current. congruence. Qed.

Lemma agree_store wl wr k e p ks cs :
  agree S1 wl wr ->
  agree S1 (mkWorld p ks (store k e (cache wl)) cs)
        (mkWorld p ks (store k e (cache wr)) cs).
Proof.
  intros (_ & _ & _ & H). repeat split. intros k' Hk. cbn [cache].
  rewrite !entry_store. destruct (key_eqb k k'); auto.
Qed.

Lemma agree_fetch wl wr q :
  agree S1 wl wr -> key_eqb (staleKey S1) (queryKey q) = false ->
  agree S1 (fetch q wl) (fetch q wr).
Proof.
  intros H Hq. pose proof H as (H1 & H2 & H3 & H4).
  unfold fetch. rewrite (H4 _ Hq), H1, H2, H3.
  destruct (isFetching _).
  - exact H.
  - apply agree_store. exact H.
Qed.

Lemma agree_fetch_if wl wr b q :
  agree S1 wl wr -> key_eqb (staleKey S1) (queryKey q) = false ->
  agree S1 (fetch_if b q wl) (fetch_if b q wr).
Proof. intros H Hq. destruct b; simpl; auto using agree_fetch. Qed.

Lemma agree_subscribe wl wr q :
  agree S1 wl wr -> key_eqb (staleKey S1) (queryKey q) = false ->
  agree S1 (subscribe opts q wl) (subscribe opts q wr).
Proof.
  intros H Hq. unfold subscribe.
  destruct H as (H1 & H2 & H3 & H4). rewrite (H4 _ Hq).
  apply agree_fetch_if; [repeat split; auto | exact Hq].
Qed.

Lemma agree_setOptions wl wr p q :
  agree S1 wl wr -> key_eqb (staleKey S1) (queryKey q) = false ->
  agree S1 (setOptions opts p q wl) (setOptions opts p q wr).
Proof.
  intros H Hq. unfold setOptions.
  destruct H as (H1 & H2 & H3 & H4). rewrite (H4 _ Hq).
  apply agree_fetch_if; [repeat split; auto | exact Hq].
Qed.

Lemma agree_refetchOn wl wr b q :
  agree S1 wl wr -> key_eqb (staleKey S1) (queryKey q) = false ->
  agree S1 (refetchOn opts b q wl) (refetchOn opts b q wr).
Proof.
  intros H Hq. unfold refetchOn.
  destruct H as (H1 & H2 & H3 & H4). rewrite (H4 _ Hq).
  apply agree_fetch_if; [repeat split; auto | exact Hq].
Qed.

Lemma agree_mountAll qs wl wr :
  Forall (fun q => key_eqb (staleKey S1) (queryKey q) = false) qs ->
  agree S1 wl wr -> agree S1 (mountAll opts qs wl) (mountAll opts qs wr).
Proof.
  intros Hq. revert wl wr. induction Hq as [|q r Hq Hr IH]; intros wl wr H.
  - exact H.
  - rewrite !mountAll_cons. apply IH, agree_subscribe; assumption.
Qed.

Lemma agree_refetchAll b qs wl wr :
  Forall (fun q => key_eqb (staleKey S1) (queryKey q) = false) qs ->
  agree S1 wl wr -> agree S1 (refetchAll opts b qs wl) (refetchAll opts b qs wr).
Proof.
  intros Hq. revert wl wr. induction Hq as [|q r Hq Hr IH]; intros wl wr H.
  - exact H.
  - rewrite !refetchAll_cons. apply IH, agree_refetchOn; assumption.
Qed.

Lemma agree_updateAll ps qs wl wr :
  Forall (fun q => key_eqb (staleKey S1) (queryKey q) = false) qs ->
  agree S1 wl wr -> agree S1 (updateAll opts ps qs wl) (updateAll opts ps qs wr).
Proof.
  intros Hq. revert ps wl wr.
  induction Hq as [|q r Hq Hr IH]; intros [|p ps] wl wr H; try exact H.
  rewrite !updateAll_cons. apply IH, agree_setOptions; assumption.
Qed.
End StaleKey.

Section StaleSteps.
Variable opts : QueryOptions.
Variable S1 : Selection.

Lemma stale_apart k k' :
  key_eqb (staleKey S1) k = true -> key_eqb (staleKey S1) k' = false ->
  key_eqb k k' = false.
Proof.
  intros H1 H2. destruct (key_eqb k k') eqn:E; auto.
  rewrite (key_eqb_trans _ _ _ H1 E) in H2. discriminate.
Qed.

Lemma not_observed_stale w k :
  current w <> S1 -> key_eqb (staleKey S1) k = true -> observed k w = false.
Proof.
  intros Hd Hk. unfold observed.
  pose proof (queries_not_stale S1 (current w) (cache w) Hd) as H.
  induction H as [|q r Hq Hr IH]; [reflexivity|].
  cbn [existsb]. rewrite IH, orb_false_r.
  rewrite key_eqb_sym. eapply stale_apart; eauto.
Qed.

Lemma setOptions_same p w : setOptions opts p p w = w.
Proof.
  unfold setOptions, shouldFetchOptionally. rewrite key_eqb_refl.
  cbn [negb orb]. destruct (enabled p); reflexivity.
Qed.

(** A response for the stale key changes nothing but the entry of that
    key. *)
Lemma settle_stale w k response :
  current w <> S1 -> key_eqb (staleKey S1) k = true ->
  agree S1 (onSettle opts k response w) w.
Proof.
  intros Hd Hk. unfold onSettle.
  destruct (inflight (entry k (cache w))) as [f|]; [|apply agree_refl].
  assert (Hst : forall e p ks cs,
             p = page w -> ks = kpis w -> cs = calls w ->
             agree S1 (mkWorld p ks (store k e (cache w)) cs) w).
  { intros e p ks cs -> -> ->. repeat split. intros k' Hk'. cbn [cache].
    rewrite entry_store, (stale_apart _ _ Hk Hk'). reflexivity. }
  destruct (run_queryFn f response) as [v|err].
  - assert (Hmd : marketData (current w) (store k (succeeded v) (cache w))
                  = marketData (current w) (cache w)).
    { unfold marketData. rewrite entry_store.
      rewrite (stale_apart _ _ Hk (market_not_stale S1 _ Hd)). reflexivity. }
    rewrite Hmd, JsVal_eqb_refl, setOptions_same. apply Hst; reflexivity.
  - rewrite (not_observed_stale w k Hd Hk), andb_false_r.
    apply Hst; reflexivity.
Qed.

Lemma agree_observed wl wr k :
  agree S1 wl wr -> current wl <> S1 -> observed k wl = observed k wr.
Proof.
  intros H Hd. unfold observed.
  rewrite <- (agree_current _ _ _ H), (agree_queries _ _ _ _ H Hd).
  reflexivity.
Qed.

Lemma agree_onSettle wl wr k response :
  agree S1 wl wr -> current wl <> S1 ->
  agree S1 (onSettle opts k response wl) (onSettle opts k response wr).
Proof.
  intros H Hd.
  assert (Hd' : current wr <> S1) by (rewrite <- (agree_current _ _ _ H); auto).
  destruct (key_eqb (staleKey S1) k) eqn:Hk.
  { eapply agree_trans; [apply settle_stale; assumption|].
    eapply agree_trans; [exact H|].
    apply agree_sym, settle_stale; assumption. }
  unfold onSettle. pose proof H as (H1 & H2 & H3 & H4).
  rewrite (agree_observed _ _ k H Hd).
  rewrite <- (agree_current _ _ _ H).
  rewrite (H4 _ Hk), H1, H2, H3.
  destruct (inflight (entry k (cache wr))) as [f|]; [|exact H].
  destruct (run_queryFn f response) as [v|err].
  - assert (Hc : agree S1
                   (mkWorld (page wr) (kpis wr)
                      (store k (succeeded v) (cache wl)) (calls wr))
                   (mkWorld (page wr) (kpis wr)
                      (store k (succeeded v) (cache wr)) (calls wr)))
      by (apply agree_store; exact H).
    rewrite (agree_marketData _ _ _ _ H Hd).
    pose proof (agree_marketData _ _ _ _ Hc Hd) as Hmd.
    cbn [cache] in Hmd. rewrite Hmd.
    set (ks := if JsVal_eqb _ _ then _ else _).
    apply agree_setOptions; [|apply insights_not_stale].
    apply (agree_store S1 wl wr k (succeeded v) (page wr) ks (calls wr) H).
  - destruct (_ && _); apply agree_store; exact H.
Qed.

Lemma agree_onUser wl wr e :
  agree S1 wl wr -> current wl <> S1 -> target e <> S1 ->
  agree S1 (onUser opts e wl) (onUser opts e wr).
Proof.
  intros H Hd He. pose proof H as (H1 & H2 & H3 & H4).
  assert (Hd' : current wr = current wl)
    by (symmetry; apply (agree_current _ _ _ H)).
  unfold onUser. rewrite Hd', H1, H2, H3, !selection_handle.
  rewrite (agree_marketData _ _ _ _ H He).
  rewrite (agree_queries _ _ _ _ H He), (agree_queries _ _ _ _ H Hd).
  destruct (negb (notifies e (page wr))).
  { repeat split. exact H4. }
  set (ks := run_effect _ _ _).
  assert (Hw : agree S1 (mkWorld (handle e (page wr)) ks (cache wl) (calls wr))
                        (mkWorld (handle e (page wr)) ks (cache wr) (calls wr)))
    by (repeat split; exact H4).
  destruct (negb (String.eqb _ _)).
  - apply agree_mountAll; [apply queries_not_stale, He | exact Hw].
  - apply agree_updateAll; [apply queries_not_stale, He | exact Hw].
Qed.

Lemma agree_step wl wr ev :
  agree S1 wl wr -> current wl <> S1 -> avoids S1 ev ->
  agree S1 (step opts wl ev) (step opts wr ev).
Proof.
  intros H Hd Hev. destruct ev as [e | k response | |]; cbn [step].
  - apply agree_onUser; assumption.
  - apply agree_onSettle; assumption.
  - rewrite <- (agree_current _ _ _ H), (agree_queries _ _ _ _ H Hd).
    apply agree_refetchAll; [apply queries_not_stale, Hd | exact H].
  - rewrite <- (agree_current _ _ _ H), (agree_queries _ _ _ _ H Hd).
    apply agree_refetchAll; [apply queries_not_stale, Hd | exact H].
Qed.

Lemma agree_run evs :
  Forall (avoids S1) evs ->
  forall wl wr,
    agree S1 wl wr -> current wl <> S1 ->
    agree S1 (run opts wl evs) (run opts wr evs)
    /\ current (run opts wl evs) <> S1.
Proof.
  intros Hevs. induction Hevs as [|ev r Hev Hr IH]; intros wl wr H Hd.
  - split; assumption.
  - cbn [run fold_left]. apply IH.
    + apply agree_step; assumption.
    + rewrite step_current. destruct ev; auto.
Qed.

(** Worlds that agree off the stale key show the same screen. *)
Lemma agree_screen wl wr :
  agree S1 wl wr -> current wl <> S1 -> screen wl = screen wr.
Proof.
  intros H Hd. pose proof H as (H1 & H2 & H3 & H4).
  unfold screen. rewrite <- (agree_current _ _ _ H), H2. f_equal.
  - unfold renderTrendChart. rewrite H4; auto.
  - unfold renderSWOTMatrix. rewrite H4; auto.
  - unfold renderAISummary.
    rewrite (agree_marketData _ _ _ _ H Hd), H4; auto.
  - unfold renderStrategicRecommendations. rewrite H4; auto.
Qed.
End StaleSteps.

(** C1.  The selection is [S2] and the market request issued for another
    selection [S1] settles late.  The response goes to the entry of the key
    of [S1] only: the five panels render as before, the local state of
    [KPICards] and the log of fetcher calls are unchanged, every entry read
    by the panels of [S2] is untouched, and whatever happens next, as long as
    [S1] is not selected again, the screen is what it would have been
    without the late response. *)
Theorem stale_key_guard
    (opts : QueryOptions) (S1 S2 : Selection) (w : World)
    (response : Outcome) (evs : list Event) :
  S1 <> S2 -> current w = S2 -> Forall (avoids S1) evs ->
  let late := step opts w (Settle (staleKey S1) response) in
  screen late = screen w
  /\ kpis late = kpis w
  /\ calls late = calls w
  /\ queries S2 (cache late) = queries S2 (cache w)
  /\ Forall (fun q => entry (queryKey q) (cache late)
                      = entry (queryKey q) (cache w))
            (queries S2 (cache w))
  /\ screen (run opts late evs) = screen (run opts w evs).
Proof.
  intros Hne Hcur Hevs late.
  assert (Hd : current w <> S1) by congruence.
  assert (Ha : agree S1 late w)
    by (apply settle_stale; [exact Hd | apply key_eqb_refl]).
  assert (Hl : current late <> S1)
    by (rewrite (agree_current _ _ _ Ha); exact Hd).
  pose proof Ha as (H1 & H2 & H3 & H4).
  split; [apply (agree_screen S1); assumption|].
  split; [exact H2|]. split; [exact H3|].
  split; [apply (agree_queries S1); [exact Ha | congruence]|].
  split.
  - pose proof (queries_not_stale S1 S2 (cache w)) as Hq.
    eapply Forall_impl; [|apply Hq; congruence].
    intros q Hk. apply H4, Hk.
  - destruct (agree_run opts S1 evs Hevs late w Ha Hl) as [Hr Hc].
    apply (agree_screen S1); assumption.
Qed.

(** The scenario of the specification: "Apple" is selected, then "Finance"
    before the market request for "Apple" has come back. *)
Lemma stale_key_guard_witness :
  let apple := mkSelection None (Some "Apple") in
  let finance := mkSelection (Some "Finance") None in
  let w := run Providers initialWorld
             [User ClickCompany; User (CompanyChange "Apple");
              User ClickIndustry; User (IndustryChange "Finance")] in
  let body := JObj [("metrics", JObj [("growth_rate", JNum (124 # 10))])] in
  let late := step Providers w (Settle (staleKey apple) (Resolved body)) in
  current w = finance
  /\ isFetching (entry (staleKey apple) (cache w)) = true
  /\ data (entry (staleKey apple) (cache late)) = body
  /\ screen late = screen w
  /\ screen (run Providers late [Reconnect]) = screen (run Providers w [Reconnect]).
Proof.
  intros apple finance w body late.
  assert (Hne : apple <> finance) by discriminate.
  assert (Hcur : current w = finance) by reflexivity.
  assert (Hevs : Forall (avoids apple) [Reconnect]) by (repeat constructor).
  destruct (stale_key_guard Providers apple finance w (Resolved body)
              [Reconnect] Hne Hcur Hevs) as (H1 & _ & _ & _ & _ & H6).
  split; [exact Hcur|]. split; [reflexivity|]. split; [reflexivity|].
  split; [exact H1 | exact H6].
Defined.

(* ===================================================================== *)
(** ** White space around a company name *)
(* ===================================================================== *)


Lemma trim_strip (s : string) :
  trim s = string_of_list_ascii (strip (list_ascii_of_string s)).
Proof. reflexivity. Qed.








Section Tokens.
Variable token : list ascii -> option (list ascii).
Hypothesis token_suffix :
  forall l r, token l = Some r -> exists t, t <> [] /\ l = (t ++ r)%list.

Lemma token_nil : token [] = None.
Proof.
  destruct (token []) as [r|] eqn:E; [|reflexivity].
  destruct (token_suffix _ _ E) as (t & Ht & H).
  destruct t; [congruence | discriminate H].
Qed.

Lemma token_shorter l r : token l = Some r -> List.length r < List.length l.
Proof.
  intros E. destruct (token_suffix _ _ E) as (t & Ht & ->).
  rewrite length_app. destruct t; [congruence | simpl; lia].
Qed.


Lemma drop_tokens_clear n l :
  List.length l <= n -> token (drop_tokens token n l) = None.
Proof.
  revert l. induction n as [|n IH]; intros l Hn.
  - destruct l; [apply token_nil | simpl in Hn; lia].
  - simpl. destruct (token l) as [r|] eqn:E; [|exact E].
    pose proof (token_shorter _ _ E). apply IH; lia.
Qed.

Lemma drop_tokens_fixed n l : token l = None -> drop_tokens token n l = l.
Proof. intros E. destruct n; simpl; [reflexivity | now rewrite E]. Qed.

Lemma drop_tokens_suffix n l :
  exists p, l = (p ++ drop_tokens token n l)%list.
Proof.
  revert l. induction n as [|n IH]; intros l.
  - exists []. reflexivity.
  - simpl. destruct (token l) as [r|] eqn:E; [|exists []; reflexivity].
    destruct (token_suffix _ _ E) as (t & _ & ->).
    destruct (IH r) as (p & Hp). exists (t ++ p)%list.
    rewrite <- app_assoc, <- Hp. reflexivity.
Qed.

End Tokens.

Lemma space_token_suffix (l r : list ascii) :
  space_token l = Some r -> exists t, t <> [] /\ l = (t ++ r)%list.
Proof.
  destruct l as [|c1 [|c2 [|c3 r3]]]; simpl; try discriminate;
    repeat match goal with
           | |- context [if ?b then _ else _] => destruct b
           end;
    intros H; try discriminate H; injection H as <-.
  all: first [ exists [c1]; split; [discriminate | reflexivity]
             | exists [c1; c2]; split; [discriminate | reflexivity]
             | exists [c1; c2; c3]; split; [discriminate | reflexivity] ].
Qed.

Lemma space_token_end_suffix (l r : list ascii) :
  space_token_end l = Some r -> exists t, t <> [] /\ l = (t ++ r)%list.
Proof.
  destruct l as [|c1 [|c2 [|c3 r3]]]; simpl; try discriminate;
    repeat match goal with
           | |- context [if ?b then _ else _] => destruct b
           end;
    intros H; try discriminate H; injection H as <-.
  all: first [ exists [c1]; split; [discriminate | reflexivity]
             | exists [c1; c2]; split; [discriminate | reflexivity]
             | exists [c1; c2; c3]; split; [discriminate | reflexivity] ].
Qed.

Lemma drop_space_clear (l : list ascii) : space_token (drop_space l) = None.
Proof.
  apply (drop_tokens_clear _ space_token_suffix). apply Nat.le_refl.
Qed.

Lemma drop_space_end_clear (l : list ascii) :
  space_token_end (drop_space_end l) = None.
Proof.
  apply (drop_tokens_clear _ space_token_end_suffix). apply Nat.le_refl.
Qed.

Lemma drop_space_fixed (l : list ascii) :
  space_token l = None -> drop_space l = l.
Proof. apply drop_tokens_fixed. Qed.

Lemma drop_space_end_fixed (l : list ascii) :
  space_token_end l = None -> drop_space_end l = l.
Proof. apply drop_tokens_fixed. Qed.







(** No white space at the head of a string, none at the head of its
    beginnings. *)
Lemma space_token_prefix (y t : list ascii) :
  space_token (y ++ t) = None -> y <> [] -> space_token y = None.
Proof.
  destruct y as [|c1 [|c2 [|c3 r3]]]; simpl; try congruence;
    repeat match goal with
           | |- context [if ?b then _ else _] => destruct b eqn:?
           end;
    try discriminate; try reflexivity.
  all: destruct t as [|a [|b t]]; simpl;
    repeat match goal with
           | |- context [if ?b then _ else _] => destruct b eqn:?
           end;
    try discriminate; reflexivity.
Qed.




Lemma last_rev {A : Type} (l : list A) (d : A) : last (rev l) d = hd d l.
Proof. destruct l as [|a l]; simpl; [reflexivity | apply last_last]. Qed.


(** What [strip] leaves starts where the string without its leading white
    space starts. *)
Lemma strip_prefix (l : list ascii) :
  exists p, drop_space l = (strip l ++ p)%list.
Proof.
  unfold strip.
  destruct (drop_tokens_suffix _ space_token_end_suffix
              (List.length (rev (drop_space l))) (rev (drop_space l)))
    as (p & Hp).
  fold (drop_space_end (rev (drop_space l))) in Hp.
  exists (rev p). rewrite <- rev_app_distr, <- Hp. symmetry.
  apply rev_involutive.
Qed.

Lemma strip_head (l : list ascii) : space_token (strip l) = None.
Proof.
  destruct (strip_prefix l) as (p & Hp).
  destruct (strip l) as [|c y] eqn:E; [reflexivity|].
  apply (space_token_prefix _ p); [|discriminate].
  rewrite <- Hp. apply drop_space_clear.
Qed.

(** What is left has no white space at either end. *)
Lemma strip_clear (l : list ascii) : clear_ends (strip l) = true.
Proof.
  pose proof (strip_head l) as H.
  pose proof (drop_space_end_clear (rev (drop_space l))) as H'.
  assert (R : rev (strip l) = drop_space_end (rev (drop_space l)))
    by (unfold strip; apply rev_involutive).
  destruct (strip l) as [|c y] eqn:E; [reflexivity|].
  unfold clear_ends.
  assert (A1 : is_space c = false).
  { simpl in H. destruct (is_space c); [discriminate H | reflexivity]. }
  rewrite A1. cbn [negb andb].
  rewrite <- (rev_involutive (c :: y)), last_rev, R.
  destruct (drop_space_end (rev (drop_space l))) as [|b z] eqn:Z.
  - simpl. now rewrite A1.
  - simpl in H' |- *. destruct (is_space b); [discriminate H' | reflexivity].
Qed.

Lemma strip_idempotent (l : list ascii) : strip (strip l) = strip l.
Proof.
  assert (R : rev (strip l) = drop_space_end (rev (drop_space l)))
    by (unfold strip; apply rev_involutive).
  unfold strip at 1. rewrite (drop_space_fixed _ (strip_head l)), R.
  rewrite (drop_space_end_fixed _ (drop_space_end_clear _)).
  reflexivity.
Qed.


Lemma trim_trimmed (s : string) : trimmed (trim s) = true.
Proof.
  unfold trimmed. rewrite trim_strip, list_ascii_of_string_of_list_ascii.
  apply strip_clear.
Qed.

Lemma trim_idempotent (s : string) : trim (trim s) = trim s.
Proof.
  rewrite (trim_strip (trim s)), trim_strip.
  now rewrite list_ascii_of_string_of_list_ascii, strip_idempotent.
Qed.




(** X2.  In every state the dashboard reaches, a selected company is not
    empty, has no white space at either end (trimming it again changes
    nothing) and stands alone: no industry is selected with it. *)
Theorem selected_company_is_trimmed (opts : QueryOptions)
    (evs : list Event) (s : string) :
  selectedCompany (current (run opts initialWorld evs)) = Some s ->
  nonempty s = true /\ trimmed s = true /\ trim s = s
  /\ selectedIndustry (current (run opts initialWorld evs)) = None.
Proof.
  revert s.
  apply (run_invariant opts
           (fun w => forall s, selectedCompany (current w) = Some s ->
                               nonempty s = true /\ trimmed s = true
                               /\ trim s = s
                               /\ selectedIndustry (current w) = None)).
  - intros s H. discriminate H.
  - intros w ev IH s. rewrite step_current. destruct ev as [e| | |]; auto.
    destruct e as [v|v| |]; simpl.
    + destruct (nonempty v); simpl; discriminate.
    + destruct (nonempty (trim v)) eqn:E; simpl; [|discriminate].
      intros H. injection H as <-.
      repeat split; auto using trim_trimmed, trim_idempotent.
    + discriminate.
    + discriminate.
Qed.

Lemma selected_company_is_trimmed_witness :
  selectedCompany
    (current (run Providers initialWorld [User (CompanyChange "  Apple ")]))
  = Some "Apple"
  /\ trim "Apple" = "Apple".
Proof.
  assert (H : selectedCompany
                (current (run Providers initialWorld
                            [User (CompanyChange "  Apple ")]))
              = Some "Apple") by reflexivity.
  split; [exact H|].
  exact (proj1 (proj2 (proj2 (selected_company_is_trimmed
                                Providers _ "Apple" H)))).
Defined.

(* ===================================================================== *)
(** ** The drop-down and the selection stay in step *)
(* ===================================================================== *)

Lemma mem_In (s : string) (l : list string) : mem s l = true -> In s l.
Proof.
  unfold mem. intros H. apply existsb_exists in H.
  destruct H as (x & Hx & E). apply String.eqb_eq in E. now subst.
Qed.

(** Every option of either drop-down is trimmed already, has no hyphen and
    is not the text a missing prop prints as. *)
Lemma option_plain (m : MarketSearch) (v : string) :
  mem v (optionValues m) = true ->
  trim v = v /\ dashless v = true /\ String.eqb v "null" = false.
Proof.
  intros H. apply mem_In in H. destruct m as [[|] sv]; simpl in H;
    repeat (destruct H as [<- | H]; [now vm_compute|]); contradiction.
Qed.

Lemma offers_step (p : Page) (e : UserEvent) :
  offers p e = true ->
  selection p = shown (search p) ->
  selection (handle e p) = shown (search (handle e p))
  /\ mem (searchValue (search (handle e p)))
         (optionValues (search (handle e p))) = true.
Proof.
  intros Ho _. destruct p as [[t sv] d]. destruct e as [v|v| |].
  - destruct t; cbn [offers search searchType] in Ho; [|discriminate Ho].
    assert (S : search (handleIndustryChange v
                          (mkPage (mkMarketSearch byIndustry sv) d))
                = mkMarketSearch byIndustry v).
    { unfold handleIndustryChange, seq. destruct (nonempty v); reflexivity. }
    cbn [handle]. rewrite selection_handleIndustryChange, S.
    split; [reflexivity | exact Ho].
  - destruct t; cbn [offers search searchType] in Ho; [discriminate Ho|].
    assert (S : search (handleCompanyChange v
                          (mkPage (mkMarketSearch byCompany sv) d))
                = mkMarketSearch byCompany v).
    { unfold handleCompanyChange, seq.
      destruct (nonempty (trim v)); reflexivity. }
    destruct (option_plain _ v Ho) as (T & _).
    cbn [handle]. rewrite selection_handleCompanyChange, S, T.
    split; [reflexivity | exact Ho].
  - split; reflexivity.
  - split; reflexivity.
Qed.

Lemma handles_snoc (es : list UserEvent) (e : UserEvent) (p : Page) :
  handles (es ++ [e]) p = handle e (handles es p).
Proof. unfold handles. rewrite fold_left_app. reflexivity. Qed.

Lemma offered_snoc (es : list UserEvent) (e : UserEvent) (p : Page) :
  offered p (es ++ [e]) = offered p es && offers (handles es p) e.
Proof.
  revert p. induction es as [|a r IH]; intros p; simpl.
  - now rewrite andb_true_r.
  - rewrite IH. unfold handles. simpl. now rewrite andb_assoc.
Qed.

Lemma offered_shown (es : list UserEvent) :
  offered initialPage es = true ->
  selection (handles es initialPage) = shown (search (handles es initialPage))
  /\ mem (searchValue (search (handles es initialPage)))
         (optionValues (search (handles es initialPage))) = true.
Proof.
  induction es as [|e r IH] using rev_ind.
  - intros _. split; reflexivity.
  - rewrite offered_snoc, handles_snoc. intros H.
    apply andb_true_iff in H. destruct H as [Hr He].
    apply offers_step; [exact He | apply IH, Hr].
Qed.

(** X3.  As long as the handlers are raised by what [MarketSearch] renders
    (the two buttons, and the one drop-down on screen changing to one of its
    options), the value the drop-down displays is one of its options and the
    selection of the page is exactly the one the drop-down stands for: the
    industry shown in industry mode, the company shown in company mode,
    nothing for the placeholder. *)
Theorem dropdown_shows_selection (es : list UserEvent) :
  offered initialPage es = true ->
  let p := handles es initialPage in
  selection p = shown (search p)
  /\ In (searchValue (search p)) (optionValues (search p)).
Proof.
  intros H p. destruct (offered_shown es H) as [H1 H2].
  split; [exact H1 | apply mem_In, H2].
Qed.

Lemma dropdown_shows_selection_witness :
  selection (handles [ClickCompany; CompanyChange "Apple"] initialPage)
  = mkSelection None (Some "Apple").
Proof.
  exact (proj1 (dropdown_shows_selection
                  [ClickCompany; CompanyChange "Apple"] eq_refl)).
Defined.

(* ===================================================================== *)
(** ** The React keys of the panels *)
(* ===================================================================== *)

(** Up to the first hyphen. *)
Lemma dash_split (s s' x y : string) :
  dashless s = true -> dashless s' = true ->
  (s ++ "-" ++ x = s' ++ "-" ++ y)%string -> s = s' /\ x = y.
Proof.
  revert s'. induction s as [|c s IH]; intros [|c' s'] Hs Hs' H; simpl in *.
  - injection H as ->. auto.
  - injection H as <- _. unfold dashless in Hs'. simpl in Hs'. discriminate.
  - injection H as -> _. unfold dashless in Hs. simpl in Hs. discriminate.
  - injection H as <- H. unfold dashless in *. simpl in Hs, Hs'.
    apply andb_true_iff in Hs. apply andb_true_iff in Hs'.
    destruct (IH s' (proj2 Hs) (proj2 Hs') H) as [-> ->]. auto.
Qed.

Lemma plain_industry (s : string) :
  plain (mkSelection (Some s) None) = true ->
  dashless s = true /\ s <> "null".
Proof.
  unfold plain. simpl. rewrite andb_true_r. intros H.
  apply andb_true_iff in H. destruct H as [H1 H2].
  split; [exact H1|]. apply negb_true_iff in H2. now apply String.eqb_neq.
Qed.

Lemma plain_company (s : string) :
  plain (mkSelection None (Some s)) = true ->
  dashless s = true /\ s <> "null".
Proof.
  unfold plain. simpl. intros H.
  apply andb_true_iff in H. destruct H as [H1 H2].
  split; [exact H1|]. apply negb_true_iff in H2. now apply String.eqb_neq.
Qed.

(** Same key, same selection. *)
Lemma reactKey_eq (d d' : Selection) :
  wellformed d -> wellformed d' -> plain d = true -> plain d' = true ->
  reactKey d = reactKey d' -> d = d'.
Proof.
  assert (N : dashless "null" = true) by reflexivity.
  intros W W' P P' H.
  destruct W as [->|[(s & _ & ->)|(s & _ & ->)]];
    destruct W' as [->|[(t & _ & ->)|(t & _ & ->)]];
    try apply plain_industry in P; try apply plain_company in P;
    try apply plain_industry in P'; try apply plain_company in P';
    unfold reactKey in H;
    cbn [selectedIndustry selectedCompany show_prop noSelection] in H.
  - reflexivity.
  - destruct P' as [D Ne].
    destruct (dash_split "null" t "null" "null" N D H) as [E _].
    congruence.
  - destruct P' as [D Ne]. simpl in H. injection H as H. congruence.
  - destruct P as [D Ne].
    destruct (dash_split s "null" "null" "null" D N H) as [E _].
    congruence.
  - destruct (dash_split s t "null" "null" (proj1 P) (proj1 P') H) as [E _].
    now subst.
  - destruct P as [D Ne].
    destruct (dash_split s "null" "null" t D N H) as [E _]. congruence.
  - destruct P as [D Ne]. simpl in H. injection H as H. congruence.
  - destruct P' as [D Ne].
    destruct (dash_split "null" t s "null" N D H) as [E _]. congruence.
  - simpl in H. injection H as H. now subst.
Qed.

(** X4.  The React key separates the selections the handlers produce, as
    long as no selected value contains a hyphen or is the text "null": two
    such selections with the same key are the same selection.  The side
    conditions are needed: the industry "null" has the key of the empty
    selection. *)
Theorem reactKey_injective (d d' : Selection) :
  wellformed d -> wellformed d' -> plain d = true -> plain d' = true ->
  reactKey d = reactKey d' -> d = d'.
Proof. apply reactKey_eq. Qed.

Lemma reactKey_injective_witness :
  reactKey (mkSelection (Some "Finance") None)
  = reactKey (mkSelection (Some "Finance") None)
  /\ mkSelection (Some "Finance") None = mkSelection (Some "Finance") None.
Proof.
  split; [reflexivity|].
  apply reactKey_injective; try reflexivity;
    right; left; exists "Finance"; split; reflexivity.
Defined.

(** The side conditions of [reactKey_injective] cannot be dropped. *)
Example reactKey_collision :
  wellformed (mkSelection (Some "null") None)
  /\ reactKey (mkSelection (Some "null") None) = reactKey noSelection.
Proof.
  split; [|reflexivity]. right; left. exists "null". split; reflexivity.
Qed.

Lemma page_run (opts : QueryOptions) (evs : list Event) (w : World) :
  page (run opts w evs) = handles (users evs) (page w).
Proof.
  revert w. induction evs as [|ev r IH]; intros w; [reflexivity|].
  change (run opts w (ev :: r)) with (run opts (step opts w ev) r).
  rewrite IH. unfold users, handles. cbn [flat_map].
  rewrite fold_left_app. f_equal.
  destruct ev; cbn [step fold_left].
  - apply onUser_page.
  - apply onSettle_page.
  - apply refetchAll_page.
  - apply refetchAll_page.
Qed.

Lemma shown_plain (m : MarketSearch) :
  mem (searchValue m) (optionValues m) = true ->
  wellformed (shown m) /\ plain (shown m) = true.
Proof.
  intros H. destruct (option_plain m _ H) as (_ & D & Ne).
  unfold shown. destruct (nonempty (searchValue m)) eqn:E.
  - destruct (searchType m); split.
    + right; left. exists (searchValue m). auto.
    + unfold plain; simpl. rewrite D, Ne. reflexivity.
    + right; right. exists (searchValue m). auto.
    + unfold plain; simpl. rewrite D, Ne. reflexivity.
  - split; [left; reflexivity | reflexivity].
Qed.

Lemma offered_plain (es : list UserEvent) :
  offered initialPage es = true ->
  wellformed (selection (handles es initialPage))
  /\ plain (selection (handles es initialPage)) = true.
Proof.
  intros H. destruct (offered_shown es H) as [-> M]. now apply shown_plain.
Qed.

(** X5.  Driven through the drop-downs and the buttons of [MarketSearch],
    every handler that changes the selection changes the React key of the
    panels: they are mounted afresh, and [KPICards] starts again from zeros
    and the cached market data of the new selection, never from the numbers
    it showed for the previous one. *)
Theorem dropdown_change_remounts (opts : QueryOptions) (evs : list Event)
    (e : UserEvent) :
  offered initialPage (users evs ++ [e]) = true ->
  notifies e (page (run opts initialWorld evs)) = true ->
  reactKey (current (run opts initialWorld evs)) <> reactKey (target e)
  /\ kpis (step opts (run opts initialWorld evs) (User e))
     = run_effect (marketData (target e) (cache (run opts initialWorld evs)))
                  (target e) initialKPIs.
Proof.
  intros Ho Hn. set (w := run opts initialWorld evs) in *.
  assert (K : reactKey (current w) <> reactKey (target e)).
  { intros E.
    pose proof Ho as Ho'. rewrite offered_snoc in Ho'.
    apply andb_true_iff in Ho'. destruct Ho' as [Hes _].
    destruct (offered_plain _ Hes) as [W1 P1].
    destruct (offered_plain _ Ho) as [W2 P2].
    rewrite handles_snoc, selection_handle in W2, P2.
    assert (Hp : page w = handles (users evs) initialPage)
      by (unfold w; apply page_run).
    unfold current in E. rewrite Hp in E.
    pose proof (reactKey_eq _ _ W1 W2 P1 P2 E) as Eq.
    unfold notifies in Hn. rewrite selection_handle, Hp, Eq in Hn.
    rewrite Selection_eqb_refl in Hn. discriminate Hn. }
  split; [exact K|].
  cbn [step]. unfold onUser. rewrite Hn. cbn [negb].
  rewrite selection_handle.
  assert (Kb : String.eqb (reactKey (current w)) (reactKey (target e)) = false)
    by (apply String.eqb_neq; exact K).
  rewrite Kb. cbn [negb]. rewrite mountAll_kpis. reflexivity.
Qed.

Lemma dropdown_change_remounts_witness :
  reactKey (mkSelection (Some "Finance") None)
  <> reactKey (mkSelection (Some "Retail") None).
Proof.
  exact (proj1 (dropdown_change_remounts Providers
                  [User (IndustryChange "Finance")] (IndustryChange "Retail")
                  eq_refl eq_refl)).
Defined.

(* ===================================================================== *)
(** ** The fetchers that are ever invoked *)
(* ===================================================================== *)

Section Fetchers.
Variable good : QueryFn -> Prop.
Hypothesis good_queries :
  forall d c q, wellformed d -> In q (queries d c) -> enabled q = true ->
                good (queryFn q).
Variable opts : QueryOptions.

Lemma fetch_fetchers q w :
  good (queryFn q) -> fetchersInv good w -> fetchersInv good (fetch q w).
Proof.
  intros Hq [Hc Hi]. unfold fetch.
  destruct (isFetching (entry (queryKey q) (cache w))); [split; assumption|].
  split; cbn [calls cache].
  - intros k f [E|H]; [injection E as _ <-; exact Hq | eauto].
  - intros k f. rewrite entry_store.
    destruct (key_eqb (queryKey q) k); [|apply Hi].
    rewrite started_inflight. intros E. injection E as <-. exact Hq.
Qed.

Lemma fold_fetch_fetchers {X : Type} (g : World -> X -> bool)
    (h : X -> Query) (xs : list X) :
  (forall w x, In x xs -> g w x = true -> good (queryFn (h x))) ->
  forall w, fetchersInv good w ->
    fetchersInv good (fold_left (fun w x => fetch_if (g w x) (h x) w) xs w).
Proof.
  induction xs as [|x r IH]; intros Hg w Hw; simpl; [exact Hw|].
  apply IH; [intros; apply (Hg w0); simpl; auto|].
  unfold fetch_if. destruct (g w x) eqn:E; [|exact Hw].
  apply fetch_fetchers; [|exact Hw]. apply (Hg w); simpl; auto.
Qed.

Lemma mountAll_fetchers d c w :
  wellformed d -> fetchersInv good w ->
  fetchersInv good (mountAll opts (queries d c) w).
Proof.
  intros Hd Hw. unfold mountAll, subscribe.
  apply (fold_fetch_fetchers
           (fun w q => shouldFetchOnMount opts q (entry (queryKey q) (cache w)))
           (fun q => q)); [|exact Hw].
  intros w' q Hin E. apply (good_queries d c q Hd Hin).
  eapply shouldFetchOnMount_enabled; eauto.
Qed.

Lemma refetchAll_fetchers b d c w :
  wellformed d -> fetchersInv good w ->
  fetchersInv good (refetchAll opts b (queries d c) w).
Proof.
  intros Hd Hw. unfold refetchAll, refetchOn.
  apply (fold_fetch_fetchers
           (fun w q => shouldFetchOn opts b q (entry (queryKey q) (cache w)))
           (fun q => q)); [|exact Hw].
  intros w' q Hin E. apply (good_queries d c q Hd Hin).
  eapply shouldFetchOn_enabled; eauto.
Qed.

Lemma updateAll_fetchers ps d c w :
  wellformed d -> fetchersInv good w ->
  fetchersInv good (updateAll opts ps (queries d c) w).
Proof.
  intros Hd Hw. unfold updateAll, setOptions.
  apply (fold_fetch_fetchers
           (fun w pq => shouldFetchOptionally opts (fst pq) (snd pq)
                          (entry (queryKey (snd pq)) (cache w)))
           (fun pq => snd pq)); [|exact Hw].
  intros w' [p q] Hin E. apply in_combine_r in Hin.
  apply (good_queries d c q Hd Hin).
  eapply shouldFetchOptionally_enabled; eauto.
Qed.

Lemma onUser_fetchers e w :
  fetchersInv good w -> fetchersInv good (onUser opts e w).
Proof.
  intros Hw. unfold onUser.
  destruct (negb (notifies e (page w))); [exact Hw|].
  rewrite selection_handle.
  destruct (negb (String.eqb _ _)).
  - apply mountAll_fetchers; [apply wellformed_target | exact Hw].
  - apply updateAll_fetchers; [apply wellformed_target | exact Hw].
Qed.

Lemma store_fetchers k e w ks cs :
  fetchersInv good w ->
  (forall f, inflight e = Some f -> good f) ->
  (forall k' f, In (k', f) cs -> good f) ->
  fetchersInv good (mkWorld (page w) ks (store k e (cache w)) cs).
Proof.
  intros [Hc Hi] He Hcs. split; cbn [calls cache]; [exact Hcs|].
  intros k' f. rewrite entry_store. destruct (key_eqb k k'); [apply He|apply Hi].
Qed.

Lemma onSettle_fetchers k response w :
  wellformed (current w) ->
  fetchersInv good w -> fetchersInv good (onSettle opts k response w).
Proof.
  intros Hd Hw. unfold onSettle.
  destruct (inflight (entry k (cache w))) as [f|] eqn:Ef; [|exact Hw].
  assert (Gf : good f) by (destruct Hw as [_ Hi]; eapply Hi; eauto).
  destruct (run_queryFn f response) as [v|err].
  - unfold setOptions.
    set (c' := store k (succeeded v) (cache w)).
    set (ks := if JsVal_eqb _ _ then _ else _).
    set (w' := mkWorld (page w) ks c' (calls w)).
    assert (Hw' : fetchersInv good w').
    { apply store_fetchers; [exact Hw | discriminate | apply Hw]. }
    unfold fetch_if.
    destruct (shouldFetchOptionally _ _ _ _) eqn:E; [|exact Hw'].
    apply fetch_fetchers; [|exact Hw'].
    apply (good_queries (current w) c'); [exact Hd | |].
    + unfold queries. simpl. auto 10.
    + eapply shouldFetchOptionally_enabled; eauto.
  - destruct (_ && _).
    + apply store_fetchers; [exact Hw | |].
      * simpl. intros f' E. injection E as <-. exact Gf.
      * intros k' f' [E|H]; [injection E as _ <-; exact Gf|].
        destruct Hw as [Hc _]. eauto.
    + apply store_fetchers; [exact Hw | discriminate | apply Hw].
Qed.

Lemma step_fetchers w ev :
  wellformed (current w) ->
  fetchersInv good w -> fetchersInv good (step opts w ev).
Proof.
  intros Hd Hw. destruct ev as [e|k response| |]; cbn [step].
  - apply onUser_fetchers, Hw.
  - apply onSettle_fetchers; assumption.
  - apply refetchAll_fetchers; assumption.
  - apply refetchAll_fetchers; assumption.
Qed.

Lemma run_fetchers evs : fetchersInv good (run opts initialWorld evs).
Proof.
  induction evs as [|ev r IH] using rev_ind.
  - split; [intros k f []| intros k f H; discriminate H].
  - rewrite run_snoc. apply step_fetchers; [apply wellformed_current | exact IH].
Qed.

End Fetchers.

Lemma selector_truthy (s : string) :
  nonempty s = true -> selector (Some s) = JStr s.
Proof. unfold selector, prop_truthy. simpl. unfold nonempty. now intros ->. Qed.

Lemma or_undefined_truthy (s : string) :
  nonempty s = true -> or_undefined (Some s) = Some s.
Proof.
  unfold or_undefined, prop_truthy. simpl. unfold nonempty. now intros ->.
Qed.

Lemma js_or_truthy (v w : JsVal) : truthy w = true -> truthy (js_or v w) = true.
Proof. unfold js_or. destruct (truthy v) eqn:E; auto. Qed.

(** The fetchers of the panels, for a selection the handlers produced. *)
Lemma queries_goodFn (d : Selection) (c : Cache) (q : Query) :
  wellformed d -> In q (queries d c) -> enabled q = true -> goodFn (queryFn q).
Proof.
  intros W Hin En.
  assert (Hs : hasSelection d = true).
  { unfold queries in Hin. simpl in Hin.
    destruct Hin as [<-|[<-|[<-|[<-|[<-|[<-|[]]]]]]]; simpl in En;
      try exact En.
    apply andb_true_iff in En. destruct d; apply En. }
  destruct W as [->|[(s & Ns & ->)|(s & Ns & ->)]]; [discriminate Hs| |].
  - assert (T : prop_truthy (Some s) = true)
      by (unfold prop_truthy; simpl; exact Ns).
    unfold queries in Hin. simpl in Hin.
    destruct Hin as [<-|[<-|[<-|[<-|[<-|[<-|[]]]]]]]; intros r Hr;
      simpl in Hr; rewrite ?T in Hr; simpl in Hr; injection Hr as <-;
      (split;
       [ exists s; split; [exact Ns|]; left; unfold sent; simpl;
         rewrite ?or_undefined_truthy by exact Ns;
         rewrite selector_truthy by exact Ns; auto
       | cbn [fixedFields]; repeat split; try reflexivity;
         try (left; reflexivity); try (right; reflexivity);
         try (apply js_or_truthy; reflexivity) ]).
  - assert (T : prop_truthy (Some s) = true)
      by (unfold prop_truthy; simpl; exact Ns).
    unfold queries in Hin. simpl in Hin.
    destruct Hin as [<-|[<-|[<-|[<-|[<-|[<-|[]]]]]]]; intros r Hr;
      simpl in Hr; rewrite ?T in Hr; simpl in Hr; injection Hr as <-;
      (split;
       [ exists s; split; [exact Ns|]; right; unfold sent; simpl;
         rewrite ?or_undefined_truthy by exact Ns;
         rewrite selector_truthy by exact Ns; auto
       | cbn [fixedFields]; repeat split; try reflexivity;
         try (left; reflexivity); try (right; reflexivity);
         try (apply js_or_truthy; reflexivity) ]).
Qed.

Lemma requests_In (w : World) (r : Request) :
  In r (requests w) ->
  exists k f, In (k, f) (calls w) /\ request_of f = Some r.
Proof.
  unfold requests. intros H. apply in_flat_map in H.
  destruct H as ([k f] & Hin & Hr). exists k, f. split; [exact Hin|].
  simpl in Hr. destruct (request_of f) as [r'|]; [|contradiction].
  destruct Hr as [->|[]]. reflexivity.
Qed.

(** X6.  Whatever happens (any options of the client, any sequence of
    handlers, settlements, reconnects and focus events), every request the
    dashboard posts carries exactly one of [industry] and [company], as a
    string that is not empty, and leaves the other one out; it goes to the
    path of its end point with the fixed properties of that end point: the
    time frame "1y" for market data, a truthy [data] for insights, the
    analysis type "swot" or "growth" for a strategy, and the metric
    "growth", an empty [data] and twelve periods for a forecast. *)
Theorem requests_carry_one_selector (opts : QueryOptions) (evs : list Event)
    (r : Request) :
  In r (requests (run opts initialWorld evs)) ->
  oneSelector r /\ fixedFields r.
Proof.
  intros H. apply requests_In in H. destruct H as (k & f & Hin & Hr).
  destruct (run_fetchers goodFn queries_goodFn opts evs) as [Hc _].
  exact (Hc k f Hin r Hr).
Qed.

Lemma requests_carry_one_selector_witness :
  sent (GetMarketData (Some "Finance") None) "company" = JUndefined
  \/ sent (GetMarketData (Some "Finance") None) "industry" = JUndefined.
Proof.
  assert (H : In (GetMarketData (Some "Finance") None)
                 (requests (run Providers initialWorld
                              [User (IndustryChange "Finance")])))
    by (vm_compute; tauto).
  destruct (requests_carry_one_selector Providers _ _ H)
    as [(s & _ & [[_ E]|[E _]]) _]; [left | right]; exact E.
Defined.

(* ===================================================================== *)
(** ** The chart is all or nothing *)
(* ===================================================================== *)

Lemma forecastPoint_absent (item : JsVal) (index : nat) :
  forecastPoint item index
  = if absent item then None else Some (chartPoint index item).
Proof.
  destruct (forecastPoint item index) as [p|] eqn:E.
  - rewrite (forecastPoint_spec _ _ _ E).
    destruct item; try reflexivity; discriminate E.
  - destruct item; try reflexivity; discriminate E.
Qed.

Lemma mapi_from_forecastPoint (i : nat) (xs : list JsVal) :
  mapi_from forecastPoint i xs
  = if existsb absent xs then None else Some (chartPoints i xs).
Proof.
  revert i. induction xs as [|x r IH]; intros i; [reflexivity|].
  cbn [mapi_from existsb chartPoints]. rewrite forecastPoint_absent, IH.
  destruct (absent x); [reflexivity|]. cbn [bind orb].
  destruct (existsb absent r); reflexivity.
Qed.

Lemma chartPoints_length (i : nat) (xs : list JsVal) :
  List.length (chartPoints i xs) = List.length xs.
Proof. revert i. induction xs as [|x r IH]; intros i; simpl; auto. Qed.

(** X7.  For a selection, when the response holds an array under
    [forecast], the fetcher of [TrendChart] plots its first twelve items,
    in order and all of them, provided none of these is [null] or
    [undefined]; a single missing item among the first twelve empties the
    whole chart (the exception is swallowed), while items after the twelfth
    are never looked at. *)
Theorem chart_is_all_or_nothing (i c : option string) (forecast : JsVal)
    (xs : list JsVal) :
  prop_truthy i || prop_truthy c = true ->
  get forecast "forecast" = Some (JArr xs) ->
  trendQueryFn i c (Resolved forecast)
  = Resolved (JArr (if existsb absent (firstn 12 xs) then []
                    else chartPoints 0 (firstn 12 xs)))
  /\ List.length (chartPoints 0 (firstn 12 xs)) = Nat.min 12 (List.length xs).
Proof.
  intros Hs Hg. split.
  - unfold trendQueryFn.
    assert (N : negb (prop_truthy i) && negb (prop_truthy c) = false).
    { destruct (prop_truthy i), (prop_truthy c); try reflexivity.
      discriminate Hs. }
    rewrite N. unfold transformForecast. rewrite Hg. cbn [bind].
    rewrite mapi_from_forecastPoint.
    destruct (existsb absent (firstn 12 xs)); reflexivity.
  - rewrite chartPoints_length. apply length_firstn.
Qed.

Lemma chart_is_all_or_nothing_witness :
  trendQueryFn (Some "Finance") None
    (Resolved (JObj [("forecast",
                      JArr [JObj [("yhat", JNum 3%Q)]; JNull;
                            JObj [("yhat", JNum 5%Q)]])]))
  = Resolved (JArr []).
Proof.
  exact (proj1 (chart_is_all_or_nothing (Some "Finance") None
                  (JObj [("forecast",
                          JArr [JObj [("yhat", JNum 3%Q)]; JNull;
                                JObj [("yhat", JNum 5%Q)]])])
                  _ eq_refl eq_refl)).
Defined.

(* ===================================================================== *)
(** ** What the chart is given *)
(* ===================================================================== *)

Lemma trendQueryFn_chart (i c : option string) (response : Outcome) :
  exists items,
    trendQueryFn i c response = Resolved (JArr (chartPoints 0 items))
    /\ List.length items <= 12.
Proof.
  assert (Z : exists items : list JsVal,
             Resolved (JArr []) = Resolved (JArr (chartPoints 0 items))
             /\ List.length items <= 12)
    by (exists []; split; [reflexivity | simpl; lia]).
  unfold trendQueryFn. destruct (_ && _); [exact Z|].
  destruct response as [forecast|err]; [|exact Z].
  unfold transformForecast.
  destruct (get forecast "forecast") as [series|]; [|exact Z].
  cbn [bind]. destruct series; try exact Z.
  rewrite mapi_from_forecastPoint.
  destruct (existsb absent (firstn 12 items)); [exact Z|].
  cbn [bind]. exists (firstn 12 items). split; [reflexivity|].
  rewrite length_firstn. lia.
Qed.

Lemma chartInv_micro ok w w' :
  micro ok w w' -> cacheInv w -> chartInv w -> chartInv w'.
Proof.
  intros Hm [A1 A2] F.
  destruct Hm as [w q Hq He Hi | w k0 f response v Hf Hok Hr | w k0 f Hf
                 | w k0 f response err Hf Hr | w p ks];
    unfold chartInv; cbn [cache]; auto; intros k i co Hk;
    rewrite entry_store;
    match goal with
    | |- context [if key_eqb ?a k then _ else _] =>
        destruct (key_eqb a k) eqn:E
    end; try (apply (F _ _ _ Hk)).
  - assert (Hk' : key_eqb (queryKey (forecastQuery i co)) (queryKey q) = true).
    { eapply key_eqb_trans; [exact Hk|]. rewrite key_eqb_sym. exact E. }
    unfold started. destruct (is_undefined _); cbn [status data].
    + intros N. congruence.
    + apply (F _ _ _ Hk').
  - assert (Hk' : key_eqb (queryKey (forecastQuery i co)) k0 = true).
    { eapply key_eqb_trans; [exact Hk|]. rewrite key_eqb_sym. exact E. }
    rewrite (fetcherFor_forecast _ _ _ _ Hk' (A2 _ _ Hf)) in Hr.
    cbn [run_queryFn] in Hr.
    destruct (trendQueryFn_chart i co response) as (items & Ht & Hl).
    rewrite Ht in Hr. injection Hr as <-. intros _.
    exists items. cbn [succeeded data]. auto.
  - assert (Hk' : key_eqb (queryKey (forecastQuery i co)) k0 = true).
    { eapply key_eqb_trans; [exact Hk|]. rewrite key_eqb_sym. exact E. }
    cbn [retried status data]. apply (F _ _ _ Hk').
  - assert (Hk' : key_eqb (queryKey (forecastQuery i co)) k0 = true).
    { eapply key_eqb_trans; [exact Hk|]. rewrite key_eqb_sym. exact E. }
    rewrite (fetcherFor_forecast _ _ _ _ Hk' (A2 _ _ Hf)) in Hr.
    exfalso. eapply run_queryFn_trend_resolves; eauto.
Qed.

Lemma chartInv_run opts evs : chartInv (run opts initialWorld evs).
Proof.
  assert (H : cacheInv (run opts initialWorld evs)
              /\ chartInv (run opts initialWorld evs)).
  { eapply (micros_invariant anyResponse
              (fun w => cacheInv w /\ chartInv w)).
    - intros w w' Hm [H1 H2]. split.
      + eapply cacheInv_micro; eauto.
      + eapply chartInv_micro; eauto.
    - apply run_micros. apply ok_event_any.
    - split; [apply cacheInv_initial|].
      intros k i co _ N. exfalso. apply N. reflexivity. }
  apply H.
Qed.

(** X8.  In every state the dashboard reaches, [TrendChart] shows its
    prompt (exactly when nothing is selected), its loading state, or a
    chart labelled "Stock Price ($)" for a company and "Growth Index" for
    an industry.  Once the forecast entry is not pending any more, the
    chart is given an array of at most twelve points, each of the form
    [{month, value}]; it is given [undefined] only while the entry is
    pending with no request under way. *)
Theorem trend_chart_views (opts : QueryOptions) (evs : list Event) :
  let w := run opts initialWorld evs in
  let forecast :=
    entry (queryKey (forecastQuery (selectedIndustry (current w))
                                   (selectedCompany (current w))))
          (cache w) in
  let label := if prop_truthy (selectedCompany (current w))
               then "Stock Price ($)" else "Growth Index" in
  (current w = noSelection
   /\ renderTrendChart (current w) (cache w)
      = Some (Prompt "Trend Analysis"
                     "Select an industry or company to view trends"))
  \/ (hasSelection (current w) = true
      /\ ((isLoading forecast = true
           /\ renderTrendChart (current w) (cache w)
              = Some (Busy "Trend Analysis" "Loading chart..."))
          \/ (status forecast = Pending /\ isFetching forecast = false
              /\ renderTrendChart (current w) (cache w)
                 = Some (Chart label JUndefined))
          \/ (status forecast = Success
              /\ exists items,
                   List.length items <= 12
                   /\ renderTrendChart (current w) (cache w)
                      = Some (Chart label (JArr (chartPoints 0 items)))))).
Proof.
  intros w forecast label.
  pose proof (wellformed_current opts evs) as W. fold w in W.
  pose proof (run_pending opts evs) as L. fold w in L.
  pose proof (chartInv_run opts evs) as C. fold w in C.
  pose proof (forecastInv_run opts evs) as F. fold w in F.
  destruct W as [E|W].
  - left. split; [exact E|]. rewrite E. reflexivity.
  - right.
    assert (Hs : hasSelection (current w) = true).
    { destruct W as [(s & Ns & ->)|(s & Ns & ->)]; unfold hasSelection,
        prop_truthy; simpl; unfold nonempty in Ns; rewrite Ns; reflexivity. }
    split; [exact Hs|].
    unfold renderTrendChart. rewrite none_hasSelection, Hs. cbn [negb].
    fold forecast. fold label.
    destruct (isLoading forecast) eqn:Ld; [left; split; reflexivity|].
    right.
    set (k := queryKey (forecastQuery (selectedIndustry (current w))
                          (selectedCompany (current w)))) in *.
    destruct (status forecast) eqn:S.
    + left. split; [reflexivity|].
      unfold isLoading in Ld. rewrite S in Ld. split; [exact Ld|].
      unfold forecast. rewrite (L k S). reflexivity.
    + right. split; [reflexivity|].
      assert (P : status (entry k (cache w)) <> Pending)
        by (fold forecast; rewrite S; discriminate).
      destruct (C k _ _ (key_eqb_refl k) P) as (items & Hd & Hl).
      exists items. split; [exact Hl|].
      unfold forecast. rewrite Hd. reflexivity.
    + exfalso. destruct (F k _ _ (key_eqb_refl k)) as [N _].
      apply N. exact S.
Qed.

(* ===================================================================== *)
(** ** When a panel throws *)
(* ===================================================================== *)

Lemma children_of_cases (v : JsVal) :
  children_of v = if listable v then Some (elements v) else None.
Proof.
  unfold children_of, items_of, js_or, listable.
  destruct (truthy v) eqn:T; cbn [negb orb].
  - destruct v; reflexivity.
  - destruct v; try discriminate T; reflexivity.
Qed.

Lemma run_effect_metrics (md : JsVal) (d : Selection) (k : KPIs) :
  truthy (get_opt md "metrics") = true ->
  run_effect md d k
  = mkKPIs (js_or (get_opt (get_opt md "metrics") "growth_rate") zero)
           (js_or (get_opt (get_opt md "metrics") "funding_volume") zero)
           (js_or (get_opt (get_opt md "metrics") "market_size") zero).
Proof.
  intros H. unfold run_effect. rewrite (kpiEffect_metrics md d k H).
  reflexivity.
Qed.

Lemma run_effect_keeps (md : JsVal) (d : Selection) (k : KPIs) :
  truthy (get_opt md "metrics") = false -> hasSelection d = true ->
  run_effect md d k = k.
Proof.
  intros H Hs. unfold run_effect, kpiEffect. rewrite H.
  unfold hasSelection in Hs.
  destruct (prop_truthy (selectedIndustry d)),
    (prop_truthy (selectedCompany d)); try reflexivity; discriminate Hs.
Qed.

(** A falsy value has a primitive: it is one. *)
Lemma coercible_or_zero (v : JsVal) : coercible (js_or v zero) = coercible v.
Proof.
  unfold js_or. destruct (truthy v) eqn:T; [reflexivity|].
  destruct v; try discriminate T; reflexivity.
Qed.

Lemma renderKPICards_throws (k : KPIs) :
  renderKPICards k = None
  <-> is_number (growthRate k) = false
      \/ coercible (fundingVolume k) = false
      \/ coercible (marketSize k) = false.
Proof.
  unfold renderKPICards.
  destruct (div_toFixed1 (fundingVolume k) 1000000) as [a|] eqn:A;
    destruct (div_toFixed1 (marketSize k) 1000000000) as [b|] eqn:B;
    try apply div_toFixed1_throws in A; try apply div_toFixed1_throws in B;
    destruct (growthRate k); cbn [toFixed1 bind is_number];
    try (split; [reflexivity | tauto]); try tauto.
  - split; [discriminate|].
    assert (A' : div_toFixed1 (fundingVolume k) 1000000 <> None)
      by congruence.
    assert (B' : div_toFixed1 (marketSize k) 1000000000 <> None)
      by congruence.
    rewrite div_toFixed1_throws in A', B'.
    intros [H|[H|H]]; [discriminate H | tauto | tauto].
Qed.

(** X10.  With metrics in the market data, [KPICards] throws while
    rendering exactly when [growth_rate] is truthy and not a number (a
    string such as "12%", an object, [true]: the value is stored as it is
    and has no [toFixed]), or [funding_volume] or [market_size] has no
    primitive to divide (an object with a [toString] property of its own,
    or an array that holds one).  A missing or zero [growth_rate] becomes
    0; a [funding_volume] or [market_size] that is a string, a boolean or
    an object without [toString] is divided as the number it converts to,
    possibly [NaN], and formatted. *)
Theorem kpi_cards_throw (md : JsVal) (d : Selection) (k : KPIs) :
  truthy (get_opt md "metrics") = true ->
  let metrics := get_opt md "metrics" in
  renderKPICards (run_effect md d k) = None
  <-> (truthy (get_opt metrics "growth_rate") = true
       /\ is_number (get_opt metrics "growth_rate") = false)
      \/ coercible (get_opt metrics "funding_volume") = false
      \/ coercible (get_opt metrics "market_size") = false.
Proof.
  intros H metrics.
  rewrite renderKPICards_throws, (run_effect_metrics md d k H).
  fold metrics. cbn [growthRate fundingVolume marketSize].
  rewrite !coercible_or_zero.
  assert (G : is_number (js_or (get_opt metrics "growth_rate") zero) = false
              <-> truthy (get_opt metrics "growth_rate") = true
                  /\ is_number (get_opt metrics "growth_rate") = false).
  { unfold js_or.
    destruct (truthy (get_opt metrics "growth_rate")) eqn:T.
    - tauto.
    - cbn [zero is_number]. split; [discriminate|].
      intros [X _]; discriminate X. }
  tauto.
Qed.

Lemma kpi_cards_throw_witness :
  renderKPICards
    (run_effect (JObj [("metrics", JObj [("growth_rate", JStr "12%")])])
                (mkSelection (Some "Finance") None) initialKPIs)
  = None
  /\ renderKPICards
       (run_effect
          (JObj [("metrics",
                  JObj [("market_size", JObj [("toString", JNum 0)])])])
          (mkSelection (Some "Finance") None) initialKPIs)
     = None.
Proof.
  split.
  - apply (kpi_cards_throw
             (JObj [("metrics", JObj [("growth_rate", JStr "12%")])])
             (mkSelection (Some "Finance") None) initialKPIs eq_refl).
    left. split; reflexivity.
  - apply (kpi_cards_throw
             (JObj [("metrics",
                     JObj [("market_size", JObj [("toString", JNum 0)])])])
             (mkSelection (Some "Finance") None) initialKPIs eq_refl).
    right. right. reflexivity.
Defined.

Lemma fetch_if_entry_other (k : QueryKey) (b : bool) (q : Query) (w : World) :
  key_eqb (queryKey q) k = false ->
  entry k (cache (fetch_if b q w)) = entry k (cache w).
Proof.
  intros E. destruct b; [|reflexivity]. cbn [fetch_if]. unfold fetch.
  destruct (isFetching _); [reflexivity|]. cbn [cache].
  apply entry_store_other. exact E.
Qed.

(** The request of key [K], which is not an insights key, resolves while
    something is selected: the entry of [K] holds the value, the selection
    stays. *)
Lemma onSettle_resolved (opts : QueryOptions) (w : World) (K : QueryKey)
    (r : Request) (v : JsVal) :
  inflight (entry K (cache w)) = Some (ApiCall r) ->
  (forall i co md, key_eqb (queryKey (insightsQuery i co md)) K = false) ->
  let w' := step opts w (Settle K (Resolved v)) in
  entry K (cache w') = succeeded v /\ current w' = current w.
Proof.
  intros Hf Hk w'. split; [|apply (step_current opts w (Settle K (Resolved v)))].
  unfold w'. cbn [step]. unfold onSettle. rewrite Hf. cbn [run_queryFn].
  unfold setOptions. rewrite fetch_if_entry_other by apply Hk.
  cbn [cache]. apply entry_store_same.
Qed.

(** X11.  When the SWOT request of the current selection resolves,
    [SWOTMatrix] shows under each heading the array the response holds in
    [content] under that name, and nothing for a name that is missing or
    falsy (also when there is no [content]); it throws exactly when one of
    the four is truthy without being an array, or is an array that holds
    an object, which cannot be placed in a list item. *)
Theorem swot_matrix_render (opts : QueryOptions) (w : World) (v : JsVal) :
  let d := current w in
  let i := selectedIndustry d in
  let co := selectedCompany d in
  let K := queryKey (swotQuery i co) in
  hasSelection d = true ->
  inflight (entry K (cache w)) = Some (queryFn (swotQuery i co)) ->
  let w' := step opts w (Settle K (Resolved v)) in
  let content := js_or (get_opt v "content") (JObj []) in
  status (entry K (cache w')) = Success
  /\ data (entry K (cache w')) = v
  /\ swotPanel (screen w')
     = if forallb (fun n => listable (get_opt content n)) quadrantNames
       then Some (Quadrants (elements (get_opt content "strengths"))
                            (elements (get_opt content "weaknesses"))
                            (elements (get_opt content "opportunities"))
                            (elements (get_opt content "threats")))
       else None.
Proof.
  intros d i co K Hs Hf w' content.
  destruct (onSettle_resolved opts w K _ v Hf) as [He Hc].
  { intros i' co' md. unfold K. key_compute. reflexivity. }
  fold w' in He, Hc. rewrite He.
  split; [reflexivity|]. split; [reflexivity|].
  unfold screen. cbn [swotPanel]. rewrite Hc. fold d.
  unfold renderSWOTMatrix. rewrite none_hasSelection, Hs. cbn [negb].
  fold i co K. rewrite He. cbn [isLoading succeeded status data].
  unfold swotContent. fold content. rewrite !children_of_cases.
  cbn [forallb quadrantNames].
  destruct (listable (get_opt content "strengths")); [|reflexivity].
  destruct (listable (get_opt content "weaknesses")); [|reflexivity].
  destruct (listable (get_opt content "opportunities")); [|reflexivity].
  destruct (listable (get_opt content "threats")); reflexivity.
Qed.

Lemma swot_matrix_render_witness :
  let K := [JStr "strategy"; JStr "swot"; JStr "Finance"; JNull] in
  let w := run Providers initialWorld [User (IndustryChange "Finance")] in
  swotPanel
    (screen
       (step Providers w
          (Settle K
             (Resolved
                (JObj [("content",
                        JObj [("strengths", JArr [JStr "brand"]);
                              ("threats", JStr "a new rival")])])))))
  = None
  /\ swotPanel
       (screen
          (step Providers w
             (Settle K
                (Resolved
                   (JObj [("content",
                           JObj [("strengths",
                                  JArr [JObj [("text", JStr "brand")]])])])))))
     = None
  /\ swotPanel
       (screen
          (step Providers w
             (Settle K
                (Resolved
                   (JObj [("content",
                           JObj [("strengths", JArr [JStr "brand"]);
                                 ("threats", JNull)])])))))
     = Some (Quadrants [JStr "brand"] [] [] []).
Proof.
  intros K w.
  split; [|split].
  - apply (swot_matrix_render Providers w
             (JObj [("content",
                     JObj [("strengths", JArr [JStr "brand"]);
                           ("threats", JStr "a new rival")])])
             eq_refl eq_refl).
  - apply (swot_matrix_render Providers w
             (JObj [("content",
                     JObj [("strengths",
                            JArr [JObj [("text", JStr "brand")]])])])
             eq_refl eq_refl).
  - apply (swot_matrix_render Providers w
             (JObj [("content",
                     JObj [("strengths", JArr [JStr "brand"]);
                           ("threats", JNull)])])
             eq_refl eq_refl).
Defined.

(** X12.  When the growth-strategy request of the current selection
    resolves, [StrategicRecommendations] lists the array the response
    holds under [recommendations], lists nothing when that is missing or
    falsy, and throws exactly when it is truthy without being an array, or
    is an array that holds an object. *)
Theorem recommendations_render (opts : QueryOptions) (w : World)
    (v : JsVal) :
  let d := current w in
  let i := selectedIndustry d in
  let co := selectedCompany d in
  let K := queryKey (growthQuery i co) in
  hasSelection d = true ->
  inflight (entry K (cache w)) = Some (queryFn (growthQuery i co)) ->
  let w' := step opts w (Settle K (Resolved v)) in
  let recs := get_opt v "recommendations" in
  status (entry K (cache w')) = Success
  /\ data (entry K (cache w')) = v
  /\ recommendationsPanel (screen w')
     = if listable recs then Some (Recommendations (elements recs))
       else None.
Proof.
  intros d i co K Hs Hf w' recs.
  destruct (onSettle_resolved opts w K _ v Hf) as [He Hc].
  { intros i' co' md. unfold K. key_compute. reflexivity. }
  fold w' in He, Hc. rewrite He.
  split; [reflexivity|]. split; [reflexivity|].
  unfold screen. cbn [recommendationsPanel]. rewrite Hc. fold d.
  unfold renderStrategicRecommendations.
  rewrite none_hasSelection, Hs. cbn [negb].
  fold i co K. rewrite He. cbn [isLoading succeeded status data].
  unfold recommendationsContent. fold recs. rewrite children_of_cases.
  destruct (listable recs); reflexivity.
Qed.

Lemma recommendations_render_witness :
  let K := [JStr "strategy"; JStr "growth"; JNull; JStr "Apple"] in
  let w := run Providers initialWorld [User (CompanyChange "Apple")] in
  recommendationsPanel
    (screen
       (step Providers w
          (Settle K
             (Resolved
                (JObj [("recommendations",
                        JArr [JStr "expand"; JStr "hire"])])))))
  = Some (Recommendations [JStr "expand"; JStr "hire"])
  /\ recommendationsPanel
       (screen
          (step Providers w
             (Settle K
                (Resolved
                   (JObj [("recommendations",
                           JArr [JObj [("title", JStr "expand")]])])))))
     = None.
Proof.
  intros K w. split.
  - apply (recommendations_render Providers w
             (JObj [("recommendations",
                     JArr [JStr "expand"; JStr "hire"])])
             eq_refl eq_refl).
  - apply (recommendations_render Providers w
             (JObj [("recommendations",
                     JArr [JObj [("title", JStr "expand")]])])
             eq_refl eq_refl).
Defined.

(* ===================================================================== *)
(** ** Responses of the expected shape never make a panel throw *)
(* ===================================================================== *)

Lemma fetcherOf_api c P i co :
  P <> ForecastOf -> exists r, fetcherOf c P i co = ApiCall r.
Proof. destruct P; simpl; eauto. intros H; congruence. Qed.

Lemma shapeInv_micro w w' :
  micro shapedResponse w w' -> cacheInv w -> shapeInv w -> shapeInv w'.
Proof.
  intros Hm [A1 A2] F.
  destruct Hm as [w q0 Hq He Hi | w k0 f response v Hf Hok Hr | w k0 f Hf
                 | w k0 f response err Hf Hr | w p ks];
    unfold shapeInv; cbn [cache]; auto; intros c P i co q Hpq HP;
    rewrite entry_store;
    match goal with
    | |- context [if key_eqb ?a ?k then _ else _] =>
        destruct (key_eqb a k) eqn:E
    end; try (apply (F _ _ _ _ _ Hpq HP)).
  - rewrite started_data, (entry_key_eq _ _ _ E).
    apply (F _ _ _ _ _ Hpq HP).
  - cbn [succeeded data].
    destruct (A2 _ _ Hf) as (c' & P' & i' & co' & q' & H1 & H2 & H3 & <-).
    assert (E' : key_eqb (queryKey q') (queryKey q) = true)
      by (eapply key_eqb_trans; eauto).
    destruct (panel_key_eq _ _ _ _ _ _ _ _ _ _ H1 Hpq E') as (-> & -> & ->).
    rewrite (panel_queryFn _ _ _ _ _ H1) in Hr.
    destruct (fetcherOf_api c' P i co HP) as (r & Er). rewrite Er in Hr.
    cbn [run_queryFn] in Hr.
    apply (Hok c P i co q v Hpq); [|exact Hr].
    rewrite key_eqb_sym. exact E.
  - cbn [retried data]. rewrite (entry_key_eq _ _ _ E).
    apply (F _ _ _ _ _ Hpq HP).
  - cbn [failed data]. rewrite (entry_key_eq _ _ _ E).
    apply (F _ _ _ _ _ Hpq HP).
Qed.

Lemma shapeInv_initial : shapeInv initialWorld.
Proof. intros c P i co q Hpq _. destruct P; reflexivity. Qed.

Lemma run_effect_cards (md : JsVal) (d : Selection) (k : KPIs) :
  shapeOf MarketMetrics md = true ->
  is_number (growthRate k) = true /\ coercible (fundingVolume k) = true
  /\ coercible (marketSize k) = true ->
  let k' := run_effect md d k in
  is_number (growthRate k') = true /\ coercible (fundingVolume k') = true
  /\ coercible (marketSize k') = true.
Proof.
  intros Hs Hk k'. unfold k'.
  destruct (truthy (get_opt md "metrics")) eqn:T.
  - rewrite (run_effect_metrics md d k T).
    cbn [growthRate fundingVolume marketSize].
    cbn [shapeOf] in Hs. apply andb_true_iff in Hs. destruct Hs as [Hs S3].
    apply andb_true_iff in Hs. destruct Hs as [S1 S2].
    rewrite !coercible_or_zero. split; [|split; assumption].
    unfold js_or.
    destruct (truthy (get_opt (get_opt md "metrics") "growth_rate"));
      [exact S1 | reflexivity].
  - unfold run_effect, kpiEffect. rewrite T.
    destruct (_ && _); [repeat split | exact Hk].
Qed.

Lemma shapeInv_marketData (w : World) (d : Selection) :
  shapeInv w -> shapeOf MarketMetrics (marketData d (cache w)) = true.
Proof.
  intros H. unfold marketData.
  apply (H [] MarketMetrics _ _ _ (pq_market [] _ _)). discriminate.
Qed.

Section Shaped.
Variable opts : QueryOptions.

Lemma step_shape w ev :
  ok_event shapedResponse ev ->
  cacheInv w /\ shapeInv w -> cacheInv (step opts w ev) /\ shapeInv (step opts w ev).
Proof.
  intros Hok H.
  eapply (micros_invariant shapedResponse
            (fun w => cacheInv w /\ shapeInv w)).
  - intros a b Hm [H1 H2]. split.
    + eapply cacheInv_micro; eauto.
    + eapply shapeInv_micro; eauto.
  - apply step_micros. exact Hok.
  - exact H.
Qed.

Lemma step_cards w ev :
  ok_event shapedResponse ev -> cacheInv w -> shapeInv w ->
  cardsInv w -> cardsInv (step opts w ev).
Proof.
  intros Hok Hc Hs Hn. unfold cardsInv in *.
  destruct ev as [e|k response| |]; cbn [step].
  - unfold onUser. destruct (negb (notifies e (page w))); [exact Hn|].
    destruct (negb (String.eqb _ _));
      rewrite ?mountAll_kpis, ?updateAll_kpis; cbn [kpis];
      apply run_effect_cards; auto using shapeInv_marketData;
      repeat split.
  - unfold onSettle.
    destruct (inflight (entry k (cache w))) as [f|] eqn:Ef; [|exact Hn].
    destruct (run_queryFn f response) as [v|err] eqn:Er.
    + unfold setOptions. rewrite fetch_if_kpis. cbn [kpis].
      destruct (JsVal_eqb _ _); [exact Hn|].
      apply run_effect_cards; [|exact Hn].
      apply (shapeInv_marketData
               (mkWorld (page w) (kpis w)
                        (store k (succeeded v) (cache w)) (calls w))).
      eapply shapeInv_micro; [|exact Hc|exact Hs].
      eapply micro_resolve; eauto.
    + destruct (_ && _); exact Hn.
  - rewrite refetchAll_kpis. exact Hn.
  - rewrite refetchAll_kpis. exact Hn.
Qed.

Lemma run_shaped evs :
  Forall (ok_event shapedResponse) evs ->
  cacheInv (run opts initialWorld evs)
  /\ shapeInv (run opts initialWorld evs)
  /\ cardsInv (run opts initialWorld evs).
Proof.
  induction evs as [|ev r IH] using rev_ind; intros H.
  - split; [apply cacheInv_initial|].
    split; [apply shapeInv_initial | repeat split].
  - apply Forall_app in H. destruct H as [Hr Hev].
    apply Forall_inv in Hev. destruct (IH Hr) as (H1 & H2 & H3).
    rewrite run_snoc.
    destruct (step_shape _ ev Hev (conj H1 H2)) as [H1' H2'].
    split; [exact H1'|]. split; [exact H2'|].
    apply step_cards; assumption.
Qed.

End Shaped.

Lemma takeaways_listable (insights : JsVal) :
  listable (get_opt insights "key_takeaways") = true ->
  takeaways insights <> None.
Proof.
  unfold takeaways, listable.
  destruct (truthy (get_opt insights "key_takeaways")) eqn:T;
    cbn [negb orb]; [|discriminate].
  destruct (get_opt insights "key_takeaways") as [| |b|q|s|xs|fs];
    try discriminate.
  intros H. destruct xs as [|x r]; [discriminate|]. rewrite H. discriminate.
Qed.

Lemma renderable_or (v w : JsVal) :
  renderable v = true -> renderable w = true -> renderable (js_or v w) = true.
Proof. intros Hv Hw. unfold js_or. destruct (truthy v); assumption. Qed.

(** X13.  When every successful response has the shape its panel expects
    (a [growth_rate] that is a number or falsy, a [funding_volume] and a
    [market_size] that have a primitive, SWOT quadrants, recommendations
    and key takeaways that are falsy or arrays without objects among
    their items, a [summary] that is not an object), then whatever the
    user does and however the requests settle, fail, are attempted again
    or overlap, none of the five panels ever throws while rendering. *)
Theorem panels_render_on_shaped_responses (opts : QueryOptions)
    (evs : list Event) (v : option View) :
  Forall (ok_event shapedResponse) evs ->
  In v (panels (screen (run opts initialWorld evs))) -> v <> None.
Proof.
  intros Hok Hin. destruct (run_shaped opts evs Hok) as (_ & Hs & Hn).
  set (w := run opts initialWorld evs) in *.
  unfold panels, screen in Hin.
  cbn [kpiPanel trendPanel swotPanel insightsPanel recommendationsPanel In]
    in Hin.
  destruct Hin as [<-|[<-|[<-|[<-|[<-|[]]]]]].
  - intros E. apply renderKPICards_throws in E.
    destruct Hn as (N1 & N2 & N3). destruct E as [E|[E|E]]; congruence.
  - unfold renderTrendChart. destruct (_ && _); [discriminate|].
    destruct (isLoading _); discriminate.
  - unfold renderSWOTMatrix. destruct (_ && _); [discriminate|].
    destruct (isLoading _); [discriminate|].
    pose proof (Hs [] StrategySwot _ _ _
                  (pq_swot [] (selectedIndustry (current w))
                           (selectedCompany (current w)))) as S.
    assert (S' := S ltac:(discriminate)). clear S.
    cbn [shapeOf forallb quadrantNames] in S'.
    repeat (apply andb_true_iff in S'; destruct S' as [? S']).
    unfold swotContent. rewrite !children_of_cases.
    repeat match goal with
           | X : listable ?u = true |- _ => rewrite X; clear X
           end.
    discriminate.
  - unfold renderAISummary. destruct (_ && _); [discriminate|].
    destruct (isLoading _); [discriminate|].
    pose proof (Hs (cache w) InsightsOf _ _ _
                  (pq_insights (cache w) (selectedIndustry (current w))
                               (selectedCompany (current w)))) as S.
    assert (S' := S ltac:(discriminate)). clear S.
    replace (mkSelection (selectedIndustry (current w))
                         (selectedCompany (current w)))
      with (current w) in S' by (destruct (current w); reflexivity).
    cbn [shapeOf] in S'. apply andb_true_iff in S'. destruct S' as [S1 S2].
    unfold insightsContent.
    destruct (takeaways _) as [l|] eqn:T;
      [|exfalso; exact (takeaways_listable _ S2 T)].
    cbn [bind]. rewrite renderable_or by (exact S1 || reflexivity).
    discriminate.
  - unfold renderStrategicRecommendations. destruct (_ && _); [discriminate|].
    destruct (isLoading _); [discriminate|].
    pose proof (Hs [] StrategyGrowth _ _ _
                  (pq_growth [] (selectedIndustry (current w))
                             (selectedCompany (current w)))) as S.
    assert (S' := S ltac:(discriminate)). clear S.
    cbn [shapeOf] in S'.
    unfold recommendationsContent. rewrite children_of_cases, S'.
    discriminate.
Qed.

Lemma panels_render_on_shaped_responses_witness :
  swotPanel
    (screen
       (run Providers initialWorld
          [User (IndustryChange "Finance");
           Settle [JStr "strategy"; JStr "swot"; JStr "Finance"; JNull]
                  (Resolved
                     (JObj [("content",
                             JObj [("strengths", JArr [JStr "brand"])])]))]))
  <> None.
Proof.
  apply (panels_render_on_shaped_responses Providers
           [User (IndustryChange "Finance");
            Settle [JStr "strategy"; JStr "swot"; JStr "Finance"; JNull]
                   (Resolved
                      (JObj [("content",
                              JObj [("strengths", JArr [JStr "brand"])])]))]).
  - constructor; [exact I|]. constructor; [|constructor].
    intros c P i co q v Hpq Hk Hr. injection Hr as <-.
    destruct Hpq; revert Hk; key_compute; intros Hk;
      try discriminate Hk; reflexivity.
  - unfold panels. simpl. auto.
Defined.

(* ===================================================================== *)
(** ** One entry per product and selection *)
(* ===================================================================== *)

(** X14.  The queries of two different products, or of the same product
    for two different selections, never share a cache entry: their keys
    hash differently (also for SWOT and growth strategy, whose keys both
    start with "strategy"), so what is stored for one is not what the
    other reads. *)
Theorem products_have_separate_entries (c c' : Cache) (P P' : Product)
    (i i' co co' : option string) (q q' : Query) (e : QueryEntry)
    (store0 : Cache) :
  panelQuery c P i co q -> panelQuery c' P' i' co' q' ->
  (P, i, co) <> (P', i', co') ->
  key_eqb (queryKey q) (queryKey q') = false
  /\ entry (queryKey q') (store (queryKey q) e store0)
     = entry (queryKey q') store0.
Proof.
  intros Hq Hq' Hne.
  assert (E : key_eqb (queryKey q) (queryKey q') = false).
  { destruct (key_eqb (queryKey q) (queryKey q')) eqn:E; [|reflexivity].
    destruct (panel_key_eq _ _ _ _ _ _ _ _ _ _ Hq Hq' E) as (-> & -> & ->).
    congruence. }
  split; [exact E | apply entry_store_other, E].
Qed.

Lemma products_have_separate_entries_witness :
  key_eqb [JStr "strategy"; JStr "swot"; JStr "Finance"; JNull]
          [JStr "strategy"; JStr "growth"; JStr "Finance"; JNull]
  = false.
Proof.
  refine (proj1 (products_have_separate_entries [] [] StrategySwot
                   StrategyGrowth (Some "Finance") (Some "Finance") None None
                   _ _ idleEntry []
                   (pq_swot [] (Some "Finance") None)
                   (pq_growth [] (Some "Finance") None) _)).
  discriminate.
Defined.

(* ===================================================================== *)
(** ** From the market data to the insights *)
(* ===================================================================== *)

Lemma insights_market_apart (i co i' co' : option string) (md : JsVal) :
  key_eqb (queryKey (marketQuery i co)) (queryKey (insightsQuery i' co' md))
  = false.
Proof. key_compute. reflexivity. Qed.

Lemma marketData_store (d : Selection) (v : JsVal) (c : Cache) :
  marketData d
    (store (queryKey (marketQuery (selectedIndustry d) (selectedCompany d)))
           (succeeded v) c)
  = v.
Proof. unfold marketData. rewrite entry_store_same. reflexivity. Qed.

(** X15.  When the market request of the current selection resolves, the
    value becomes the market data of the panels and the insights query is
    looked at again: its fetcher is started, with the metrics of the new
    data (or the empty object) as [data], exactly when the new data is
    truthy, the insights key is new or there was no market data before, and
    no request for that key is under way.  Metrics that hash as the
    previous ones start nothing. *)
Theorem market_data_starts_insights (w : World) (r : Request) (v : JsVal) :
  hasSelection (current w) = true ->
  inflight (entry (queryKey (marketQuery (selectedIndustry (current w))
                                         (selectedCompany (current w))))
                  (cache w)) = Some (ApiCall r) ->
  let d := current w in
  let i := selectedIndustry d in
  let co := selectedCompany d in
  let mk := queryKey (marketQuery i co) in
  let old := insightsQuery i co (marketData d (cache w)) in
  let new := insightsQuery i co v in
  let w' := step Providers w (Settle mk (Resolved v)) in
  marketData d (cache w') = v
  /\ queryFn new
     = ApiCall (GetInsights i co (js_or (get_opt v "metrics") (JObj [])))
  /\ calls w'
     = if (negb (key_eqb (queryKey old) (queryKey new))
           || negb (truthy (marketData d (cache w))))
          && truthy v
          && negb (isFetching (entry (queryKey new) (cache w)))
       then (queryKey new, queryFn new) :: calls w
       else calls w.
Proof.
  intros Hs Hf. cbv zeta.
  remember (current w) as d eqn:Ed. destruct d as [i co].
  cbn [selectedIndustry selectedCompany] in *.
  set (mk := queryKey (marketQuery i co)) in *.
  set (old := insightsQuery i co (marketData (mkSelection i co) (cache w))).
  set (new := insightsQuery i co v).
  assert (Hw' : step Providers w (Settle mk (Resolved v))
                = setOptions Providers old new
                    (mkWorld (page w)
                       (if JsVal_eqb (marketData (mkSelection i co) (cache w)) v
                        then kpis w
                        else run_effect v (mkSelection i co) (kpis w))
                       (store mk (succeeded v) (cache w)) (calls w))).
  { cbn [step]. unfold onSettle. rewrite Hf. cbn [run_queryFn]. cbv zeta.
    rewrite <- Ed. cbn [selectedIndustry selectedCompany].
    assert (M : marketData (mkSelection i co)
                  (store mk (succeeded v) (cache w)) = v)
      by apply (marketData_store (mkSelection i co)).
    rewrite !M. reflexivity. }
  assert (Ei : entry (queryKey new) (store mk (succeeded v) (cache w))
               = entry (queryKey new) (cache w))
    by (apply entry_store_other, insights_market_apart).
  assert (Eo : enabled old
               = truthy (marketData (mkSelection i co) (cache w))).
  { unfold old. cbn [enabled insightsQuery]. unfold sel. now rewrite Hs. }
  assert (En : enabled new = truthy v).
  { unfold new. cbn [enabled insightsQuery]. unfold sel. now rewrite Hs. }
  rewrite Hw'. split; [|split; [reflexivity|]].
  - unfold setOptions.
    rewrite <- (marketData_same_data (mkSelection i co) _ _
                  (fetch_if_same_data _ new (mkWorld _ _ _ _))).
    cbn [cache]. apply (marketData_store (mkSelection i co)).
  - unfold setOptions. rewrite Providers_update, Eo, En.
    cbn [cache]. unfold fetch_if, fetch. cbn [cache calls]. rewrite Ei.
    destruct ((negb (key_eqb (queryKey old) (queryKey new))
               || negb (truthy (marketData (mkSelection i co) (cache w))))
              && truthy v);
      [|reflexivity].
    destruct (isFetching (entry (queryKey new) (cache w))); reflexivity.
Qed.

Lemma market_data_starts_insights_witness :
  marketData (mkSelection (Some "Finance") None)
    (cache (run Providers initialWorld
              [User (IndustryChange "Finance");
               Settle [JStr "market"; JStr "Finance"; JNull]
                      (Resolved (JObj [("metrics",
                                        JObj [("growth_rate", JNum 5%Q)])]))]))
  = JObj [("metrics", JObj [("growth_rate", JNum 5%Q)])].
Proof.
  exact (proj1 (market_data_starts_insights
                  (run Providers initialWorld
                     [User (IndustryChange "Finance")])
                  (GetMarketData (Some "Finance") None)
                  (JObj [("metrics", JObj [("growth_rate", JNum 5%Q)])])
                  eq_refl eq_refl)).
Defined.

(* ===================================================================== *)
(** ** A first selection *)
(* ===================================================================== *)

Lemma subscribe_fresh (q : Query) (w : World) :
  enabled q = true -> isFetching (entry (queryKey q) (cache w)) = false ->
  subscribe Providers q w
  = mkWorld (page w) (kpis w)
      (store (queryKey q) (started (queryFn q) (entry (queryKey q) (cache w)))
             (cache w))
      ((queryKey q, queryFn q) :: calls w).
Proof.
  intros En F. unfold subscribe. rewrite Providers_mount, En.
  cbn [fetch_if]. unfold fetch. rewrite F. reflexivity.
Qed.

Lemma subscribe_busy (q : Query) (w : World) :
  isFetching (entry (queryKey q) (cache w)) = true ->
  subscribe Providers q w = w.
Proof.
  intros F. unfold subscribe, fetch_if, fetch. rewrite F.
  destruct (shouldFetchOnMount _ _ _); reflexivity.
Qed.

Lemma isFetching_started (f : QueryFn) (e : QueryEntry) :
  isFetching (started f e) = true.
Proof. unfold isFetching. rewrite started_inflight. reflexivity. Qed.

Lemma panel_keys_apart (i co : option string) :
  let mk := queryKey (marketQuery i co) in
  let fk := queryKey (forecastQuery i co) in
  let sk := queryKey (swotQuery i co) in
  let gk := queryKey (growthQuery i co) in
  key_eqb mk fk = false /\ key_eqb mk sk = false /\ key_eqb mk gk = false
  /\ key_eqb fk sk = false /\ key_eqb fk gk = false /\ key_eqb sk gk = false
  /\ key_eqb fk mk = false /\ key_eqb sk mk = false.
Proof. cbv zeta. repeat split; key_compute; reflexivity. Qed.

(** X16.  A change of selection that mounts the panels afresh, for a
    selection none of whose four queries has a request under way and whose
    market data is not cached, starts exactly four fetchers, in the order
    of the panels: market data, forecast, SWOT, growth strategy.  The
    market key is subscribed twice ([KPICards] and [AISummary]) and fetched
    once, and no insights request goes out yet. *)
Theorem first_selection_posts_four_requests (e : UserEvent) (w : World) :
  reactKey (current w) <> reactKey (target e) ->
  hasSelection (target e) = true ->
  (forall k, In k (panelKeys (target e)) ->
             isFetching (entry k (cache w)) = false) ->
  truthy (marketData (target e) (cache w)) = false ->
  let i := selectedIndustry (target e) in
  let co := selectedCompany (target e) in
  calls (step Providers w (User e))
  = [ (queryKey (growthQuery i co), ApiCall (GetStrategy i co "growth"));
      (queryKey (swotQuery i co), ApiCall (GetStrategy i co "swot"));
      (queryKey (forecastQuery i co), TrendFn i co);
      (queryKey (marketQuery i co), ApiCall (GetMarketData i co)) ]
    ++ calls w
  /\ requests (step Providers w (User e))
     = [ GetStrategy i co "growth"; GetStrategy i co "swot";
         GetForecast "growth" 12 (or_undefined i) (or_undefined co);
         GetMarketData i co ]
       ++ requests w.
Proof.
  intros Hk Hs Hidle Hmd.
  assert (N : notifies e (page w) = true).
  { apply notifies_changed. intros E. apply Hk. unfold current.
    now rewrite E. }
  apply String.eqb_neq in Hk.
  remember (target e) as d eqn:Ed. destruct d as [i co].
  cbn [selectedIndustry selectedCompany].
  destruct (panel_keys_apart i co)
    as (Kmf & Kms & Kmg & Kfs & Kfg & Ksg & Kfm & Ksm).
  assert (Im : isFetching (entry (queryKey (marketQuery i co)) (cache w))
               = false) by (apply Hidle; simpl; auto).
  assert (If : isFetching (entry (queryKey (forecastQuery i co)) (cache w))
               = false) by (apply Hidle; simpl; auto).
  assert (Is : isFetching (entry (queryKey (swotQuery i co)) (cache w))
               = false) by (apply Hidle; simpl; auto).
  assert (Ig : isFetching (entry (queryKey (growthQuery i co)) (cache w))
               = false) by (apply Hidle; simpl; auto 6).
  assert (C : calls (step Providers w (User e))
              = [ (queryKey (growthQuery i co),
                   ApiCall (GetStrategy i co "growth"));
                  (queryKey (swotQuery i co),
                   ApiCall (GetStrategy i co "swot"));
                  (queryKey (forecastQuery i co), TrendFn i co);
                  (queryKey (marketQuery i co),
                   ApiCall (GetMarketData i co)) ] ++ calls w).
  { cbn [step]. unfold onUser. rewrite N. cbn [negb].
    rewrite selection_handle, <- Ed, Hk. cbn [negb].
    set (w1 := mkWorld _ _ (cache w) (calls w)).
    unfold queries. cbn [selectedIndustry selectedCompany].
    rewrite !mountAll_cons. unfold mountAll at 1. cbn [fold_left].
    rewrite (subscribe_fresh (marketQuery i co) w1) by (exact Hs || exact Im).
    cbn [page kpis cache calls w1 queryFn queryKey marketQuery].
    rewrite (subscribe_fresh (forecastQuery i co))
      by (try exact Hs; cbn [cache]; rewrite entry_store_other; assumption).
    cbn [page kpis cache calls queryFn forecastQuery].
    rewrite (subscribe_fresh (swotQuery i co))
      by (try exact Hs; cbn [cache];
          rewrite !entry_store_other; assumption).
    cbn [page kpis cache calls queryFn swotQuery].
    rewrite (subscribe_busy (marketQuery i co))
      by (cbn [cache]; rewrite !entry_store_other by assumption;
          rewrite entry_store_same; apply isFetching_started).
    rewrite (subscribe_disabled Providers
               (insightsQuery i co (marketData (mkSelection i co) (cache w))))
      by (cbn [enabled insightsQuery]; rewrite Hmd; apply andb_false_r).
    rewrite (subscribe_fresh (growthQuery i co))
      by (try exact Hs; cbn [cache];
          rewrite !entry_store_other; assumption).
    reflexivity. }
  split; [exact C|].
  unfold requests. rewrite C. cbn [app flat_map snd request_of].
  unfold hasSelection in Hs. cbn [selectedIndustry selectedCompany] in Hs.
  assert (X : negb (prop_truthy i) && negb (prop_truthy co) = false)
    by (destruct (prop_truthy i), (prop_truthy co);
        try reflexivity; discriminate Hs).
  rewrite X. reflexivity.
Qed.

Lemma first_selection_posts_four_requests_witness :
  requests (step Providers initialWorld (User (IndustryChange "Finance")))
  = [ GetStrategy (Some "Finance") None "growth";
      GetStrategy (Some "Finance") None "swot";
      GetForecast "growth" 12 (Some "Finance") None;
      GetMarketData (Some "Finance") None ].
Proof.
  refine (proj2 (first_selection_posts_four_requests
                   (IndustryChange "Finance") initialWorld _ eq_refl _
                   eq_refl)).
  - discriminate.
  - intros k _. reflexivity.
Defined.

(* ===================================================================== *)
(** ** When the numbers on the cards change *)
(* ===================================================================== *)

(** X17.  While something is selected, the numbers of [KPICards] change
    only when a handler changes the selection, or when the market request
    of the current selection resolves to data that carries metrics.  A
    response without metrics, a response for another key, a rejection, a
    further attempt, a reconnect and a window focus all leave the cards
    showing what they showed. *)
Theorem cards_change_only_on_metrics (opts : QueryOptions) (w : World)
    (ev : Event) :
  hasSelection (current w) = true ->
  kpis (step opts w ev) <> kpis w ->
  (exists e, ev = User e /\ notifies e (page w) = true)
  \/ (exists k v,
        ev = Settle k v
        /\ key_eqb k (queryKey (marketQuery (selectedIndustry (current w))
                                            (selectedCompany (current w))))
           = true
        /\ truthy (get_opt (marketData (current w) (cache (step opts w ev)))
                           "metrics") = true).
Proof.
  intros Hs Hne. destruct ev as [e|k response| |].
  - left. exists e. split; [reflexivity|].
    destruct (notifies e (page w)) eqn:N; [reflexivity|].
    exfalso. apply Hne. cbn [step]. unfold onUser. rewrite N. reflexivity.
  - right. exists k, response. split; [reflexivity|].
    revert Hne. cbn [step]. unfold onSettle.
    destruct (inflight (entry k (cache w))) as [f|];
      [|intros Hne; exfalso; apply Hne; reflexivity].
    destruct (run_queryFn f response) as [v|err].
    + set (c' := store k (succeeded v) (cache w)).
      unfold setOptions. rewrite fetch_if_kpis. cbn [kpis].
      rewrite <- (marketData_same_data (current w) _ _
                    (fetch_if_same_data _ _ (mkWorld _ _ c' _))).
      cbn [cache].
      destruct (key_eqb k (queryKey (marketQuery
                                       (selectedIndustry (current w))
                                       (selectedCompany (current w)))))
        eqn:Ek.
      * destruct (JsVal_eqb _ _);
          [intros Hne; exfalso; apply Hne; reflexivity|].
        intros Hne. split; [reflexivity|].
        destruct (truthy (get_opt (marketData (current w) c') "metrics"))
          eqn:T; [reflexivity|].
        exfalso. apply Hne. apply run_effect_keeps; assumption.
      * assert (M : marketData (current w) c' = marketData (current w) (cache w)).
        { unfold marketData, c'. rewrite entry_store_other by exact Ek.
          reflexivity. }
        rewrite M, JsVal_eqb_refl. intros Hne. exfalso. apply Hne.
        reflexivity.
    + destruct (_ && _); intros Hne; exfalso; apply Hne; reflexivity.
  - exfalso. apply Hne. cbn [step]. apply refetchAll_kpis.
  - exfalso. apply Hne. cbn [step]. apply refetchAll_kpis.
Qed.

Lemma cards_change_only_on_metrics_witness :
  truthy
    (get_opt
       (marketData (mkSelection (Some "Finance") None)
          (cache (run Providers initialWorld
                    [User (IndustryChange "Finance");
                     Settle [JStr "market"; JStr "Finance"; JNull]
                       (Resolved
                          (JObj [("metrics",
                                  JObj [("growth_rate", JNum 5%Q)])]))])))
       "metrics")
  = true.
Proof.
  destruct (cards_change_only_on_metrics Providers
              (run Providers initialWorld [User (IndustryChange "Finance")])
              (Settle [JStr "market"; JStr "Finance"; JNull]
                 (Resolved (JObj [("metrics",
                                   JObj [("growth_rate", JNum 5%Q)])])))
              eq_refl)
    as [(e & E & _)|(k & v & _ & _ & H)].
  - intros H. vm_compute in H. discriminate H.
  - discriminate E.
  - exact H.
Defined.

(* ===================================================================== *)
(** ** Requests are filed under the key of what they ask for *)
(* ===================================================================== *)

Lemma callsInv_micro ok w w' :
  micro ok w w' -> cacheInv w -> callsInv w -> callsInv w'.
Proof.
  intros Hm [A1 A2] F.
  destruct Hm as [w q Hq He Hi | w k0 f response v Hf Hok Hr | w k0 f Hf
                 | w k0 f response err Hf Hr | w p ks];
    unfold callsInv; cbn [calls]; auto.
  - intros k f [E|H]; [|auto]. injection E as <- <-.
    destruct Hq as (P & i & co & Hq).
    exists (cache w), P, i, co, q. auto using key_eqb_refl.
  - intros k f' [E|H]; [|auto]. injection E as <- <-. auto.
Qed.

Lemma callsInv_run opts evs : callsInv (run opts initialWorld evs).
Proof.
  assert (H : cacheInv (run opts initialWorld evs)
              /\ callsInv (run opts initialWorld evs)).
  { eapply (micros_invariant anyResponse
              (fun w => cacheInv w /\ callsInv w)).
    - intros w w' Hm [H1 H2]. split.
      + eapply cacheInv_micro; eauto.
      + eapply callsInv_micro; eauto.
    - apply run_micros. apply ok_event_any.
    - split; [apply cacheInv_initial | intros k f []]. }
  apply H.
Qed.

(** The fetcher filed under the key of a panel query is the fetcher of that
    product for that selection. *)
Lemma fetcherFor_panel c P i co q k f :
  panelQuery c P i co q -> key_eqb (queryKey q) k = true ->
  fetcherFor k f ->
  exists c' q', panelQuery c' P i co q' /\ enabled q' = true
                /\ key_eqb (queryKey q') k = true
                /\ f = fetcherOf c' P i co.
Proof.
  intros Hq E (c' & P' & i' & co' & q' & H1 & H2 & H3 & <-).
  assert (E' : key_eqb (queryKey q') (queryKey q) = true).
  { eapply key_eqb_trans; [exact H3|]. rewrite key_eqb_sym. exact E. }
  destruct (panel_key_eq _ _ _ _ _ _ _ _ _ _ H1 Hq E') as (-> & -> & ->).
  exists c', q'. repeat split; auto. apply (panel_queryFn _ _ _ _ _ H1).
Qed.

Lemma insights_key_metrics (i co : option string) (md md' : JsVal) :
  key_eqb (queryKey (insightsQuery i co md))
          (queryKey (insightsQuery i co md')) = true ->
  canon (get_opt md "metrics") = canon (get_opt md' "metrics").
Proof.
  intros H. apply key_eqb_eq in H. unfold key_eq, hashKey in H.
  cbn [queryKey insightsQuery canon map] in H. now injection H.
Qed.

(** X18.  Every fetcher the dashboard ever invokes is filed under the key
    of what it asks for: under a market, forecast, SWOT or growth key of a
    selection the request is the one for exactly that selection, and under
    an insights key it is the insights request of that selection whose
    [data] comes from market data with the metrics the key was built from.
    So an entry never receives the answer to a question about another
    selection or another product. *)
Theorem calls_filed_under_their_key (opts : QueryOptions) (evs : list Event)
    (k : QueryKey) (f : QueryFn) :
  In (k, f) (calls (run opts initialWorld evs)) ->
  (forall i co, key_eqb (queryKey (marketQuery i co)) k = true ->
                f = ApiCall (GetMarketData i co))
  /\ (forall i co, key_eqb (queryKey (forecastQuery i co)) k = true ->
                   f = TrendFn i co)
  /\ (forall i co, key_eqb (queryKey (swotQuery i co)) k = true ->
                   f = ApiCall (GetStrategy i co "swot"))
  /\ (forall i co, key_eqb (queryKey (growthQuery i co)) k = true ->
                   f = ApiCall (GetStrategy i co "growth"))
  /\ (forall i co md,
         key_eqb (queryKey (insightsQuery i co md)) k = true ->
         exists md',
           f = ApiCall (GetInsights i co
                          (js_or (get_opt md' "metrics") (JObj [])))
           /\ truthy md' = true
           /\ canon (get_opt md' "metrics") = canon (get_opt md "metrics")).
Proof.
  intros Hin. pose proof (callsInv_run opts evs k f Hin) as Hf.
  split; [|split; [|split; [|split]]].
  - intros i co E.
    destruct (fetcherFor_panel _ _ _ _ _ _ _ (pq_market [] i co) E Hf)
      as (c' & q' & _ & _ & _ & ->). reflexivity.
  - intros i co E.
    destruct (fetcherFor_panel _ _ _ _ _ _ _ (pq_forecast [] i co) E Hf)
      as (c' & q' & _ & _ & _ & ->). reflexivity.
  - intros i co E.
    destruct (fetcherFor_panel _ _ _ _ _ _ _ (pq_swot [] i co) E Hf)
      as (c' & q' & _ & _ & _ & ->). reflexivity.
  - intros i co E.
    destruct (fetcherFor_panel _ _ _ _ _ _ _ (pq_growth [] i co) E Hf)
      as (c' & q' & _ & _ & _ & ->). reflexivity.
  - intros i co md E.
    assert (Hq : key_eqb
                   (queryKey (insightsQuery i co
                                (marketData (mkSelection i co)
                                   (store (queryKey (marketQuery i co))
                                          (succeeded md) []))))
                   k = true).
    { rewrite (marketData_store (mkSelection i co)). exact E. }
    destruct (fetcherFor_panel _ _ _ _ _ _ _
                (pq_insights (store (queryKey (marketQuery i co))
                                    (succeeded md) []) i co) Hq Hf)
      as (c' & q' & Hp & En & Ek & ->).
    exists (marketData (mkSelection i co) c').
    split; [reflexivity|].
    inversion Hp; subst.
    cbn [enabled insightsQuery] in En. apply andb_true_iff in En.
    split; [apply En|].
    apply (insights_key_metrics i co).
    eapply key_eqb_trans; [exact Ek|]. rewrite key_eqb_sym. exact E.
Qed.

Lemma calls_filed_under_their_key_witness :
  In ([JStr "market"; JStr "Finance"; JNull],
      ApiCall (GetMarketData (Some "Finance") None))
     (calls (run Providers initialWorld [User (IndustryChange "Finance")]))
  /\ ApiCall (GetMarketData (Some "Finance") None)
     = ApiCall (GetMarketData (Some "Finance") None).
Proof.
  assert (H : In ([JStr "market"; JStr "Finance"; JNull],
                  ApiCall (GetMarketData (Some "Finance") None))
                 (calls (run Providers initialWorld
                           [User (IndustryChange "Finance")])))
    by (vm_compute; tauto).
  split; [exact H|].
  exact (proj1 (calls_filed_under_their_key Providers _ _ _ H)
           (Some "Finance") None eq_refl).
Defined.

(* ===================================================================== *)
(** ** Coming back to a selection *)
(* ===================================================================== *)

Lemma insights_keys_apart (i co : option string) (md : JsVal) :
  let ik := queryKey (insightsQuery i co md) in
  key_eqb (queryKey (marketQuery i co)) ik = false
  /\ key_eqb (queryKey (forecastQuery i co)) ik = false
  /\ key_eqb (queryKey (swotQuery i co)) ik = false
  /\ key_eqb ik (queryKey (growthQuery i co)) = false.
Proof. cbv zeta. repeat split; key_compute; reflexivity. Qed.

Lemma mountAll_same_data (qs : list Query) (w : World) :
  same_data (cache w) (cache (mountAll Providers qs w)).
Proof.
  revert w. induction qs as [|q r IH]; intros w; [apply same_data_refl|].
  rewrite mountAll_cons. eapply same_data_trans; [|apply IH].
  unfold subscribe. apply fetch_if_same_data.
Qed.

(** X19.  With the options of [Providers], coming back to a selection whose
    market data is still cached (no request of that selection being under
    way) shows the cached numbers on the cards at once, keeps every cached
    value in place, and fetches everything again in the background: five
    fetchers are started in the order of the panels, the insights fetcher
    among them, with the cached metrics as [data]. *)
Theorem revisit_shows_cache_and_refetches (e : UserEvent) (w : World) :
  reactKey (current w) <> reactKey (target e) ->
  hasSelection (target e) = true ->
  (forall k, In k (panelKeys (target e)) ->
             isFetching (entry k (cache w)) = false) ->
  truthy (marketData (target e) (cache w)) = true ->
  isFetching
    (entry (queryKey (insightsQuery (selectedIndustry (target e))
                                    (selectedCompany (target e))
                                    (marketData (target e) (cache w))))
           (cache w)) = false ->
  let i := selectedIndustry (target e) in
  let co := selectedCompany (target e) in
  let md := marketData (target e) (cache w) in
  calls (step Providers w (User e))
  = [ (queryKey (growthQuery i co), ApiCall (GetStrategy i co "growth"));
      (queryKey (insightsQuery i co md),
       ApiCall (GetInsights i co (js_or (get_opt md "metrics") (JObj []))));
      (queryKey (swotQuery i co), ApiCall (GetStrategy i co "swot"));
      (queryKey (forecastQuery i co), TrendFn i co);
      (queryKey (marketQuery i co), ApiCall (GetMarketData i co)) ]
    ++ calls w
  /\ kpis (step Providers w (User e)) = run_effect md (target e) initialKPIs
  /\ (forall k, data (entry k (cache (step Providers w (User e))))
                = data (entry k (cache w))).
Proof.
  intros Hk Hs Hidle Hmd Hins.
  assert (N : notifies e (page w) = true).
  { apply notifies_changed. intros E. apply Hk. unfold current.
    now rewrite E. }
  apply String.eqb_neq in Hk.
  assert (St : step Providers w (User e)
               = mountAll Providers (queries (target e) (cache w))
                   (mkWorld (handle e (page w))
                      (run_effect (marketData (target e) (cache w))
                                  (target e) initialKPIs)
                      (cache w) (calls w))).
  { cbn [step]. unfold onUser. rewrite N. cbn [negb].
    rewrite selection_handle, Hk. reflexivity. }
  rewrite St. clear St.
  split; [|split].
  - remember (target e) as d eqn:Ed. destruct d as [i co].
    cbn [selectedIndustry selectedCompany] in *.
    set (md := marketData (mkSelection i co) (cache w)) in *.
    destruct (panel_keys_apart i co)
      as (Kmf & Kms & Kmg & Kfs & Kfg & Ksg & Kfm & Ksm).
    destruct (insights_keys_apart i co md) as (Kmi & Kfi & Ksi & Kig).
    assert (Im : isFetching (entry (queryKey (marketQuery i co)) (cache w))
                 = false) by (apply Hidle; simpl; auto).
    assert (If : isFetching (entry (queryKey (forecastQuery i co)) (cache w))
                 = false) by (apply Hidle; simpl; auto).
    assert (Is : isFetching (entry (queryKey (swotQuery i co)) (cache w))
                 = false) by (apply Hidle; simpl; auto).
    assert (Ig : isFetching (entry (queryKey (growthQuery i co)) (cache w))
                 = false) by (apply Hidle; simpl; auto 6).
    assert (Ei : enabled (insightsQuery i co md) = true)
      by (cbn [enabled insightsQuery]; unfold sel; rewrite Hs; exact Hmd).
    set (w1 := mkWorld _ _ (cache w) (calls w)).
    unfold queries. cbn [selectedIndustry selectedCompany]. fold md.
    rewrite !mountAll_cons. unfold mountAll at 1. cbn [fold_left].
    rewrite (subscribe_fresh (marketQuery i co) w1) by (exact Hs || exact Im).
    cbn [page kpis cache calls w1 queryFn queryKey marketQuery].
    rewrite (subscribe_fresh (forecastQuery i co))
      by (try exact Hs; cbn [cache]; rewrite entry_store_other; assumption).
    cbn [page kpis cache calls queryFn forecastQuery].
    rewrite (subscribe_fresh (swotQuery i co))
      by (try exact Hs; cbn [cache];
          rewrite !entry_store_other; assumption).
    cbn [page kpis cache calls queryFn swotQuery].
    rewrite (subscribe_busy (marketQuery i co))
      by (cbn [cache]; rewrite !entry_store_other by assumption;
          rewrite entry_store_same; apply isFetching_started).
    rewrite (subscribe_fresh (insightsQuery i co md))
      by (try exact Ei; cbn [cache];
          rewrite !entry_store_other; assumption).
    cbn [page kpis cache calls queryFn insightsQuery].
    rewrite (subscribe_fresh (growthQuery i co))
      by (try exact Hs; cbn [cache];
          rewrite !entry_store_other; assumption).
    reflexivity.
  - rewrite mountAll_kpis. reflexivity.
  - intros k. symmetry.
    apply (mountAll_same_data (queries (target e) (cache w))
             (mkWorld (handle e (page w))
                (run_effect (marketData (target e) (cache w))
                            (target e) initialKPIs)
                (cache w) (calls w))).
Qed.

Lemma revisit_shows_cache_and_refetches_witness :
  let w :=
    run Providers initialWorld
      [User (IndustryChange "Finance");
       Settle [JStr "market"; JStr "Finance"; JNull]
              (Resolved (JObj [("metrics",
                                JObj [("growth_rate", JNum 5%Q)])]));
       Settle [JStr "forecast"; JStr "Finance"; JNull] (Resolved JNull);
       Settle [JStr "strategy"; JStr "swot"; JStr "Finance"; JNull]
              (Resolved (JObj []));
       Settle [JStr "strategy"; JStr "growth"; JStr "Finance"; JNull]
              (Resolved (JObj []));
       Settle [JStr "insights"; JStr "Finance"; JNull;
               JObj [("growth_rate", JNum 5%Q)]]
              (Resolved (JObj []));
       User (IndustryChange "Retail")] in
  truthy (marketData (target (IndustryChange "Finance")) (cache w)) = true
  /\ kpis (step Providers w (User (IndustryChange "Finance")))
     = run_effect (marketData (target (IndustryChange "Finance")) (cache w))
                  (target (IndustryChange "Finance")) initialKPIs.
Proof.
  intros w.
  assert (H1 : reactKey (current w)
               <> reactKey (target (IndustryChange "Finance")))
    by (vm_compute; discriminate).
  assert (H2 : hasSelection (target (IndustryChange "Finance")) = true)
    by reflexivity.
  assert (H3 : forall k, In k (panelKeys (target (IndustryChange "Finance")))
                         -> isFetching (entry k (cache w)) = false).
  { intros k Hk. simpl in Hk.
    destruct Hk as [<-|[<-|[<-|[<-|[]]]]]; vm_compute; reflexivity. }
  assert (H4 : truthy (marketData (target (IndustryChange "Finance"))
                                  (cache w)) = true)
    by (vm_compute; reflexivity).
  assert (H5 : isFetching
                 (entry (queryKey
                           (insightsQuery
                              (selectedIndustry
                                 (target (IndustryChange "Finance")))
                              (selectedCompany
                                 (target (IndustryChange "Finance")))
                              (marketData (target (IndustryChange "Finance"))
                                          (cache w))))
                        (cache w)) = false)
    by (vm_compute; reflexivity).
  split; [exact H4|].
  exact (proj1 (proj2 (revisit_shows_cache_and_refetches
                          (IndustryChange "Finance") w H1 H2 H3 H4 H5))).
Defined.
